(** * bespoke/cli, package [module]: identifiers, vault, resolver, lifecycle

    A shallow embedding of [module/module.go] (the variant whose
    [ToggleModuleInVault] takes the [enabled] flag, the one the commands
    of package [cmd] call) and of the behaviour of the Go library calls it
    makes; then of the commands of [pkg] and the protocol handler of
    package [cmd], and of the toggle of the later variant of the file.

    - Go strings are byte strings: [string], matched byte by byte.
    - A Go function that may panic returns an [outcome].
    - The file system is a record [World]: the vault file, the symbolic
      links and the store tree.  It has no permission or device faults:
      a write to the vault path and a recursive removal succeed, as
      [os.WriteFile] and [os.RemoveAll] do on a healthy disk.  The network,
      the JSON decoder of a response body and the archive extractor are
      oracles gathered in [Env].
    - JSON text is abstracted to the document it denotes ([JVault]).
    - A Go map is a reference.  The struct copy a lookup returns shares the
      map object of the vault entry it was copied from; the string field
      [Enabled] is copied by value. *)

From Stdlib Require Import Ascii String.
From stdpp Require Import gmap strings list fin_maps.

Open Scope string_scope.

(** ** Byte strings *)

(** [s[:n]], cut short at the end of [s]. *)
Fixpoint take_s (n : nat) (s : string) : string :=
  match n, s with
  | S n', String a s' => String a (take_s n' s')
  | _, _ => EmptyString
  end.

Definition byte_eqb (a b : ascii) : bool := Ascii.eqb a b.

(** [strings.HasPrefix]. *)
Fixpoint has_prefix (p s : string) : bool :=
  match p, s with
  | EmptyString, _ => true
  | String a p', String b s' => byte_eqb a b && has_prefix p' s'
  | String _ _, EmptyString => false
  end.

(** [no_byte c s]: the byte [c] does not occur in [s]. *)
Fixpoint no_byte (c : ascii) (s : string) : Prop :=
  match s with
  | EmptyString => True
  | String a s' => a <> c /\ no_byte c s'
  end.

(** ** Outcomes of a Go call: a normal return or a run-time panic *)

Inductive panic : Type :=
  | IndexOutOfRange (index len : nat)
  | NilMapAssignment
  | RegexpCompile (pattern : string).

Inductive outcome (A : Type) : Type :=
  | Returns (a : A)
  | Panics (p : panic).
Arguments Returns {A} a.
Arguments Panics {A} p.

(** [xs[i]] on a slice: a run-time panic when [i] is out of range; a nil
    slice has length 0. *)
Definition index {A} (xs : list A) (i : nat) : outcome A :=
  match nth_error xs i with
  | Some x => Returns x
  | None => Panics (IndexOutOfRange i (length xs))
  end.

(** ** Package [regexp]: a backtracking matcher with leftmost-first choice

    Only the syntax the three patterns of the file use. *)
Module Regexp.

Inductive regex : Type :=
  | Empty                              (* the empty pattern *)
  | Byte (c : ascii)                   (* a literal *)
  | NotByte (c : ascii)                (* [^c] *)
  | AnyByte                            (* .  (anything but a newline) *)
  | Seq (r1 r2 : regex)                (* r1r2 *)
  | Alt (r1 r2 : regex)                (* r1|r2, r1 preferred *)
  | Star (greedy : bool) (r : regex)   (* r* and r*? *)
  | Group (i : nat) (r : regex)        (* (?<name>r), the i-th group *)
  | BeginText                          (* ^ *)
  | EndText.                           (* $ *)

Definition Plus (r : regex) : regex := Seq r (Star true r).   (* r+ *)
Definition Quest (r : regex) : regex := Alt r Empty.          (* r? *)

Fixpoint Lit (s : string) : regex :=
  match s with
  | EmptyString => Empty
  | String a s' => Seq (Byte a) (Lit s')
  end.

(** Group texts recorded so far, newest first. *)
Definition captures := list (nat * string).

Fixpoint capture (i : nat) (cs : captures) : string :=
  match cs with
  | [] => ""
  | (j, t) :: cs' => if Nat.eqb i j then t else capture i cs'
  end.

(** A continuation receives the position, the rest of the text and the
    groups. *)
Definition cont := nat -> string -> captures -> option captures.

Definition newline : ascii := "010"%char.

(** The loop of [r*] and [r*?]: [step] matches [r] once.  An iteration
    has to consume something; [fuel] is the length of the text left. *)
Fixpoint star_loop (step : nat -> string -> captures -> cont -> option captures)
    (greedy : bool) (k : cont) (fuel : nat)
    (pos : nat) (s : string) (cs : captures) : option captures :=
  match fuel with
  | O => k pos s cs
  | S fuel' =>
      let again :=
        step pos s cs
          (fun pos' s' cs' =>
             if Nat.ltb pos pos' then star_loop step greedy k fuel' pos' s' cs'
             else None) in
      if greedy then
        match again with
        | Some res => Some res
        | None => k pos s cs
        end
      else
        match k pos s cs with
        | Some res => Some res
        | None => again
        end
  end.

Fixpoint run (r : regex) (pos : nat) (s : string) (cs : captures)
    (k : cont) {struct r} : option captures :=
  match r with
  | Empty => k pos s cs
  | Byte c =>
      match s with
      | String a s' => if byte_eqb a c then k (S pos) s' cs else None
      | EmptyString => None
      end
  | NotByte c =>
      match s with
      | String a s' => if byte_eqb a c then None else k (S pos) s' cs
      | EmptyString => None
      end
  | AnyByte =>
      match s with
      | String a s' => if byte_eqb a newline then None else k (S pos) s' cs
      | EmptyString => None
      end
  | Seq r1 r2 =>
      run r1 pos s cs (fun pos' s' cs' => run r2 pos' s' cs' k)
  | Alt r1 r2 =>
      match run r1 pos s cs k with
      | Some res => Some res
      | None => run r2 pos s cs k
      end
  | Star greedy r' =>
      star_loop (run r') greedy k (String.length s) pos s cs
  | Group i r' =>
      run r' pos s cs
        (fun pos' s' cs' => k pos' s' ((i, take_s (pos' - pos) s) :: cs'))
  | BeginText => if Nat.eqb pos 0 then k pos s cs else None
  | EndText =>
      match s with
      | EmptyString => k pos s cs
      | String _ _ => None
      end
  end.

(** The match that starts at [pos], if there is one: group 0 is the
    whole match. *)
Definition match_at (r : regex) (pos : nat) (s : string) : option captures :=
  run r pos s [] (fun pos' _ cs' => Some ((0, take_s (pos' - pos) s) :: cs')).

(** Leftmost match: the start positions [pos], [pos+1], ... in turn. *)
Fixpoint search (r : regex) (pos : nat) (s : string) : option captures :=
  match match_at r pos s with
  | Some cs => Some cs
  | None =>
      match s with
      | EmptyString => None
      | String _ s' => search r (S pos) s'
      end
  end.

(** [Regexp.FindStringSubmatch]: [None] is the nil slice; otherwise
    the slice holds the whole match and then the text of each of the
    [groups] groups. *)
Definition FindStringSubmatch (groups : nat) (r : regex) (s : string)
    : option (list string) :=
  match search r 0 s with
  | None => None
  | Some cs => Some (map (fun i => capture i cs) (seq 0 (S groups)))
  end.

(** [has_group i r]: the pattern [r] contains the group [i]. *)
Fixpoint has_group (i : nat) (r : regex) : bool :=
  match r with
  | Group j r' => Nat.eqb i j || has_group i r'
  | Seq r1 r2 | Alt r1 r2 => has_group i r1 || has_group i r2
  | Star _ r' => has_group i r'
  | _ => false
  end.

(** [frame r cs cs']: [cs'] records what [cs] does for every group that
    is not in [r]. *)
Definition frame (r : regex) (cs cs' : captures) : Prop :=
  forall i, has_group i r = false -> capture i cs' = capture i cs.

(** [stops c rest]: a run of bytes other than [c] cannot go on into
    [rest]. *)
Definition stops (c : ascii) (rest : string) : Prop :=
  match rest with
  | EmptyString => True
  | String a _ => a = c
  end.

(** What a pattern can consume: [matches r pos s pos' s'] when [r],
    started at position [pos] on [s], can stop at [pos'] with [s'] left.
    It forgets the order of the attempts and the groups. *)
Inductive matches : regex -> nat -> string -> nat -> string -> Prop :=
  | m_Empty pos s : matches Empty pos s pos s
  | m_Byte c pos s : matches (Byte c) pos (String c s) (S pos) s
  | m_NotByte c a pos s :
      a <> c -> matches (NotByte c) pos (String a s) (S pos) s
  | m_AnyByte a pos s :
      a <> newline -> matches AnyByte pos (String a s) (S pos) s
  | m_Seq r1 r2 pos s pos1 s1 pos2 s2 :
      matches r1 pos s pos1 s1 -> matches r2 pos1 s1 pos2 s2 ->
      matches (Seq r1 r2) pos s pos2 s2
  | m_Alt_l r1 r2 pos s pos' s' :
      matches r1 pos s pos' s' -> matches (Alt r1 r2) pos s pos' s'
  | m_Alt_r r1 r2 pos s pos' s' :
      matches r2 pos s pos' s' -> matches (Alt r1 r2) pos s pos' s'
  | m_Star_stop g r pos s : matches (Star g r) pos s pos s
  | m_Star_more g r pos s pos1 s1 pos2 s2 :
      matches r pos s pos1 s1 -> matches (Star g r) pos1 s1 pos2 s2 ->
      matches (Star g r) pos s pos2 s2
  | m_Group i r pos s pos' s' :
      matches r pos s pos' s' -> matches (Group i r) pos s pos' s'
  | m_BeginText s : matches BeginText 0 s 0 s
  | m_EndText pos : matches EndText pos "" pos "".

End Regexp.
Import Regexp.

Definition slash : ascii := "/"%char.

(** [moduleIdentifierRe], its pieces set apart by blanks:
    [^ (?<author> [^/]+ ) / (?<name> [^/]+ ) $] *)
Definition moduleIdentifierRe : regex :=
  Seq BeginText
   (Seq (Group 1 (Plus (NotByte slash)))
    (Seq (Byte slash)
     (Seq (Group 2 (Plus (NotByte slash)))
      EndText))).

(** [storeIdentifierRe]:
    [^ (?<identifier> [^/]+ / [^/]+ ) / (?<version> [^/]* ) $] *)
Definition storeIdentifierRe : regex :=
  Seq BeginText
   (Seq (Group 1 (Seq (Plus (NotByte slash))
                  (Seq (Byte slash) (Plus (NotByte slash)))))
    (Seq (Byte slash)
     (Seq (Group 2 (Star true (NotByte slash)))
      EndText))).

(** The end of [githubRawRe], from the directory on:
    [(?<dirname> .*? ) /? (?<basename> [^/] )+ $]. *)
Definition githubRawRe_tail : regex :=
  Seq (Group 4 (Star false AnyByte))
   (Seq (Quest (Byte slash))
    (Seq (Plus (Group 5 (NotByte slash)))
     EndText)).

(** [githubRawRe]:
    [https://raw.githubusercontent.com/ (?<owner> [^/]+ ) / (?<repo> [^/]+ ) /
     (?<version> [^/]+ ) / (?<dirname> .*? ) /? (?<basename> [^/] )+ $];
    it has no [^], and the dots of the host name are the pattern's [.]. *)
Definition githubRawRe : regex :=
  Seq (Lit "https://raw")
   (Seq AnyByte
    (Seq (Lit "githubusercontent")
     (Seq AnyByte
      (Seq (Lit "com/")
       (Seq (Group 1 (Plus (NotByte slash)))
        (Seq (Byte slash)
         (Seq (Group 2 (Plus (NotByte slash)))
          (Seq (Byte slash)
           (Seq (Group 3 (Plus (NotByte slash)))
            (Seq (Byte slash)
             githubRawRe_tail)))))))))).

(** ** Errors ([error] values; [None] is the nil error) *)

Inductive error : Type :=
  | errors_New (text : string)      (* errors.New *)
  | os_PathError (op path : string) (* package os *)
  | json_SyntaxError                (* encoding/json *)
  | net_Error (detail : string)     (* net/http, go-github *)
  | url_EscapeError (detail : string)
  | archive_Error (detail : string).

(** ** Data model *)

Abbreviation URL := string (only parsing).
Abbreviation Author := string (only parsing).
Abbreviation Name := string (only parsing).
Abbreviation Version := string (only parsing).

Record Entries : Type := { Js : string; Css : string; Mixin : string }.

Record Metadata : Type := {
  md_Name : string;
  md_Version : string;
  md_Authors : list string;
  md_Description : string;
  md_Tags : list string;
  md_Entries : Entries;
  md_Dependencies : list string;
  md_SpotifyVersions : string
}.

Record ModuleIdentifier : Type := { mi_Author : Author; mi_Name : Name }.

Record StoreIdentifier : Type := {
  si_ModuleIdentifier : ModuleIdentifier;
  si_Version : Version
}.

Record GithubPathVersion : Type := {
  __type : string;
  commit : string;
  tag : string;
  branch : string
}.

Record VersionedGithubPath : Type := {
  owner : string;
  repo : string;
  version : GithubPathVersion;
  path : string
}.

Record MetadataURL : Type := { Local : URL; Remote : URL }.

(** The map object of a vault entry is named by the entry that owns it. *)
Abbreviation MapRef := (Author * Name)%type (only parsing).

(** The struct [ByVersions] as a value: [Metadatas] is a map reference,
    [None] the nil map. *)
Record ByVersions : Type := {
  Enabled : Version;
  Metadatas : option MapRef
}.

(** The object [*Vault] points to: the two outer maps, which the file only
    reads, and the [Metadatas] map objects, which it writes through the
    references held by struct copies. *)
Record Vault : Type := {
  Modules : gmap Author (gmap Name ByVersions);
  objects : gmap Author (gmap Name (gmap Version MetadataURL))
}.

(** The JSON document of the vault file: the value of its [modules] key.
    A [metadatas] key that is [null] or missing is [None]. *)
Record JByVersions : Type := {
  jEnabled : Version;
  jMetadatas : option (gmap Version MetadataURL)
}.
Abbreviation JVault := (gmap Author (gmap Name JByVersions)) (only parsing).

Inductive VaultFile : Type :=
  | NoFile                     (* the path does not exist *)
  | Garbled                    (* a file that is not a JSON vault *)
  | Document (j : JVault).

(** The file system: the vault file at [vaultPath], the symbolic links
    (link path to target) under [modulesFolder], and the paths that exist
    under [storeFolder].  The three are apart: no module path or store path
    is the vault path.  [vault_writes] counts the calls of [os.WriteFile]
    on the vault path, so that a file rewritten with the content it had
    differs from a file left alone. *)
Record World : Type := {
  vault_file : VaultFile;
  vault_writes : nat;
  links : gmap string string;
  store : gset string
}.

Record Response : Type := { StatusCode : nat; Body : string }.

(** The collaborators outside the file: the configuration, the Go
    libraries and the package [bespoke/archive], whose source is not part
    of what is modelled.

    - [http_Get] answers a transport error, or the response whatever its
      status.
    - [json_Decode_Metadata] is [json.Decoder.Decode] into a [Metadata].
    - [ListBranches] answers the branch names of owner/repo.
    - [regexp_compiles] tells whether a text is a valid pattern.
    - [archive_UnTarGZ body srcRe dest] extracts below [dest]: it is given
      the store and answers its error and the store it leaves, which may
      have changed also when it fails. *)
Record Env : Type := {
  ConfigPath : string;
  path_Join : list string -> string;
  filepath_Join : list string -> string;
  http_Get : URL -> error + Response;
  json_Decode_Metadata : string -> error + Metadata;
  ListBranches : string -> string -> error + list string;
  url_QueryUnescape : string -> error + string;
  regexp_compiles : string -> bool;
  archive_UnTarGZ :
    string -> string -> string -> gset string -> option error * gset string
}.

(** ** The state monad of the file-system effects *)

Definition M (A : Type) : Type := World -> outcome A * World.

Definition ret {A} (a : A) : M A := fun w => (Returns a, w).

Definition bind {A B} (m : M A) (k : A -> M B) : M B :=
  fun w =>
    match m w with
    | (Returns a, w') => k a w'
    | (Panics p, w') => (Panics p, w')
    end.

Definition lift {A} (o : outcome A) : M A := fun w => (o, w).

Definition obind {A B} (o : outcome A) (k : A -> outcome B) : outcome B :=
  match o with
  | Returns a => k a
  | Panics p => Panics p
  end.

Declare Scope go_scope.
Delimit Scope go_scope with go.
Notation "'let*' x ':=' e 'in' k" := (bind e (fun x => k))
  (at level 10, x name, e at level 100, k at level 200) : go_scope.
Notation "'let!' x ':=' e 'in' k" := (obind e (fun x => k))
  (at level 10, x name, e at level 100, k at level 200) : go_scope.
Open Scope go_scope.

(** ** Metadata accessors *)

(** [m.Authors[0]]. *)
Definition getAuthor (m : Metadata) : outcome string :=
  index (md_Authors m) 0.

Definition getModuleIdentifier (m : Metadata) : outcome ModuleIdentifier :=
  let! a := getAuthor m in
  Returns {| mi_Author := a; mi_Name := md_Name m |}.

Definition getStoreIdentifier (m : Metadata) : outcome StoreIdentifier :=
  let! mi := getModuleIdentifier m in
  Returns {| si_ModuleIdentifier := mi; si_Version := md_Version m |}.

(** ** Identifiers *)

(** [parts[0]] is the whole match and [parts[1]] the first group. *)
Definition NewModuleIdentifier (identifier : string)
    : outcome ModuleIdentifier :=
  let parts := default [] (FindStringSubmatch 2 moduleIdentifierRe identifier) in
  let! p0 := index parts 0 in
  let! p1 := index parts 1 in
  Returns {| mi_Author := p0; mi_Name := p1 |}.

Definition NewStoreIdentifier (identifier : string)
    : outcome StoreIdentifier :=
  let parts := default [] (FindStringSubmatch 2 storeIdentifierRe identifier) in
  let! p0 := index parts 0 in
  let! mi := NewModuleIdentifier p0 in
  let! p1 := index parts 1 in
  Returns {| si_ModuleIdentifier := mi; si_Version := p1 |}.

(** ** The archive link *)

Definition getRepoArchiveLink (ghp : VersionedGithubPath) : string :=
  let url := "https://github.com/" ++ owner ghp ++ "/" ++ repo ghp ++ "/archive/" in
  let url :=
    if String.eqb (__type (version ghp)) "commit" then
      url ++ commit (version ghp)
    else if String.eqb (__type (version ghp)) "tag" then
      url ++ "refs/tags/" ++ tag (version ghp)
    else if String.eqb (__type (version ghp)) "branch" then
      url ++ "refs/heads/" ++ branch (version ghp)
    else url in
  url ++ ".tar.gz".

(** ** Vault lookups and updates *)

Definition zero_ByVersions : ByVersions := {| Enabled := ""; Metadatas := None |}.
Definition zero_MetadataURL : MetadataURL := {| Local := ""; Remote := "" |}.
Definition zero_Vault : Vault := {| Modules := ∅; objects := ∅ |}.

(** The map object behind a reference. *)
Definition deref (v : Vault) (r : MapRef)
    : option (gmap Version MetadataURL) :=
  objects v !! r.1 ≫= (.!! r.2).

(** [m[k]] with the comma-ok form; reading a nil map finds nothing. *)
Definition map_get (v : Vault) (m : option MapRef) (k : Version)
    : MetadataURL * bool :=
  match m with
  | None => (zero_MetadataURL, false)
  | Some r =>
      match deref v r with
      | None => (zero_MetadataURL, false)
      | Some obj =>
          match obj !! k with
          | Some x => (x, true)
          | None => (zero_MetadataURL, false)
          end
      end
  end.

(** [m[k] = x]: the write lands in the shared map object; on a nil map it
    is a run-time panic. *)
Definition map_set (v : Vault) (m : option MapRef) (k : Version)
    (x : MetadataURL) : outcome Vault :=
  match m with
  | None => Panics NilMapAssignment
  | Some r =>
      Returns {| Modules := Modules v;
                 objects := alter (alter (insert k x) r.2) r.1 (objects v) |}
  end.

(** [delete(m, k)]: in the shared map object; a no-op on a nil map. *)
Definition map_delete (v : Vault) (m : option MapRef) (k : Version) : Vault :=
  match m with
  | None => v
  | Some r =>
      {| Modules := Modules v;
         objects := alter (alter (delete k) r.2) r.1 (objects v) |}
  end.

Definition getAllModuleVersions (v : Vault) (identifier : ModuleIdentifier)
    : ByVersions * bool :=
  match Modules v !! mi_Author identifier with
  | None => (zero_ByVersions, false)
  | Some names =>
      match names !! mi_Name identifier with
      | Some versions => (versions, true)
      | None => (zero_ByVersions, false)
      end
  end.

Definition getEnabledModule (v : Vault) (identifier : ModuleIdentifier)
    : MetadataURL * bool :=
  let '(versions, ok) := getAllModuleVersions v identifier in
  if negb ok then (zero_MetadataURL, false)
  else map_get v (Metadatas versions) (Enabled versions).

Definition getModule (v : Vault) (m : Metadata) : outcome (MetadataURL * bool) :=
  let! mi := getModuleIdentifier m in
  let '(versions, ok) := getAllModuleVersions v mi in
  if negb ok then Returns (zero_MetadataURL, false)
  else Returns (map_get v (Metadatas versions) (md_Version m)).

(** The receiver is a pointer: the vault after the call is returned along
    with the result. *)
Definition setModule (v : Vault) (m : Metadata) (module : MetadataURL)
    : outcome (bool * Vault) :=
  if Nat.eqb (String.length (md_Version m)) 0 then Returns (false, v)
  else
    let! mi := getModuleIdentifier m in
    let '(versions, ok) := getAllModuleVersions v mi in
    if negb ok then Returns (false, v)
    else
      let! v' := map_set v (Metadatas versions) (md_Version m) module in
      Returns (true, v').

(** ** Paths *)

Section Paths.
Context (env : Env).

Definition modulesFolder : string := filepath_Join env [ConfigPath env; "modules"].
Definition storeFolder : string := filepath_Join env [ConfigPath env; "store"].
Definition vaultPath : string := filepath_Join env [modulesFolder; "vault.json"].

Definition mi_toPath (mi : ModuleIdentifier) : string :=
  path_Join env [mi_Author mi; mi_Name mi].

Definition mi_toFilePath (mi : ModuleIdentifier) : string :=
  filepath_Join env [modulesFolder; mi_Author mi; mi_Name mi].

Definition si_toPath (si : StoreIdentifier) : string :=
  filepath_Join env
    [mi_Author (si_ModuleIdentifier si); mi_Name (si_ModuleIdentifier si);
     si_Version si].

Definition si_toFilePath (si : StoreIdentifier) : string :=
  filepath_Join env
    [storeFolder; mi_Author (si_ModuleIdentifier si);
     mi_Name (si_ModuleIdentifier si); si_Version si].
End Paths.

(** ** The vault file *)

(** [json.Decoder.Decode] into a fresh [Vault]: one map object per entry
    whose [metadatas] is not null. *)
Definition decode_ByVersions (a : Author) (n : Name) (jbv : JByVersions)
    : ByVersions :=
  {| Enabled := jEnabled jbv;
     Metadatas := match jMetadatas jbv with
                  | Some _ => Some (a, n)
                  | None => None
                  end |}.

Definition decode (j : JVault) : Vault :=
  {| Modules :=
       map_imap (fun a (names : gmap Name JByVersions) =>
                   Some (map_imap (fun n jbv => Some (decode_ByVersions a n jbv))
                           names)) j;
     objects :=
       fmap (fun names : gmap Name JByVersions => omap jMetadatas names) j |}.

(** [json.Marshal]: every entry with the contents of the map object its
    reference leads to. *)
Definition encode_ByVersions (v : Vault) (bv : ByVersions) : JByVersions :=
  {| jEnabled := Enabled bv;
     jMetadatas := match Metadatas bv with
                   | Some r => deref v r
                   | None => None
                   end |}.

Definition encode (v : Vault) : JVault :=
  fmap (fun names : gmap Name ByVersions => fmap (encode_ByVersions v) names)
    (Modules v).

Definition write_vault_file (j : JVault) (w : World) : World :=
  {| vault_file := Document j; vault_writes := S (vault_writes w);
     links := links w; store := store w |}.

(** What a change of one map object is on the document. *)
Definition on_metadatas
    (f : gmap Version MetadataURL -> gmap Version MetadataURL)
    (jbv : JByVersions) : JByVersions :=
  {| jEnabled := jEnabled jbv; jMetadatas := f <$> jMetadatas jbv |}.

Definition with_links (l : gmap string string) (w : World) : World :=
  {| vault_file := vault_file w; vault_writes := vault_writes w;
     links := l; store := store w |}.
Definition with_store (s : gset string) (w : World) : World :=
  {| vault_file := vault_file w; vault_writes := vault_writes w;
     links := links w; store := s |}.

(** [q] is [p] or lies below it. *)
Definition under (p q : string) : bool :=
  String.eqb p q || has_prefix (p ++ "/") q.

Section Operations.
Context (env : Env).

(** *** Package [os] on the modelled file system *)

(** [os.Symlink(oldname, newname)]: fails when [newname] exists.  The
    directory that is to hold the link is taken to exist. *)
Definition os_Symlink (oldname newname : string) : M (option error) :=
  fun w =>
    match links w !! newname with
    | Some _ => (Returns (Some (os_PathError "symlink" newname)), w)
    | None => (Returns None, with_links (<[newname := oldname]> (links w)) w)
    end.

(** [os.Remove(name)]. *)
Definition os_Remove (name : string) : M (option error) :=
  fun w =>
    match links w !! name with
    | Some _ => (Returns None, with_links (delete name (links w)) w)
    | None => (Returns (Some (os_PathError "remove" name)), w)
    end.

(** [os.RemoveAll(path)]: nil also when nothing is there.  The path is
    a join under [storeFolder], never the empty path. *)
Definition os_RemoveAll (p : string) : M (option error) :=
  fun w =>
    (Returns None,
     with_store (filter (fun q => under p q = false) (store w)) w).

(** The error of [os.Symlink] is dropped. *)
Definition createSymlink (identifier : StoreIdentifier) : M unit :=
  let* _ := os_Symlink (si_toFilePath env identifier)
              (mi_toFilePath env (si_ModuleIdentifier identifier)) in
  ret tt.

(** The error of [os.Remove] is dropped. *)
Definition destroySymlink (identifier : ModuleIdentifier) : M unit :=
  let* _ := os_Remove (mi_toFilePath env identifier) in
  ret tt.

(** Unused by the file's other functions; here too [versions] is the
    copy, and the assignment to its [Enabled] is not seen by the vault. *)
Definition setEnabledModule (v : Vault) (identifier : StoreIdentifier)
    : M bool :=
  let '(versions, ok) :=
    getAllModuleVersions v (si_ModuleIdentifier identifier) in
  if negb ok then ret false
  else
    let versions :=
      {| Enabled := si_Version identifier; Metadatas := Metadatas versions |} in
    let* _ :=
      (if Nat.eqb (String.length (Enabled versions)) 0 then
         destroySymlink (si_ModuleIdentifier identifier)
       else createSymlink identifier) in
    ret true.

(** *** Load, save, mutate *)

(** [os.Open]: the one file the package opens is the vault file. *)
Definition os_Open (name : string) : M (VaultFile * option error) :=
  fun w =>
    match vault_file w with
    | NoFile => (Returns (NoFile, Some (os_PathError "open" name)), w)
    | f => (Returns (f, None), w)
    end.

(** [json.Decoder.Decode] into a [Vault]. *)
Definition json_Decode_Vault (f : VaultFile) : Vault * option error :=
  match f with
  | Document j => (decode j, None)
  | _ => (zero_Vault, Some json_SyntaxError)
  end.

Definition GetVault : M (Vault * option error) :=
  let* r := os_Open (vaultPath env) in
  match r.2 with
  | Some err => ret (zero_Vault, Some err)
  | None => ret (json_Decode_Vault r.1)
  end.

(** [json.Marshal] of a [Vault]: the document, and no error on this
    type. *)
Definition json_Marshal (vault : Vault) : JVault * option error :=
  (encode vault, None).

(** [os.MkdirAll]: directories are not part of the modelled file system. *)
Definition os_MkdirAll (p : string) : M (option error) := ret None.

(** [os.WriteFile]: the one file the package writes is the vault file. *)
Definition os_WriteFile (name : string) (data : JVault) : M (option error) :=
  fun w => (Returns None, write_vault_file data w).

(** The error of [os.MkdirAll] is dropped. *)
Definition SetVault (vault : Vault) : M (option error) :=
  let '(vaultJson, err) := json_Marshal vault in
  match err with
  | Some err => ret (Some err)
  | None =>
      let* _ := os_MkdirAll (modulesFolder env) in
      os_WriteFile (vaultPath env) vaultJson
  end.

Definition MutateVault (mutate : Vault -> M (bool * Vault))
    : M (option error) :=
  let* r := GetVault in
  match r.2 with
  | Some err => ret (Some err)
  | None =>
      let* r' := mutate r.1 in
      if negb r'.1 then ret (Some (errors_New "failed to mutate vault"))
      else SetVault r'.2
  end.

(** *** Metadata *)

Definition zero_Metadata : Metadata :=
  {| md_Name := ""; md_Version := ""; md_Authors := [];
     md_Description := ""; md_Tags := [];
     md_Entries := {| Js := ""; Css := ""; Mixin := "" |};
     md_Dependencies := []; md_SpotifyVersions := "" |}.

Definition parseMetadata (r : string) : Metadata * option error :=
  match json_Decode_Metadata env r with
  | inl err => (zero_Metadata, Some err)
  | inr metadata => (metadata, None)
  end.

(** The status of the response is not looked at. *)
Definition fetchRemoteMetadata (metadataURL : URL) : Metadata * option error :=
  match http_Get env metadataURL with
  | inl err => (zero_Metadata, Some err)
  | inr res => parseMetadata (Body res)
  end.

(** *** The resolver *)

Definition zero_GithubPathVersion : GithubPathVersion :=
  {| __type := ""; commit := ""; tag := ""; branch := "" |}.
Definition zero_VersionedGithubPath : VersionedGithubPath :=
  {| owner := ""; repo := ""; version := zero_GithubPathVersion; path := "" |}.

(** The branches are listed before the reference is looked at. *)
Definition parseGithubRawLink (metadataURL : URL)
    : outcome (VersionedGithubPath * option error) :=
  match FindStringSubmatch 5 githubRawRe metadataURL with
  | None =>
      Returns (zero_VersionedGithubPath,
               Some (errors_New "URL cannot be parsed"))
  | Some submatches =>
      let! owner := index submatches 1 in
      let! repo := index submatches 2 in
      let! v := index submatches 3 in
      let! path := index submatches 4 in
      match ListBranches env owner repo with
      | inl err => Returns (zero_VersionedGithubPath, Some err)
      | inr branchNames =>
          if Nat.eqb (String.length v) 40 then
            Returns ({| owner := owner; repo := repo;
                        version := {| __type := "commit"; commit := v;
                                      tag := ""; branch := "" |};
                        path := path |}, None)
          else if existsb (String.eqb v) branchNames then
            Returns ({| owner := owner; repo := repo;
                        version := {| __type := "branch"; commit := "";
                                      tag := ""; branch := v |};
                        path := path |}, None)
          else
            match url_QueryUnescape env v with
            | inl err => Returns (zero_VersionedGithubPath, Some err)
            | inr tag =>
                Returns ({| owner := owner; repo := repo;
                            version := {| __type := "tag"; commit := "";
                                          tag := tag; branch := "" |};
                            path := path |}, None)
            end
      end
  end.

(** *** The installer *)

(** [regexp.MustCompile] on a pattern built at run time. *)
Definition regexp_MustCompile (pattern : string) : outcome string :=
  if regexp_compiles env pattern then Returns pattern
  else Panics (RegexpCompile pattern).

Definition UnTarGZ (body srcRe dest : string) : M (option error) :=
  fun w =>
    let '(err, st) := archive_UnTarGZ env body srcRe dest (store w) in
    (Returns err, with_store st w).

(** Only the error of [http.Get] is tested; the body of whatever
    response came back goes to the extractor. *)
Definition downloadModuleInStore (metadataURL : URL)
    (storeIdentifier : StoreIdentifier) : M (option error) :=
  let* r := lift (parseGithubRawLink metadataURL) in
  match r.2 with
  | Some err => ret (Some err)
  | None =>
      let githubPath := r.1 in
      match http_Get env (getRepoArchiveLink githubPath) with
      | inl err => ret (Some err)
      | inr res =>
          let* srcRe :=
            lift (regexp_MustCompile ("^[^/]+/" ++ path githubPath ++ "(.*)")) in
          UnTarGZ (Body res) srcRe (si_toFilePath env storeIdentifier)
      end
  end.

Definition deleteModuleInStore (identifier : StoreIdentifier)
    : M (option error) :=
  os_RemoveAll (si_toFilePath env identifier).

(** *** The lifecycle *)

Definition AddModuleInVault (metadata : Metadata) (module : MetadataURL)
    : M (option error) :=
  MutateVault (fun vault => lift (setModule vault metadata module)).

Definition with_Enabled (e : Version) (bv : ByVersions) : ByVersions :=
  {| Enabled := e; Metadatas := Metadatas bv |}.

(** [modules] is the copy [getAllModuleVersions] returned: the
    assignments to [modules.Enabled] change the copy, and [SetVault] is
    given [vault]. *)
Definition ToggleModuleInVault (identifier : StoreIdentifier)
    (enabled : bool) : M (option error) :=
  let* r := GetVault in
  match r.2 with
  | Some err => ret (Some err)
  | None =>
      let vault := r.1 in
      let '(modules, ok) :=
        getAllModuleVersions vault (si_ModuleIdentifier identifier) in
      if negb ok then
        ret (Some (errors_New ("no modules with identifier "
                                 ++ si_toPath env identifier)))
      else if enabled then
        let modules := with_Enabled (si_Version identifier) modules in
        let* _ := createSymlink identifier in
        SetVault vault
      else if String.eqb (Enabled modules) (si_Version identifier) then
        let modules := with_Enabled "" modules in
        let* _ := destroySymlink (si_ModuleIdentifier identifier) in
        SetVault vault
      else ret None
  end.

(** Here too [modules] is a copy; [delete] goes through the shared map. *)
Definition RemoveModuleInVault (identifier : StoreIdentifier)
    : M (option error) :=
  MutateVault (fun vault =>
    let '(modules, ok) :=
      getAllModuleVersions vault (si_ModuleIdentifier identifier) in
    if negb ok then ret (false, vault)
    else
      let* modules :=
        (if String.eqb (Enabled modules) (si_Version identifier) then
           let modules := with_Enabled "" modules in
           let* _ := destroySymlink (si_ModuleIdentifier identifier) in
           ret modules
         else ret modules) in
      let vault := map_delete vault (Metadatas modules) (si_Version identifier) in
      ret (true, vault)).

Definition InstallModuleMURL (metadataURL : URL) : M (option error) :=
  let '(metadata, err) := fetchRemoteMetadata metadataURL in
  match err with
  | Some err => ret (Some err)
  | None =>
      let* storeIdentifier := lift (getStoreIdentifier metadata) in
      let* err := downloadModuleInStore metadataURL storeIdentifier in
      match err with
      | Some err => ret (Some err)
      | None =>
          let* moduleIdentifier := lift (getModuleIdentifier metadata) in
          AddModuleInVault metadata
            {| Local := "/modules/" ++ mi_toPath env moduleIdentifier
                          ++ "/metadata.json";
               Remote := metadataURL |}
      end
  end.

Definition DeleteModule (identifier : StoreIdentifier) : M (option error) :=
  let* err := RemoveModuleInVault identifier in
  match err with
  | Some err => ret (Some err)
  | None => deleteModuleInStore identifier
  end.

End Operations.

(** ** The shape of a raw link

    The link to the file [file] of the directory [dir] (empty, or a path
    with its closing slash) at the reference [ref] of [owner]/[repo]. *)
Definition raw_link (owner repo ref dir file : string) : URL :=
  "https://raw.githubusercontent.com/"
  ++ owner ++ String slash (repo ++ String slash (ref ++ String slash (dir ++ file))).

(** ** The shapes of the identifier texts

    [strings.Split(s, "/")]: the segments between the slashes. *)
Fixpoint segments (s : string) : list string :=
  match s with
  | EmptyString => [""]
  | String a s' =>
      if byte_eqb a slash then "" :: segments s'
      else match segments s' with
           | seg :: rest => String a seg :: rest
           | [] => [String a ""]
           end
  end.

Definition nonempty (s : string) : bool := negb (String.eqb s "").

(** Exactly two segments, both non-empty: [<author>/<name>]. *)
Definition is_module_shape (s : string) : bool :=
  match segments s with
  | [a; n] => nonempty a && nonempty n
  | _ => false
  end.

(** Three segments, the last possibly empty: [<author>/<name>/<version>]. *)
Definition is_store_shape (s : string) : bool :=
  match segments s with
  | [a; n; _] => nonempty a && nonempty n
  | _ => false
  end.

(** ** Invariant I1 on the persisted vault

    [Enabled] is empty or a key of the version mapping. *)
Definition I1_entry (bv : JByVersions) : bool :=
  String.eqb (jEnabled bv) ""
  || match jMetadatas bv with
     | Some m => bool_decide (is_Some (m !! jEnabled bv))
     | None => false
     end.

Definition I1 (f : VaultFile) : Prop :=
  match f with
  | Document j =>
      map_Forall (fun _ (names : gmap Name JByVersions) =>
                    map_Forall (fun _ bv => I1_entry bv = true) names) j
  | _ => True
  end.

(** The entry of a module in the vault file. *)
Definition persisted (f : VaultFile) (mi : ModuleIdentifier)
    : option JByVersions :=
  match f with
  | Document j =>
      match j !! mi_Author mi with
      | Some names => names !! mi_Name mi
      | None => None
      end
  | _ => None
  end.

(** The record of a version in the vault file. *)
Definition persisted_record (f : VaultFile) (si : StoreIdentifier)
    : option MetadataURL :=
  match persisted f (si_ModuleIdentifier si) with
  | Some jbv =>
      match jMetadatas jbv with
      | Some m => m !! si_Version si
      | None => None
      end
  | None => None
  end.

(** ** Runs of operations, one process each *)

Inductive operation : Type :=
  | Install (metadataURL : URL)
  | Toggle (identifier : StoreIdentifier) (enabled : bool)
  | Remove (identifier : StoreIdentifier).

Definition perform (env : Env) (o : operation) : M (option error) :=
  match o with
  | Install metadataURL => InstallModuleMURL env metadataURL
  | Toggle identifier enabled => ToggleModuleInVault env identifier enabled
  | Remove identifier => DeleteModule env identifier
  end.

(** The file system after the operations, whatever each returned. *)
Fixpoint perform_all (env : Env) (os : list operation) (w : World) : World :=
  match os with
  | [] => w
  | o :: os' => perform_all env os' (perform env o w).2
  end.

(** The error with which [GetVault] answers a vault file, if any. *)
Definition load_error (env : Env) (f : VaultFile) : option error :=
  match f with
  | NoFile => Some (os_PathError "open" (vaultPath env))
  | Garbled => Some json_SyntaxError
  | Document _ => None
  end.

(** The error of [MutateVault] when the mutation is refused or cannot be
    tried. *)
Definition refusal (env : Env) (f : VaultFile) : error :=
  default (errors_New "failed to mutate vault") (load_error env f).

(** ** The three stages of the installer that can report an error

    [archive_failure env url sid w e w']: started in [w], the resolution of
    the archive, its download or its extraction reports [e], leaving [w']. *)
Inductive archive_failure (env : Env) (metadataURL : URL)
    (sid : StoreIdentifier) (w : World) : error -> World -> Prop :=
  | resolution_fails gp e :
      parseGithubRawLink env metadataURL = Returns (gp, Some e) ->
      archive_failure env metadataURL sid w e w
  | download_fails gp e :
      parseGithubRawLink env metadataURL = Returns (gp, None) ->
      http_Get env (getRepoArchiveLink gp) = inl e ->
      archive_failure env metadataURL sid w e w
  | extraction_fails gp res e st :
      parseGithubRawLink env metadataURL = Returns (gp, None) ->
      http_Get env (getRepoArchiveLink gp) = inr res ->
      regexp_compiles env ("^[^/]+/" ++ path gp ++ "(.*)") = true ->
      archive_UnTarGZ env (Body res) ("^[^/]+/" ++ path gp ++ "(.*)")
        (si_toFilePath env sid) (store w) = (Some e, st) ->
      archive_failure env metadataURL sid w e (with_store st w).

(** ** A concrete environment and file system, for running the operations *)
Module Sample.

(** Join: the empty elements are dropped and the others put together
    with a separator.  The elements used here are free of [.], [..] and
    doubled or trailing separators, so that [Clean] changes nothing. *)
Fixpoint join (elems : list string) : string :=
  match elems with
  | [] => ""
  | e :: rest =>
      if String.eqb e "" then join rest
      else match join rest with
           | EmptyString => e
           | String _ _ as t => e ++ "/" ++ t
           end
  end.

Definition metadata (authors : list string) (version : string) : Metadata :=
  {| md_Name := "widgets"; md_Version := version; md_Authors := authors;
     md_Description := ""; md_Tags := [];
     md_Entries := {| Js := ""; Css := ""; Mixin := "" |};
     md_Dependencies := []; md_SpotifyVersions := "" |}.

(** A raw link whose reference is forty hexadecimal digits. *)
Definition murl : URL :=
  "https://raw.githubusercontent.com/acme/widgets/0123456789abcdef0123456789abcdef01234567/modules/foo/metadata.json".

(** Every request is answered with status [status] and the same body;
    a metadata body decodes to [md]; the branch listing answers
    [branches]; extraction reports [untar], having created the
    destination directory. *)
Definition env (status : nat) (md : Metadata)
    (branches : error + list string) (untar : option error) : Env :=
  {| ConfigPath := "/cfg";
     path_Join := join;
     filepath_Join := join;
     http_Get := fun _ => inr {| StatusCode := status; Body := "body" |};
     json_Decode_Metadata := fun _ => inr md;
     ListBranches := fun _ _ => branches;
     url_QueryUnescape := fun s => inr s;
     regexp_compiles := fun _ => true;
     archive_UnTarGZ := fun _ _ dest st => (untar, {[ dest ]} ∪ st) |}.

Definition online : Env :=
  env 200 (metadata ["acme"] "1.0.0") (inr ["main"]) None.

(** The branch listing cannot be reached. *)
Definition offline : Env :=
  env 200 (metadata ["acme"] "1.0.0") (inl (net_Error "dial tcp")) None.

(** The archive request is answered [404 Not Found]. *)
Definition not_found : Env :=
  env 404 (metadata ["acme"] "1.0.0") (inr ["main"]) None.

(** The archive is cut short. *)
Definition truncated : Env :=
  env 200 (metadata ["acme"] "1.0.0") (inr ["main"])
    (Some (archive_Error "unexpected EOF")).

(** The metadata document lists no author. *)
Definition no_author : Env :=
  env 200 (metadata [] "1.0.0") (inr ["main"]) None.

(** The metadata document has an empty version. *)
Definition no_version : Env :=
  env 200 (metadata ["acme"] "") (inr ["main"]) None.

Definition record : MetadataURL :=
  {| Local := "/modules/acme/widgets/metadata.json"; Remote := murl |}.

(** acme/widgets with the versions 1.0.0 and 2.0.0, [enabled] as given. *)
Definition two_versions (enabled : Version) : JVault :=
  {[ "acme" := {[ "widgets" :=
       {| jEnabled := enabled;
          jMetadatas := Some {[ "1.0.0" := record; "2.0.0" := record ]} |} ]} ]}.

Definition acme_widgets : ModuleIdentifier :=
  {| mi_Author := "acme"; mi_Name := "widgets" |}.

Definition id (v : Version) : StoreIdentifier :=
  {| si_ModuleIdentifier := acme_widgets; si_Version := v |}.

Definition world (f : VaultFile) (l : gmap string string) : World :=
  {| vault_file := f; vault_writes := 0; links := l; store := ∅ |}.

(** The link of acme/widgets points at the store path of [v]. *)
Definition linked (v : Version) : gmap string string :=
  {[ "/cfg/modules/acme/widgets" := "/cfg/store/acme/widgets/" ++ v ]}.
End Sample.

(** ** Further definitions: the rest of the package and its callers *)

(** What [githubRawRe_tail] has left to match once the directory is read:
    [/? (?<basename> [^/] )+ $]. *)
Definition githubRawRe_basename : regex :=
  Seq (Quest (Byte slash))
   (Seq (Plus (Group 5 (NotByte slash)))
    EndText).

(** Identifiers compare by their fields, as Go's [==] on the structs. *)
#[global] Instance ModuleIdentifier_eq_dec : EqDecision ModuleIdentifier.
Proof. solve_decision. Defined.

#[global] Instance StoreIdentifier_eq_dec : EqDecision StoreIdentifier.
Proof. solve_decision. Defined.

(** [strings.Contains(s, p)]. *)
Fixpoint has_infix (p s : string) : bool :=
  has_prefix p s
  || match s with
     | EmptyString => false
     | String _ s' => has_infix p s'
     end.

(** *** Package [cmd]: the commands of [pkg]

    Each [Run] function takes the arguments of the command line, of which
    [cobra.ExactArgs(1)] has checked that there is one.  The result
    [Some err] is the error the function hands to [log.Fatalln]. *)
Module Cmd.

Section Pkg.
Context (env : Env).

Definition pkgInstallCmd_Run (args : list string) : M (option error) :=
  let* metadataURL := lift (index args 0) in
  InstallModuleMURL env metadataURL.

Definition pkgDeleteCmd_Run (args : list string) : M (option error) :=
  let* arg := lift (index args 0) in
  let* identifier := lift (NewStoreIdentifier arg) in
  DeleteModule env identifier.

Definition pkgEnableCmd_Run (args : list string) : M (option error) :=
  let* arg := lift (index args 0) in
  let* identifier := lift (NewStoreIdentifier arg) in
  ToggleModuleInVault env identifier true.

Definition pkgDisableCmd_Run (args : list string) : M (option error) :=
  let* arg := lift (index args 0) in
  let* identifier := lift (NewStoreIdentifier arg) in
  ToggleModuleInVault env identifier false.
End Pkg.

(** *** Package [cmd]: the protocol handler *)

Definition colon : ascii := ":"%char.

(** The pattern of [HandleProtocol], its pieces set apart by blanks:
    [bespoke: (?<action> [^:]+ ) ( : (?<args> .* ) )?].  It has neither
    [^] nor [$]; the groups are numbered 1, 2 and 3. *)
Definition protocolRe : regex :=
  Seq (Lit "bespoke:")
   (Seq (Group 1 (Plus (NotByte colon)))
    (Quest (Group 2 (Seq (Byte colon) (Group 3 (Star true AnyByte)))))).

(** The functions of package [module] that the handler calls take the
    text of the message; they and the error value of package [errors] are
    not among the sources and are parameters. *)
Section Protocol.
Context (module_AddModuleMURL : string -> M (option error)).
Context (module_RemoveModule : string -> M (option error)).
Context (module_ToggleModuleInVault : string -> bool -> M (option error)).
Context (e_ErrUnsupportedOperation : error).

Definition HandleProtocol (message : string) : M (option error) :=
  let submatches := default [] (FindStringSubmatch 3 protocolRe message) in
  if Nat.eqb (length submatches) 0 then
    ret (Some (errors_New "malformed uri"))
  else
    let* action := lift (index submatches 1) in
    let* arguments := lift (index submatches 3) in
    if String.eqb action "add" then module_AddModuleMURL arguments
    else if String.eqb action "remove" then module_RemoveModule arguments
    else if String.eqb action "enable" then
      module_ToggleModuleInVault arguments true
    else if String.eqb action "disable" then
      module_ToggleModuleInVault arguments false
    else ret (Some e_ErrUnsupportedOperation).
End Protocol.

End Cmd.

(** *** The later variant of [module.go]

    Its [ToggleModuleInVault] has no [enabled] flag: an empty version
    disables.  [createSymlink] and [destroySymlink] return the error of
    the system call.  The records this variant keeps in the vault are of
    another type ([Store]); its toggle never looks at a record and is
    modelled on the vault of the first variant. *)
Module Later.

Section Toggle.
Context (env : Env).

Definition createSymlink (identifier : StoreIdentifier) : M (option error) :=
  os_Symlink (si_toFilePath env identifier)
    (mi_toFilePath env (si_ModuleIdentifier identifier)).

Definition destroySymlink (identifier : ModuleIdentifier) : M (option error) :=
  os_Remove (mi_toFilePath env identifier).

(** Here too [modules] is the copy, and [SetVault] is given [vault]. *)
Definition ToggleModuleInVault (identifier : StoreIdentifier)
    : M (option error) :=
  let* r := GetVault env in
  match r.2 with
  | Some err => ret (Some err)
  | None =>
      let vault := r.1 in
      let '(modules, ok) :=
        getAllModuleVersions vault (si_ModuleIdentifier identifier) in
      if negb ok then
        ret (Some (errors_New ("no modules with identifier "
                                 ++ si_toPath env identifier)))
      else if String.eqb (Enabled modules) (si_Version identifier) then
        ret None
      else
        let modules := with_Enabled (si_Version identifier) modules in
        let* _ := destroySymlink (si_ModuleIdentifier identifier) in
        let* err :=
          (if Nat.ltb 0 (String.length (Enabled modules)) then
             createSymlink identifier
           else ret None) in
        match err with
        | Some err => ret (Some err)
        | None => SetVault env vault
        end
  end.
End Toggle.

End Later.

(** *** More sample data *)
Module Cases.

(** acme/widgets known to the vault, with a [metadatas] that is null. *)
Definition nil_map : JVault :=
  {[ "acme" := {[ "widgets" := {| jEnabled := ""; jMetadatas := None |} ]} ]}.

(** The version 3.0.0 of acme/widgets is offered. *)
Definition offers_3 : Env :=
  Sample.env 200 (Sample.metadata ["acme"] "3.0.0") (inr ["main"]) None.

(** No request is answered. *)
Definition unreachable : Env :=
  {| ConfigPath := "/cfg";
     path_Join := Sample.join;
     filepath_Join := Sample.join;
     http_Get := fun _ => inl (net_Error "dial tcp");
     json_Decode_Metadata := fun _ => inl json_SyntaxError;
     ListBranches := fun _ _ => inl (net_Error "dial tcp");
     url_QueryUnescape := fun s => inr s;
     regexp_compiles := fun _ => true;
     archive_UnTarGZ := fun _ _ dest st => (None, {[ dest ]} ∪ st) |}.

(** Raw links of acme/widgets at a branch and at a tag. *)
Definition at_main : URL :=
  raw_link "acme" "widgets" "main" "modules/foo/" "metadata.json".
Definition at_tag : URL :=
  raw_link "acme" "widgets" "v1.2.0" "modules/foo/" "metadata.json".

(** Handlers that answer with an error naming the call. *)
Definition add (a : string) : M (option error) :=
  ret (Some (errors_New ("add " ++ a))).
Definition remove (a : string) : M (option error) :=
  ret (Some (errors_New ("remove " ++ a))).
Definition toggle (a : string) (b : bool) : M (option error) :=
  ret (Some (errors_New ((if b then "enable " else "disable ") ++ a))).
Definition unsupported : error := errors_New "unsupported operation".

End Cases.

(** * Properties *)

(** ** Byte strings *)

Lemma byte_eqb_eq (a b : ascii) : byte_eqb a b = true <-> a = b.
Proof. apply Ascii.eqb_eq. Qed.

Lemma byte_eqb_neq (a b : ascii) : byte_eqb a b = false <-> a <> b.
Proof. apply Ascii.eqb_neq. Qed.

Lemma byte_eqb_refl a : byte_eqb a a = true.
Proof. apply Ascii.eqb_refl. Qed.

Lemma append_nil (t : string) : "" ++ t = t.
Proof. reflexivity. Qed.

Lemma append_cons a (s t : string) : String a s ++ t = String a (s ++ t).
Proof. reflexivity. Qed.

Lemma append_empty_r (s : string) : s ++ "" = s.
Proof. induction s; rewrite ?append_cons, ?append_nil; congruence. Qed.

Lemma length_append (s t : string) :
  String.length (s ++ t) = String.length s + String.length t.
Proof. induction s; rewrite ?append_cons, ?append_nil; simpl; congruence. Qed.

Lemma take_s_all (s : string) : take_s (String.length s) s = s.
Proof. induction s; simpl; congruence. Qed.

Lemma take_s_append (w rest : string) :
  take_s (String.length w) (w ++ rest) = w.
Proof.
  induction w as [|a w IH]; [destruct rest; reflexivity|].
  rewrite append_cons. simpl. rewrite IH. reflexivity.
Qed.

(** ** The matcher finds only what the pattern can consume *)

Lemma frame_refl r cs : frame r cs cs.
Proof. intros i _. reflexivity. Qed.

Section RunSound.
Variable r : regex.
Variable step : nat -> string -> captures -> cont -> option captures.
Hypothesis step_sound :
  forall pos s cs k res,
    step pos s cs k = Some res ->
    exists pos1 s1 cs1,
      matches r pos s pos1 s1 /\ frame r cs cs1 /\ k pos1 s1 cs1 = Some res.

Lemma star_loop_sound g k fuel :
  forall pos s cs res,
    star_loop step g k fuel pos s cs = Some res ->
    exists pos' s' cs',
      matches (Star g r) pos s pos' s' /\ frame (Star g r) cs cs'
      /\ k pos' s' cs' = Some res.
Proof.
  induction fuel as [|fuel IH]; intros pos s cs res; simpl.
  - intros Hk. exists pos, s, cs.
    split; [constructor | split; [apply frame_refl | exact Hk]].
  - assert (Hagain :
      step pos s cs
        (fun pos' s' cs' =>
           if Nat.ltb pos pos' then star_loop step g k fuel pos' s' cs'
           else None) = Some res ->
      exists pos' s' cs',
        matches (Star g r) pos s pos' s' /\ frame (Star g r) cs cs'
        /\ k pos' s' cs' = Some res).
    { intros Hs.
      apply step_sound in Hs as (pos1 & s1 & cs1 & Hm & Hfr & Hrest).
      destruct (Nat.ltb pos pos1); [|discriminate].
      apply IH in Hrest as (pos' & s' & cs' & Hm' & Hfr' & Hk).
      exists pos', s', cs'. split; [|split; [|exact Hk]].
      - eapply m_Star_more; eassumption.
      - intros i Hi. rewrite (Hfr' i Hi). apply Hfr. exact Hi. }
    assert (Hstop :
      k pos s cs = Some res ->
      exists pos' s' cs',
        matches (Star g r) pos s pos' s' /\ frame (Star g r) cs cs'
        /\ k pos' s' cs' = Some res).
    { intros Hk. exists pos, s, cs.
      split; [constructor | split; [apply frame_refl | exact Hk]]. }
    destruct g.
    + destruct (step pos s cs _) eqn:E.
      * intros [= <-]. apply Hagain. reflexivity.
      * exact Hstop.
    + destruct (k pos s cs) eqn:E.
      * intros [= <-]. apply Hstop. reflexivity.
      * exact Hagain.
Qed.
End RunSound.

(** Whatever [run] answers was answered by the continuation, called where
    the pattern can stop and with the groups outside the pattern as they
    were. *)
Lemma run_sound (r : regex) :
  forall pos s cs k res,
    run r pos s cs k = Some res ->
    exists pos' s' cs',
      matches r pos s pos' s' /\ frame r cs cs' /\ k pos' s' cs' = Some res.
Proof.
  induction r as [|c|c| |r1 IH1 r2 IH2|r1 IH1 r2 IH2|g r IH|i r IH| |];
    intros pos s cs k res; simpl.
  - intros H. exists pos, s, cs.
    split; [constructor | split; [apply frame_refl | exact H]].
  - destruct s as [|a s]; [discriminate|].
    destruct (byte_eqb a c) eqn:E; [|discriminate].
    apply byte_eqb_eq in E as ->. intros H.
    exists (S pos), s, cs.
    split; [constructor | split; [apply frame_refl | exact H]].
  - destruct s as [|a s]; [discriminate|].
    destruct (byte_eqb a c) eqn:E; [discriminate|].
    apply byte_eqb_neq in E. intros H.
    exists (S pos), s, cs.
    split; [constructor; exact E | split; [apply frame_refl | exact H]].
  - destruct s as [|a s]; [discriminate|].
    destruct (byte_eqb a newline) eqn:E; [discriminate|].
    apply byte_eqb_neq in E. intros H.
    exists (S pos), s, cs.
    split; [constructor; exact E | split; [apply frame_refl | exact H]].
  - intros H. apply IH1 in H as (pos1 & s1 & cs1 & Hm1 & Hf1 & H).
    apply IH2 in H as (pos2 & s2 & cs2 & Hm2 & Hf2 & H).
    exists pos2, s2, cs2. split; [econstructor; eassumption|].
    split; [|exact H].
    intros i Hi. simpl in Hi. apply orb_false_iff in Hi as [Hi1 Hi2].
    rewrite (Hf2 i Hi2). apply Hf1. exact Hi1.
  - destruct (run r1 pos s cs k) eqn:E.
    + intros [= <-]. apply IH1 in E as (pos' & s' & cs' & Hm & Hf & H).
      exists pos', s', cs'. split; [apply m_Alt_l; exact Hm|].
      split; [|exact H].
      intros i Hi. simpl in Hi. apply orb_false_iff in Hi as [Hi1 _]. auto.
    + intros H. apply IH2 in H as (pos' & s' & cs' & Hm & Hf & H).
      exists pos', s', cs'. split; [apply m_Alt_r; exact Hm|].
      split; [|exact H].
      intros i Hi. simpl in Hi. apply orb_false_iff in Hi as [_ Hi2]. auto.
  - intros H. apply (star_loop_sound r (run r) IH) in H.
    exact H.
  - intros H. apply IH in H as (pos' & s' & cs' & Hm & Hf & H).
    eexists pos', s', _. split; [constructor; exact Hm|].
    split; [|exact H].
    intros j Hj. simpl in Hj. apply orb_false_iff in Hj as [Hne Hj].
    simpl. rewrite Hne. apply Hf. exact Hj.
  - destruct (Nat.eqb pos 0) eqn:E; [|discriminate].
    apply Nat.eqb_eq in E as ->. intros H.
    exists 0, s, cs.
    split; [constructor | split; [apply frame_refl | exact H]].
  - destruct s; [|discriminate]. intros H.
    exists pos, "", cs.
    split; [constructor | split; [apply frame_refl | exact H]].
Qed.

Lemma matches_Seq_inv r1 r2 pos s pos2 s2 :
  matches (Seq r1 r2) pos s pos2 s2 ->
  exists pos1 s1, matches r1 pos s pos1 s1 /\ matches r2 pos1 s1 pos2 s2.
Proof. inversion 1; subst; eauto. Qed.

Lemma matches_Group_inv i r pos s pos' s' :
  matches (Group i r) pos s pos' s' -> matches r pos s pos' s'.
Proof. inversion 1; subst; assumption. Qed.

Lemma matches_Byte_inv c pos s pos' s' :
  matches (Byte c) pos s pos' s' -> s = String c s' /\ pos' = S pos.
Proof. inversion 1; subst; auto. Qed.

Lemma matches_NotByte_inv c pos s pos' s' :
  matches (NotByte c) pos s pos' s' ->
  exists a, a <> c /\ s = String a s' /\ pos' = S pos.
Proof. inversion 1; subst; eauto. Qed.

Lemma matches_BeginText_inv pos s pos' s' :
  matches BeginText pos s pos' s' -> pos = 0 /\ pos' = 0 /\ s' = s.
Proof. inversion 1; subst; auto. Qed.

Lemma matches_EndText_inv pos s pos' s' :
  matches EndText pos s pos' s' -> s = "" /\ s' = "" /\ pos' = pos.
Proof. inversion 1; subst; auto. Qed.

Lemma matches_star_NotByte g c pos s pos' s' :
  matches (Star g (NotByte c)) pos s pos' s' ->
  exists w, s = w ++ s' /\ no_byte c w /\ pos' = pos + String.length w.
Proof.
  remember (Star g (NotByte c)) as r eqn:Hr. intros H.
  induction H; try discriminate; injection Hr as -> ->.
  - exists "". simpl. split; [reflexivity | split; [exact I | lia]].
  - apply matches_NotByte_inv in H as (a & Ha & -> & ->).
    destruct (IHmatches2 eq_refl) as (w & -> & Hw & ->).
    exists (String a w). simpl.
    split; [reflexivity | split; [split; assumption | lia]].
Qed.

Lemma matches_plus_NotByte c pos s pos' s' :
  matches (Plus (NotByte c)) pos s pos' s' ->
  exists w, s = w ++ s' /\ no_byte c w /\ w <> ""
            /\ pos' = pos + String.length w.
Proof.
  intros H. apply matches_Seq_inv in H as (pos1 & s1 & H1 & H2).
  apply matches_NotByte_inv in H1 as (a & Ha & -> & ->).
  apply matches_star_NotByte in H2 as (w & -> & Hw & ->).
  exists (String a w). simpl.
  split; [reflexivity | split; [split; assumption | split; [discriminate | lia]]].
Qed.

(** ** What the matcher finds on a text of the expected shape *)

Lemma run_Seq r1 r2 pos s cs k :
  run (Seq r1 r2) pos s cs k
  = run r1 pos s cs (fun pos' s' cs' => run r2 pos' s' cs' k).
Proof. reflexivity. Qed.

Lemma run_Group i r pos s cs k :
  run (Group i r) pos s cs k
  = run r pos s cs
      (fun pos' s' cs' => k pos' s' ((i, take_s (pos' - pos) s) :: cs')).
Proof. reflexivity. Qed.

Lemma run_Star g r pos s cs k :
  run (Star g r) pos s cs k
  = star_loop (run r) g k (String.length s) pos s cs.
Proof. reflexivity. Qed.

Lemma run_Alt r1 r2 pos s cs k :
  run (Alt r1 r2) pos s cs k
  = match run r1 pos s cs k with
    | Some res => Some res
    | None => run r2 pos s cs k
    end.
Proof. reflexivity. Qed.

Lemma run_Empty pos s cs k : run Empty pos s cs k = k pos s cs.
Proof. reflexivity. Qed.

Lemma run_NotByte c a pos s cs k :
  a <> c -> run (NotByte c) pos (String a s) cs k = k (S pos) s cs.
Proof. intros Ha. simpl. apply byte_eqb_neq in Ha. rewrite Ha. reflexivity. Qed.

Lemma run_BeginText s cs k : run BeginText 0 s cs k = k 0 s cs.
Proof. reflexivity. Qed.

Lemma run_EndText pos cs k : run EndText pos "" cs k = k pos "" cs.
Proof. reflexivity. Qed.

Lemma run_Byte c pos s cs k :
  run (Byte c) pos (String c s) cs k = k (S pos) s cs.
Proof. simpl. rewrite byte_eqb_refl. reflexivity. Qed.

Lemma run_AnyByte a pos s cs k :
  a <> newline -> run AnyByte pos (String a s) cs k = k (S pos) s cs.
Proof. intros Ha. simpl. apply byte_eqb_neq in Ha. rewrite Ha. reflexivity. Qed.

Lemma run_Lit p : forall pos s cs k,
  run (Lit p) pos (p ++ s) cs k = k (pos + String.length p) s cs.
Proof.
  induction p as [|a p IH]; intros pos s cs k.
  - rewrite append_nil. simpl. rewrite Nat.add_0_r. reflexivity.
  - rewrite append_cons. simpl. rewrite byte_eqb_refl, IH.
    f_equal. lia.
Qed.

(** A greedy run of [[^c]] takes all of [w] when [w] is free of [c] and
    what follows cannot be taken; the first answer is the continuation's
    at that point, if it has one. *)
Lemma star_loop_NotByte_greedy c k res rest cs :
  stops c rest ->
  forall w fuel pos,
    String.length w <= fuel -> no_byte c w ->
    k (pos + String.length w) rest cs = Some res ->
    star_loop (run (NotByte c)) true k fuel pos (w ++ rest) cs = Some res.
Proof.
  intros Hstop. induction w as [|a w IH]; intros fuel pos Hfuel Hw Hk.
  - rewrite append_nil. simpl in Hk. rewrite Nat.add_0_r in Hk.
    destruct fuel; simpl; [exact Hk|].
    destruct rest as [|b rest]; simpl; [exact Hk|].
    simpl in Hstop. subst b. rewrite byte_eqb_refl. exact Hk.
  - rewrite append_cons. simpl in Hfuel.
    destruct fuel as [|fuel]; [lia|]. destruct Hw as [Ha Hw].
    simpl. apply byte_eqb_neq in Ha. rewrite Ha.
    assert (Hlt : Nat.ltb pos (S pos) = true) by (apply Nat.ltb_lt; lia).
    rewrite Hlt. rewrite IH; [reflexivity | lia | exact Hw |].
    rewrite <- Hk. f_equal. simpl. lia.
Qed.

Lemma run_star_NotByte_greedy c k res rest cs w pos :
  stops c rest -> no_byte c w ->
  k (pos + String.length w) rest cs = Some res ->
  run (Star true (NotByte c)) pos (w ++ rest) cs k = Some res.
Proof.
  intros Hstop Hw Hk. simpl.
  apply star_loop_NotByte_greedy; try assumption.
  rewrite length_append. lia.
Qed.

Lemma run_plus_NotByte_greedy c k res rest cs w pos :
  stops c rest -> no_byte c w -> w <> "" ->
  k (pos + String.length w) rest cs = Some res ->
  run (Plus (NotByte c)) pos (w ++ rest) cs k = Some res.
Proof.
  intros Hstop Hw Hne Hk. destruct w as [|a w]; [congruence|].
  destruct Hw as [Ha Hw]. rewrite append_cons.
  unfold Plus. cbn [run]. apply byte_eqb_neq in Ha. rewrite Ha.
  apply star_loop_NotByte_greedy; try assumption.
  - rewrite length_append. lia.
  - rewrite <- Hk. f_equal. simpl. lia.
Qed.

(** The same inside a group: the text of the group is [w]. *)
Lemma run_group_plus_NotByte i c k res rest cs w pos :
  stops c rest -> no_byte c w -> w <> "" ->
  k (pos + String.length w) rest ((i, w) :: cs) = Some res ->
  run (Group i (Plus (NotByte c))) pos (w ++ rest) cs k = Some res.
Proof.
  intros Hstop Hw Hne Hk. cbn [run].
  apply (run_plus_NotByte_greedy c _ res rest cs w pos Hstop Hw Hne).
  replace (pos + String.length w - pos) with (String.length w) by lia.
  rewrite take_s_append. exact Hk.
Qed.

(** A lazy run of [.] over [w], free of newlines, answers at [w]'s end at
    the latest. *)
Lemma star_loop_AnyByte_lazy k rest cs :
  forall w fuel pos,
    String.length w <= fuel -> no_byte newline w ->
    is_Some (k (pos + String.length w) rest cs) ->
    is_Some (star_loop (run AnyByte) false k fuel pos (w ++ rest) cs).
Proof.
  induction w as [|a w IH]; intros fuel pos Hfuel Hw Hk.
  - rewrite append_nil. simpl in Hk. rewrite Nat.add_0_r in Hk.
    destruct fuel; simpl; [exact Hk|].
    destruct (k pos rest cs); [eauto | destruct Hk; discriminate].
  - rewrite append_cons. simpl in Hfuel.
    destruct fuel as [|fuel]; [lia|]. destruct Hw as [Ha Hw]. simpl.
    destruct (k pos (String a (w ++ rest)) cs); [eauto|].
    apply byte_eqb_neq in Ha. rewrite Ha.
    assert (Hlt : Nat.ltb pos (S pos) = true) by (apply Nat.ltb_lt; lia).
    rewrite Hlt. apply IH; [lia | exact Hw |].
    replace (S pos + String.length w) with (pos + String.length (String a w))
      by (simpl; lia).
    exact Hk.
Qed.

(** A greedy run of the group [([^c])] over [w] has an answer when the
    continuation has one at [w]'s end, whatever the groups. *)
Lemma star_loop_Group_NotByte i c k rest :
  stops c rest ->
  (forall pos cs, is_Some (k pos rest cs)) ->
  forall w fuel pos cs,
    String.length w <= fuel -> no_byte c w ->
    is_Some (star_loop (run (Group i (NotByte c))) true k fuel pos
               (w ++ rest) cs).
Proof.
  intros Hstop Hk. induction w as [|a w IH]; intros fuel pos cs Hfuel Hw.
  - rewrite append_nil. destruct fuel; simpl; [apply Hk|].
    destruct rest as [|b rest]; simpl; [apply Hk|].
    simpl in Hstop. subst b. rewrite byte_eqb_refl. apply Hk.
  - rewrite append_cons. simpl in Hfuel.
    destruct fuel as [|fuel]; [lia|]. destruct Hw as [Ha Hw]. simpl.
    apply byte_eqb_neq in Ha. rewrite Ha.
    assert (Hlt : Nat.ltb pos (S pos) = true) by (apply Nat.ltb_lt; lia).
    rewrite Hlt.
    match goal with
    | |- is_Some (match ?x with _ => _ end) =>
        assert (Hx : is_Some x) by (apply IH; [lia | exact Hw]);
        destruct Hx as [res ->]; eauto
    end.
Qed.

Lemma search_first r s cs :
  match_at r 0 s = Some cs -> search r 0 s = Some cs.
Proof. intros H. destruct s; simpl; rewrite H; reflexivity. Qed.

(** ** What the three patterns accept and find *)

Lemma segments_no_slash w : no_byte slash w -> segments w = [w].
Proof.
  induction w as [|a w IH]; simpl; [reflexivity|].
  intros [Ha Hw]. apply byte_eqb_neq in Ha as ->. rewrite (IH Hw). reflexivity.
Qed.

Lemma segments_app w rest :
  no_byte slash w -> segments (w ++ String slash rest) = w :: segments rest.
Proof.
  induction w as [|a w IH]; rewrite ?append_cons, ?append_nil; simpl.
  - intros _. reflexivity.
  - intros [Ha Hw]. apply byte_eqb_neq in Ha as ->. rewrite (IH Hw). reflexivity.
Qed.

Lemma nonempty_true w : w <> "" -> nonempty w = true.
Proof. destruct w; [congruence | reflexivity]. Qed.

(** A pattern that begins with [^] matches at the start of the text or
    nowhere. *)
Lemma search_anchored r pos s :
  search (Seq BeginText r) (S pos) s = None.
Proof.
  revert pos. induction s as [|a s IH]; intros pos; simpl; [reflexivity|].
  apply IH.
Qed.

Lemma FindStringSubmatch_anchored groups r s parts :
  FindStringSubmatch groups (Seq BeginText r) s = Some parts ->
  exists pos' s' cs', matches (Seq BeginText r) 0 s pos' s'
    /\ parts = map (fun i => capture i ((0, take_s (pos' - 0) s) :: cs'))
                 (seq 0 (S groups)).
Proof.
  unfold FindStringSubmatch.
  destruct (search (Seq BeginText r) 0 s) as [cs|] eqn:E; [|discriminate].
  intros [= <-].
  assert (Hat : match_at (Seq BeginText r) 0 s = Some cs).
  { destruct s as [|a s]; simpl in E.
    - destruct (match_at _ 0 ""); [exact E | discriminate].
    - destruct (match_at _ 0 (String a s)); [exact E|].
      rewrite search_anchored in E. discriminate. }
  apply run_sound in Hat as (pos' & s' & cs' & Hm & _ & [= <-]).
  exists pos', s', cs'. split; [exact Hm | reflexivity].
Qed.

Lemma FindStringSubmatch_length groups r s parts :
  FindStringSubmatch groups r s = Some parts -> length parts = S groups.
Proof.
  unfold FindStringSubmatch. destruct (search r 0 s); [|discriminate].
  intros [= <-]. cbn [length]. rewrite List.length_map, List.length_seq.
  reflexivity.
Qed.

Lemma moduleIdentifierRe_accepts s pos' s' :
  matches moduleIdentifierRe 0 s pos' s' ->
  exists a n, s = a ++ String slash n
    /\ no_byte slash a /\ a <> "" /\ no_byte slash n /\ n <> "".
Proof.
  intros H. unfold moduleIdentifierRe in H.
  apply matches_Seq_inv in H as (p0 & s0 & H0 & H).
  apply matches_BeginText_inv in H0 as (_ & -> & ->).
  apply matches_Seq_inv in H as (p1 & s1 & H1 & H).
  apply matches_Group_inv, matches_plus_NotByte in H1 as (a & -> & Ha & Hane & ->).
  apply matches_Seq_inv in H as (p2 & s2 & H2 & H).
  apply matches_Byte_inv in H2 as (-> & ->).
  apply matches_Seq_inv in H as (p3 & s3 & H3 & H).
  apply matches_Group_inv, matches_plus_NotByte in H3 as (n & -> & Hn & Hnne & ->).
  apply matches_EndText_inv in H as (-> & _ & _).
  exists a, n. rewrite append_empty_r. auto.
Qed.

Lemma is_module_shape_intro a n :
  no_byte slash a -> a <> "" -> no_byte slash n -> n <> "" ->
  is_module_shape (a ++ String slash n) = true.
Proof.
  intros Ha Hane Hn Hnne.
  unfold is_module_shape. rewrite segments_app by assumption.
  rewrite segments_no_slash by assumption.
  rewrite !nonempty_true by assumption. reflexivity.
Qed.

Lemma moduleIdentifierRe_shape s parts :
  FindStringSubmatch 2 moduleIdentifierRe s = Some parts ->
  is_module_shape s = true.
Proof.
  intros H. apply FindStringSubmatch_anchored in H as (pos' & s' & cs' & Hm & _).
  apply moduleIdentifierRe_accepts in Hm as (a & n & -> & Ha & Hane & Hn & Hnne).
  apply is_module_shape_intro; assumption.
Qed.

Lemma storeIdentifierRe_accepts s pos' s' :
  matches storeIdentifierRe 0 s pos' s' ->
  exists a n v, s = a ++ String slash (n ++ String slash v)
    /\ no_byte slash a /\ a <> "" /\ no_byte slash n /\ n <> ""
    /\ no_byte slash v /\ pos' = String.length s.
Proof.
  intros H. unfold storeIdentifierRe in H.
  apply matches_Seq_inv in H as (p0 & s0 & H0 & H).
  apply matches_BeginText_inv in H0 as (_ & -> & ->).
  apply matches_Seq_inv in H as (p1 & s1 & H1 & H).
  apply matches_Group_inv, matches_Seq_inv in H1 as (p2 & s2 & Ha & H1).
  apply matches_plus_NotByte in Ha as (a & -> & Ha & Hane & ->).
  apply matches_Seq_inv in H1 as (p3 & s3 & Hs & Hn).
  apply matches_Byte_inv in Hs as (-> & ->).
  apply matches_plus_NotByte in Hn as (n & -> & Hn & Hnne & ->).
  apply matches_Seq_inv in H as (p4 & s4 & Hs & H).
  apply matches_Byte_inv in Hs as (-> & ->).
  apply matches_Seq_inv in H as (p5 & s5 & Hv & H).
  apply matches_Group_inv, matches_star_NotByte in Hv as (v & -> & Hv & ->).
  apply matches_EndText_inv in H as (-> & _ & ->).
  exists a, n, v. rewrite append_empty_r. repeat split; try assumption.
  rewrite !length_append. simpl. rewrite !length_append. simpl. lia.
Qed.

Lemma is_store_shape_intro a n v :
  no_byte slash a -> a <> "" -> no_byte slash n -> n <> "" ->
  no_byte slash v ->
  is_store_shape (a ++ String slash (n ++ String slash v)) = true.
Proof.
  intros Ha Hane Hn Hnne Hv.
  unfold is_store_shape. rewrite !segments_app by assumption.
  rewrite segments_no_slash by assumption.
  rewrite !nonempty_true by assumption. reflexivity.
Qed.

Lemma storeIdentifierRe_shape s parts :
  FindStringSubmatch 2 storeIdentifierRe s = Some parts ->
  is_store_shape s = true.
Proof.
  intros H. apply FindStringSubmatch_anchored in H as (pos' & s' & cs' & Hm & _).
  apply storeIdentifierRe_accepts in Hm
    as (a & n & v & -> & Ha & Hane & Hn & Hnne & Hv & _).
  apply is_store_shape_intro; assumption.
Qed.

(** On [<author>/<name>] the pattern answers the whole text, then the
    author, then the name. *)
Lemma moduleIdentifierRe_finds a n :
  no_byte slash a -> a <> "" -> no_byte slash n -> n <> "" ->
  FindStringSubmatch 2 moduleIdentifierRe (a ++ String slash n)
  = Some [a ++ String slash n; a; n].
Proof.
  intros Ha Hane Hn Hnne. unfold FindStringSubmatch.
  rewrite (search_first _ _
             [(0, a ++ String slash n); (2, n); (1, a)]); [reflexivity|].
  unfold match_at, moduleIdentifierRe.
  rewrite run_Seq, run_BeginText, run_Seq.
  apply run_group_plus_NotByte; [reflexivity | assumption..|].
  rewrite run_Seq, run_Byte, run_Seq.
  rewrite <- (append_empty_r n) at 1.
  apply run_group_plus_NotByte; [exact I | assumption..|].
  rewrite run_EndText. do 3 f_equal. rewrite Nat.sub_0_r.
  replace (S (0 + String.length a) + String.length n)
    with (String.length (a ++ String slash n))
    by (rewrite length_append; simpl; lia).
  apply take_s_all.
Qed.

Lemma githubRawRe_tail_some dir file pos cs k :
  no_byte newline dir -> no_byte slash file -> file <> "" ->
  (forall pos' cs', is_Some (k pos' "" cs')) ->
  is_Some (run githubRawRe_tail pos (dir ++ file) cs k).
Proof.
  intros Hdir Hfile Hne Hk. unfold githubRawRe_tail.
  rewrite run_Seq, run_Group, run_Star.
  apply star_loop_AnyByte_lazy; [rewrite length_append; lia | exact Hdir |].
  assert (Hplus : forall p cs0,
    is_Some (run (Plus (Group 5 (NotByte slash))) p file cs0
               (fun pos' s' cs' => run EndText pos' s' cs' k))).
  { intros p cs0. destruct file as [|a f]; [congruence|].
    destruct Hfile as [Ha Hf]. unfold Plus.
    rewrite run_Seq, run_Group, run_NotByte by exact Ha. rewrite run_Star.
    rewrite <- (append_empty_r f).
    apply star_loop_Group_NotByte;
      [exact I | | rewrite append_empty_r; lia | exact Hf].
    intros pos' cs'. rewrite run_EndText. apply Hk. }
  rewrite run_Seq. unfold Quest. rewrite run_Alt.
  match goal with
  | |- is_Some (match ?x with _ => _ end) => destruct x; [eauto|]
  end.
  rewrite run_Empty, run_Seq. apply Hplus.
Qed.

(** Up to the directory the pattern can take a raw link in one way only:
    the three groups are the owner, the repository and the reference. *)
Lemma githubRawRe_head owner repo ref rest k :
  no_byte slash owner -> owner <> "" ->
  no_byte slash repo -> repo <> "" ->
  no_byte slash ref -> ref <> "" ->
  exists p,
    forall res,
      run githubRawRe_tail p rest [(3, ref); (2, repo); (1, owner)] k
      = Some res ->
      run githubRawRe 0
        ("https://raw.githubusercontent.com/"
         ++ owner ++ String slash (repo ++ String slash (ref ++ String slash rest)))
        [] k = Some res.
Proof.
  intros Ho Hone Hr Hrne Hf Hfne. eexists. intros res Htail.
  change ("https://raw.githubusercontent.com/"
          ++ owner ++ String slash (repo ++ String slash (ref ++ String slash rest)))
    with ("https://raw"
          ++ String "."
               ("githubusercontent"
                ++ String "."
                     ("com/"
                      ++ owner
                      ++ String slash
                           (repo ++ String slash (ref ++ String slash rest))))).
  unfold githubRawRe.
  rewrite run_Seq, run_Lit, run_Seq, run_AnyByte by discriminate.
  rewrite run_Seq, run_Lit, run_Seq, run_AnyByte by discriminate.
  rewrite run_Seq, run_Lit, run_Seq.
  apply run_group_plus_NotByte; [reflexivity | assumption..|].
  rewrite run_Seq, run_Byte, run_Seq.
  apply run_group_plus_NotByte; [reflexivity | assumption..|].
  rewrite run_Seq, run_Byte, run_Seq.
  apply run_group_plus_NotByte; [reflexivity | assumption..|].
  rewrite run_Seq, run_Byte. exact Htail.
Qed.

(** On a raw link the pattern matches, and the submatches 1 to 3 are the
    owner, the repository and the reference. *)
Lemma githubRawRe_finds owner repo ref dir file :
  no_byte slash owner -> owner <> "" ->
  no_byte slash repo -> repo <> "" ->
  no_byte slash ref -> ref <> "" ->
  no_byte newline dir -> no_byte slash file -> file <> "" ->
  exists submatches,
    FindStringSubmatch 5 githubRawRe (raw_link owner repo ref dir file)
    = Some submatches
    /\ nth 1 submatches "" = owner
    /\ nth 2 submatches "" = repo
    /\ nth 3 submatches "" = ref.
Proof.
  intros Ho Hone Hr Hrne Hf Hfne Hdir Hfile Hfilene.
  set (url := raw_link owner repo ref dir file).
  set (k := fun (pos' : nat) (_ : string) (cs' : captures) =>
              Some ((0, take_s (pos' - 0) url) :: cs')).
  destruct (githubRawRe_head owner repo ref (dir ++ file) k
              Ho Hone Hr Hrne Hf Hfne) as [p Hhead].
  destruct (githubRawRe_tail_some dir file p
              [(3, ref); (2, repo); (1, owner)] k Hdir Hfile Hfilene)
    as [res Htail]; [intros; unfold k; eauto|].
  specialize (Hhead res Htail).
  apply run_sound in Htail as (pos' & s' & cs' & _ & Hframe & Hk).
  unfold k in Hk. injection Hk as <-.
  unfold FindStringSubmatch.
  rewrite (search_first _ _ ((0, take_s (pos' - 0) url) :: cs'))
    by exact Hhead.
  eexists. split; [reflexivity|].
  cbn [map seq nth capture Nat.eqb].
  rewrite !Hframe by reflexivity. repeat split; reflexivity.
Qed.

(** ** Parsing identifiers *)

Lemma NewModuleIdentifier_no_match s :
  FindStringSubmatch 2 moduleIdentifierRe s = None ->
  NewModuleIdentifier s = Panics (IndexOutOfRange 0 0).
Proof. unfold NewModuleIdentifier. intros ->. reflexivity. Qed.

Lemma NewModuleIdentifier_malformed s :
  is_module_shape s = false ->
  NewModuleIdentifier s = Panics (IndexOutOfRange 0 0).
Proof.
  intros Hs. apply NewModuleIdentifier_no_match.
  destruct (FindStringSubmatch 2 moduleIdentifierRe s) eqn:E; [|reflexivity].
  apply moduleIdentifierRe_shape in E. congruence.
Qed.

Lemma NewStoreIdentifier_malformed s :
  is_store_shape s = false ->
  NewStoreIdentifier s = Panics (IndexOutOfRange 0 0).
Proof.
  intros Hs. unfold NewStoreIdentifier.
  destruct (FindStringSubmatch 2 storeIdentifierRe s) eqn:E; [|reflexivity].
  apply storeIdentifierRe_shape in E. congruence.
Qed.

(** The slip in [NewStoreIdentifier]: the text [storeIdentifierRe] accepts
    has two slashes, and it is this whole text, [parts[0]], that goes to
    [NewModuleIdentifier]; so every input ends in the panic. *)
Lemma NewStoreIdentifier_panics s :
  NewStoreIdentifier s = Panics (IndexOutOfRange 0 0).
Proof.
  unfold NewStoreIdentifier.
  destruct (FindStringSubmatch 2 storeIdentifierRe s) as [parts|] eqn:E;
    [|reflexivity].
  apply FindStringSubmatch_anchored in E as (pos' & s' & cs' & Hm & ->).
  apply storeIdentifierRe_accepts in Hm
    as (a & n & v & Hs & Ha & Hane & Hn & Hnne & Hv & ->).
  cbn -[NewModuleIdentifier take_s].
  rewrite Nat.sub_0_r, take_s_all.
  rewrite NewModuleIdentifier_malformed; [reflexivity|].
  subst s. unfold is_module_shape. rewrite !segments_app by assumption.
  rewrite segments_no_slash by assumption. reflexivity.
Qed.

(** X2. The slip in [NewModuleIdentifier]: on [<author>/<name>] the author
    that comes back is the whole text and the name is the author. *)
Lemma NewModuleIdentifier_well_shaped a n :
  no_byte slash a -> a <> "" -> no_byte slash n -> n <> "" ->
  NewModuleIdentifier (a ++ String slash n)
  = Returns {| mi_Author := a ++ String slash n; mi_Name := a |}.
Proof.
  intros Ha Hane Hn Hnne. unfold NewModuleIdentifier.
  rewrite moduleIdentifierRe_finds by assumption. reflexivity.
Qed.

(** C3, as it fails: [acme/widgets] does not come back as (acme, widgets),
    and a text of the wrong shape is a run-time panic, not an error. *)
Lemma identifier_parse_counterexample :
  NewModuleIdentifier "acme/widgets"
    <> Returns {| mi_Author := "acme"; mi_Name := "widgets" |}
  /\ is_module_shape "acme" = false
  /\ NewModuleIdentifier "acme" = Panics (IndexOutOfRange 0 0)
  /\ is_store_shape "acme/widgets" = false
  /\ NewStoreIdentifier "acme/widgets" = Panics (IndexOutOfRange 0 0).
Proof. repeat split; vm_compute; congruence. Qed.

(** C3, amended: neither constructor has an error result; for every input
    that is not of the required shape the parse aborts with the run-time
    panic of indexing the nil submatch slice. *)
Theorem identifier_parse_malformed_panics (s : string) :
  (is_module_shape s = false ->
   NewModuleIdentifier s = Panics (IndexOutOfRange 0 0))
  /\ (is_store_shape s = false ->
      NewStoreIdentifier s = Panics (IndexOutOfRange 0 0)).
Proof.
  split.
  - apply NewModuleIdentifier_malformed.
  - apply NewStoreIdentifier_malformed.
Qed.

Lemma identifier_parse_malformed_panics_witness :
  NewModuleIdentifier "acme" = Panics (IndexOutOfRange 0 0)
  /\ NewStoreIdentifier "acme" = Panics (IndexOutOfRange 0 0).
Proof.
  split.
  - apply (proj1 (identifier_parse_malformed_panics "acme")). reflexivity.
  - apply (proj2 (identifier_parse_malformed_panics "acme")). reflexivity.
Defined.

(** ** The resolver *)

Lemma index_in_range (parts : list string) i :
  i < length parts -> index parts i = Returns (nth i parts "").
Proof.
  intros Hi. unfold index.
  destruct (nth_error parts i) as [x|] eqn:E.
  - f_equal. symmetry. apply nth_error_nth. exact E.
  - apply nth_error_None in E. lia.
Qed.

(** The branches are listed for every link the pattern accepts.  For a
    reference of forty bytes the error of the listing, if any, is the
    result; when the listing succeeds the reference is classified [commit]
    whatever the branch names are. *)
Lemma parseGithubRawLink_forty_bytes (env : Env) (metadataURL : URL)
    (submatches : list string) :
  FindStringSubmatch 5 githubRawRe metadataURL = Some submatches ->
  String.length (nth 3 submatches "") = 40 ->
  parseGithubRawLink env metadataURL
  = match ListBranches env (nth 1 submatches "") (nth 2 submatches "") with
    | inl err => Returns (zero_VersionedGithubPath, Some err)
    | inr _ =>
        Returns ({| owner := nth 1 submatches "";
                    repo := nth 2 submatches "";
                    version := {| __type := "commit";
                                  commit := nth 3 submatches "";
                                  tag := ""; branch := "" |};
                    path := nth 4 submatches "" |}, None)
    end.
Proof.
  intros Hm Hlen. unfold parseGithubRawLink. rewrite Hm.
  apply FindStringSubmatch_length in Hm.
  rewrite !index_in_range by lia. cbn [obind].
  destruct (ListBranches env _ _); [reflexivity|].
  rewrite Hlen. reflexivity.
Qed.

(** C4, as it fails: the reference is forty hexadecimal digits; with the
    branch listing out of reach the resolver returns the error of the
    listing, and with it in reach it answers [commit]. *)
Lemma parseGithubRawLink_network_counterexample :
  FindStringSubmatch 5 githubRawRe Sample.murl
  = Some [Sample.murl; "acme"; "widgets";
          "0123456789abcdef0123456789abcdef01234567"; "modules/foo"; "n"]
  /\ parseGithubRawLink Sample.offline Sample.murl
     = Returns (zero_VersionedGithubPath, Some (net_Error "dial tcp"))
  /\ parseGithubRawLink Sample.online Sample.murl
     = Returns ({| owner := "acme"; repo := "widgets";
                   version := {| __type := "commit";
                                 commit := "0123456789abcdef0123456789abcdef01234567";
                                 tag := ""; branch := "" |};
                   path := "modules/foo" |}, None).
Proof. repeat split; vm_compute; reflexivity. Qed.

(** C4, amended: for every raw link whose reference is forty bytes long,
    the branches of the repository are listed first; the error of the
    listing, if any, is the result, and when the listing succeeds the
    reference is classified [commit], whatever the branch names are. *)
Theorem parseGithubRawLink_forty (env : Env)
    (owner repo ref dir file : string) :
  no_byte slash owner -> owner <> "" ->
  no_byte slash repo -> repo <> "" ->
  no_byte slash ref -> String.length ref = 40 ->
  no_byte newline dir -> no_byte slash file -> file <> "" ->
  exists path,
    parseGithubRawLink env (raw_link owner repo ref dir file)
    = match ListBranches env owner repo with
      | inl err => Returns (zero_VersionedGithubPath, Some err)
      | inr _ =>
          Returns ({| owner := owner; repo := repo;
                      version := {| __type := "commit"; commit := ref;
                                    tag := ""; branch := "" |};
                      path := path |}, None)
      end.
Proof.
  intros Ho Hone Hr Hrne Hf Hlen Hdir Hfile Hfilene.
  assert (Hfne : ref <> "") by (intros ->; discriminate).
  destruct (githubRawRe_finds owner repo ref dir file)
    as (submatches & Hm & H1 & H2 & H3); try assumption.
  exists (nth 4 submatches "").
  rewrite (parseGithubRawLink_forty_bytes env _ submatches Hm)
    by (rewrite H3; exact Hlen).
  rewrite H1, H2, H3. reflexivity.
Qed.

Lemma parseGithubRawLink_forty_witness :
  exists path,
    parseGithubRawLink Sample.offline
      (raw_link "acme" "widgets" "0123456789abcdef0123456789abcdef01234567"
         "modules/foo/" "metadata.json")
    = match ListBranches Sample.offline "acme" "widgets" with
      | inl err => Returns (zero_VersionedGithubPath, Some err)
      | inr _ =>
          Returns ({| owner := "acme"; repo := "widgets";
                      version := {| __type := "commit";
                                    commit := "0123456789abcdef0123456789abcdef01234567";
                                    tag := ""; branch := "" |};
                      path := path |}, None)
      end.
Proof.
  apply (parseGithubRawLink_forty Sample.offline "acme" "widgets"
           "0123456789abcdef0123456789abcdef01234567"
           "modules/foo/" "metadata.json").
  all: simpl; repeat split; try discriminate.
Defined.

(** ** The vault in memory and on disk *)

Lemma Modules_decode (j : JVault) a :
  Modules (decode j) !! a
  = (fun names : gmap Name JByVersions =>
       map_imap (fun n jbv => Some (decode_ByVersions a n jbv)) names)
    <$> j !! a.
Proof.
  unfold decode. simpl. rewrite map_lookup_imap.
  destruct (j !! a); reflexivity.
Qed.

Lemma objects_decode (j : JVault) a :
  objects (decode j) !! a
  = (fun names : gmap Name JByVersions => omap jMetadatas names) <$> j !! a.
Proof. unfold decode. simpl. apply lookup_fmap. Qed.

Local Arguments decode : simpl never.

Lemma getAllModuleVersions_decode (j : JVault) mi :
  getAllModuleVersions (decode j) mi
  = match persisted (Document j) mi with
    | Some jbv => (decode_ByVersions (mi_Author mi) (mi_Name mi) jbv, true)
    | None => (zero_ByVersions, false)
    end.
Proof.
  unfold getAllModuleVersions, persisted. rewrite Modules_decode.
  destruct (j !! mi_Author mi) as [names|]; simpl; [|reflexivity].
  rewrite map_lookup_imap. destruct (names !! mi_Name mi); reflexivity.
Qed.

Lemma encode_changed (j : JVault) a n f :
  encode {| Modules := Modules (decode j);
            objects := alter (alter f n) a (objects (decode j)) |}
  = alter (alter (on_metadatas f) n) a j.
Proof.
  apply map_eq. intros a'. unfold encode. cbn [Modules].
  rewrite lookup_fmap, Modules_decode.
  destruct (decide (a = a')) as [<-|Ha].
  - rewrite lookup_alter_eq. destruct (j !! a) as [names|] eqn:Ej; [|reflexivity].
    cbn. f_equal. apply map_eq. intros n'.
    rewrite lookup_fmap, map_lookup_imap.
    destruct (decide (n = n')) as [<-|Hn].
    + rewrite lookup_alter_eq. destruct (names !! n) as [jbv|] eqn:En; [|reflexivity].
      cbn. f_equal. unfold encode_ByVersions, decode_ByVersions, on_metadatas.
      cbn. f_equal. destruct (jMetadatas jbv) as [m|] eqn:Em; [|reflexivity].
      unfold deref. cbn. rewrite lookup_alter_eq, objects_decode, Ej. cbn.
      rewrite lookup_alter_eq, lookup_omap, En. cbn. rewrite Em. reflexivity.
    + rewrite lookup_alter_ne by assumption.
      destruct (names !! n') as [jbv|] eqn:En; [|reflexivity].
      cbn. f_equal. unfold encode_ByVersions, decode_ByVersions.
      destruct jbv as [e [m|]]; cbn; [|reflexivity]. f_equal.
      unfold deref. cbn. rewrite lookup_alter_eq, objects_decode, Ej. cbn.
      rewrite lookup_alter_ne by assumption. rewrite lookup_omap, En.
      reflexivity.
  - rewrite lookup_alter_ne by assumption.
    destruct (j !! a') as [names|] eqn:Ej; [|reflexivity].
    cbn. f_equal. apply map_eq. intros n'.
    rewrite lookup_fmap, map_lookup_imap.
    destruct (names !! n') as [jbv|] eqn:En; [|reflexivity].
    cbn. f_equal. unfold encode_ByVersions, decode_ByVersions.
    destruct jbv as [e [m|]]; cbn; [|reflexivity]. f_equal.
    unfold deref. cbn. rewrite lookup_alter_ne by assumption.
    rewrite objects_decode, Ej. cbn. rewrite lookup_omap, En. reflexivity.
Qed.

Lemma on_metadatas_id jbv : on_metadatas (fun m => m) jbv = jbv.
Proof. destruct jbv as [e [m|]]; reflexivity. Qed.

(** Marshalling what was decoded gives the document back. *)
Lemma encode_decode (j : JVault) : encode (decode j) = j.
Proof.
  transitivity (alter (alter (on_metadatas (fun m => m)) "") "" j).
  - rewrite <- encode_changed. f_equal. destruct (decode j) as [ms os].
    cbn. f_equal. symmetry. apply alter_id. intros names _.
    apply alter_id. reflexivity.
  - apply alter_id. intros names _. apply alter_id.
    intros jbv _. apply on_metadatas_id.
Qed.

Lemma persisted_Document f mi jbv :
  persisted f mi = Some jbv ->
  exists j names, f = Document j /\ j !! mi_Author mi = Some names
                  /\ names !! mi_Name mi = Some jbv.
Proof.
  destruct f as [| |j]; try discriminate. simpl.
  destruct (j !! mi_Author mi) as [names|] eqn:E; [|discriminate].
  intros H. exists j, names. auto.
Qed.

Lemma under_refl p : under p p = true.
Proof. unfold under. rewrite String.eqb_refl. reflexivity. Qed.

Lemma on_metadatas_nil f jbv :
  jMetadatas jbv = None -> on_metadatas f jbv = jbv.
Proof. destruct jbv as [e m]. simpl. intros ->. reflexivity. Qed.

Lemma encode_map_delete (j : JVault) a n names jbv v :
  j !! a = Some names -> names !! n = Some jbv ->
  encode (map_delete (decode j) (Metadatas (decode_ByVersions a n jbv)) v)
  = alter (alter (on_metadatas (delete v)) n) a j.
Proof.
  intros Ha Hn. unfold decode_ByVersions. cbn [Metadatas].
  destruct (jMetadatas jbv) as [m|] eqn:Em; cbn [map_delete].
  - apply encode_changed.
  - rewrite encode_decode. symmetry.
    apply alter_id. intros names' Hn'. apply alter_id. intros jbv' Hj'.
    assert (names' = names) as -> by congruence.
    assert (jbv' = jbv) as -> by congruence.
    apply on_metadatas_nil. exact Em.
Qed.

(** ** Toggle *)

Lemma SetVault_writes (env : Env) vault w :
  SetVault env vault w = (Returns None, write_vault_file (encode vault) w).
Proof. reflexivity. Qed.

(** Whatever the direction and the outcome, [ToggleModuleInVault] leaves
    the document of the vault file as it found it. *)
Lemma ToggleModuleInVault_document (env : Env) identifier enabled w j :
  vault_file w = Document j ->
  vault_file (ToggleModuleInVault env identifier enabled w).2 = Document j.
Proof.
  intros Hf. unfold ToggleModuleInVault, GetVault, os_Open,
      json_Decode_Vault, bind, ret. rewrite Hf.
  cbn [fst snd]. rewrite getAllModuleVersions_decode.
  destruct (persisted _ _) as [jbv|]; cbn [negb]; [|exact Hf].
  unfold createSymlink, destroySymlink, os_Symlink, os_Remove, SetVault,
      json_Marshal, os_MkdirAll, os_WriteFile,
    bind, ret.
  rewrite encode_decode.
  destruct enabled.
  - destruct (links w !! _); reflexivity.
  - destruct (String.eqb _ _); [|exact Hf].
    destruct (links w !! _); reflexivity.
Qed.

Lemma ToggleModuleInVault_vault_file (env : Env) identifier enabled w :
  vault_file (ToggleModuleInVault env identifier enabled w).2 = vault_file w.
Proof.
  destruct (vault_file w) as [| |j] eqn:Hf.
  - unfold ToggleModuleInVault, GetVault, os_Open, json_Decode_Vault, bind, ret. rewrite Hf. exact Hf.
  - unfold ToggleModuleInVault, GetVault, os_Open, json_Decode_Vault, bind, ret. rewrite Hf. exact Hf.
  - apply ToggleModuleInVault_document. exact Hf.
Qed.

(** [os.Symlink] does not replace a link that is there. *)
Lemma createSymlink_occupied (env : Env) identifier w target :
  links w !! mi_toFilePath env (si_ModuleIdentifier identifier) = Some target ->
  createSymlink env identifier w = (Returns tt, w).
Proof.
  intros H. unfold createSymlink, os_Symlink, bind, ret. rewrite H. reflexivity.
Qed.

(** X16. Disabling the version the vault file has as [Enabled] succeeds
    and leaves no link at the path of the module (the second half of
    P2). *)
Lemma ToggleModuleInVault_disable_link (env : Env) identifier w jbv :
  persisted (vault_file w) (si_ModuleIdentifier identifier) = Some jbv ->
  jEnabled jbv = si_Version identifier ->
  let r := ToggleModuleInVault env identifier false w in
  r.1 = Returns None
  /\ links r.2 !! mi_toFilePath env (si_ModuleIdentifier identifier) = None.
Proof.
  intros Hp Hen.
  destruct (persisted_Document _ _ _ Hp) as (j & names & Hf & Ha & Hn).
  unfold ToggleModuleInVault, GetVault, os_Open, json_Decode_Vault, bind,
      ret. rewrite Hf. cbn [fst snd].
  rewrite getAllModuleVersions_decode. unfold persisted. rewrite Ha, Hn.
  cbn [negb decode_ByVersions Enabled]. rewrite Hen, String.eqb_refl.
  unfold destroySymlink, os_Remove, SetVault, json_Marshal, os_MkdirAll,
      os_WriteFile,
    bind, ret.
  destruct (links w !! _) eqn:E; cbn.
  - split; [reflexivity | apply lookup_delete_eq].
  - split; [reflexivity | exact E].
Qed.


(** C1, on a vault where acme/widgets has the versions 1.0.0 and 2.0.0 and
    none enabled: enabling 1.0.0 returns success and writes the vault file,
    and the [Enabled] that was written is still empty. *)
Theorem ToggleModuleInVault_enable_not_persisted :
  let w := Sample.world (Document (Sample.two_versions "")) ∅ in
  let r := ToggleModuleInVault Sample.online (Sample.id "1.0.0") true w in
  r.1 = Returns None
  /\ vault_writes r.2 = 1
  /\ jEnabled <$> persisted (vault_file r.2) Sample.acme_widgets = Some ""
  /\ vault_file r.2 = vault_file w.
Proof.
  cbv zeta. split; [vm_compute; reflexivity|].
  split; [vm_compute; reflexivity|].
  rewrite (ToggleModuleInVault_document _ _ _ _ (Sample.two_versions ""))
    by reflexivity.
  split; [vm_compute|]; reflexivity.
Qed.

(** C5, on a vault where acme/widgets has the versions 1.0.0 and 2.0.0 and
    no link: enabling 1.0.0 returns success and creates the link to its
    store path; enabling 2.0.0 then returns success too, and the link at
    the module path still leads to the store path of 1.0.0, which is not
    that of 2.0.0. *)
Theorem ToggleModuleInVault_enable_keeps_old_link :
  let w := Sample.world (Document (Sample.two_versions "")) ∅ in
  let r1 := ToggleModuleInVault Sample.online (Sample.id "1.0.0") true w in
  let r2 := ToggleModuleInVault Sample.online (Sample.id "2.0.0") true r1.2 in
  r1.1 = Returns None
  /\ links r1.2 !! mi_toFilePath Sample.online Sample.acme_widgets
     = Some (si_toFilePath Sample.online (Sample.id "1.0.0"))
  /\ r2.1 = Returns None
  /\ links r2.2 !! mi_toFilePath Sample.online Sample.acme_widgets
     = Some (si_toFilePath Sample.online (Sample.id "1.0.0"))
  /\ si_toFilePath Sample.online (Sample.id "1.0.0")
     <> si_toFilePath Sample.online (Sample.id "2.0.0").
Proof.
  cbv zeta. repeat split; vm_compute; congruence.
Qed.

(** ** Remove *)

(** Remove, on a vault that knows the module: the record is deleted, and
    [Enabled] is written back as it was read. *)
Lemma RemoveModuleInVault_present (env : Env) identifier w j names jbv :
  vault_file w = Document j ->
  j !! mi_Author (si_ModuleIdentifier identifier) = Some names ->
  names !! mi_Name (si_ModuleIdentifier identifier) = Some jbv ->
  let r := RemoveModuleInVault env identifier w in
  r.1 = Returns None
  /\ vault_file r.2
     = Document (alter (alter (on_metadatas (delete (si_Version identifier)))
                          (mi_Name (si_ModuleIdentifier identifier)))
                   (mi_Author (si_ModuleIdentifier identifier)) j)
  /\ store r.2 = store w.
Proof.
  intros Hf Ha Hn.
  unfold RemoveModuleInVault, MutateVault, GetVault, os_Open,
      json_Decode_Vault, bind, ret. rewrite Hf.
  cbn [fst snd]. rewrite getAllModuleVersions_decode.
  unfold persisted. rewrite Ha, Hn. cbn [negb].
  unfold destroySymlink, os_Remove, SetVault, json_Marshal, os_MkdirAll,
      os_WriteFile,
    bind, ret.
  destruct (String.eqb _ _); [destruct (links w !! _)|];
    cbn [fst snd negb with_Enabled Metadatas];
    rewrite (encode_map_delete j _ _ names jbv) by assumption;
    repeat split; reflexivity.
Qed.

Lemma DeleteModule_vault_file (env : Env) identifier w :
  let r := DeleteModule env identifier w in
  vault_file r.2 = vault_file w
  \/ exists j jbv,
       vault_file w = Document j
       /\ persisted (vault_file w) (si_ModuleIdentifier identifier) = Some jbv
       /\ vault_file r.2
          = Document (alter (alter (on_metadatas (delete (si_Version identifier)))
                               (mi_Name (si_ModuleIdentifier identifier)))
                        (mi_Author (si_ModuleIdentifier identifier)) j).
Proof.
  destruct (persisted (vault_file w) (si_ModuleIdentifier identifier))
    as [jbv|] eqn:Hp.
  - right. destruct (persisted_Document _ _ _ Hp) as (j & names & Hf & Ha & Hn).
    exists j, jbv. split; [exact Hf|]. split; [reflexivity|].
    destruct (RemoveModuleInVault_present env identifier w j names jbv Hf Ha Hn)
      as (Hr & Hv & _).
    unfold DeleteModule, bind.
    destruct (RemoveModuleInVault env identifier w) as [o w1].
    cbn in Hr, Hv. subst o. exact Hv.
  - left. unfold DeleteModule, RemoveModuleInVault, MutateVault, GetVault,
      os_Open, json_Decode_Vault, bind, ret.
    destruct (vault_file w) as [| |j] eqn:Hf; cbn; try exact Hf.
    rewrite getAllModuleVersions_decode, Hp. cbn. exact Hf.
Qed.

(** C10: removing a version the module has no record of, and that is not
    the enabled one, succeeds: the version mapping is as it was, the vault
    file is written once more with the content it had, the links are not
    touched, and nothing is left at or below the store path. *)
Theorem DeleteModule_absent_version (env : Env) (identifier : StoreIdentifier)
    (w : World) (jbv : JByVersions) :
  persisted (vault_file w) (si_ModuleIdentifier identifier) = Some jbv ->
  (forall m, jMetadatas jbv = Some m -> m !! si_Version identifier = None) ->
  jEnabled jbv <> si_Version identifier ->
  exists w',
    DeleteModule env identifier w = (Returns None, w')
    /\ vault_file w' = vault_file w
    /\ vault_writes w' = S (vault_writes w)
    /\ links w' = links w
    /\ (si_toFilePath env identifier ∉ store w')
    /\ (forall q, q ∈ store w' <->
                  q ∈ store w /\ under (si_toFilePath env identifier) q = false).
Proof.
  intros Hp Habsent Hen.
  destruct (persisted_Document _ _ _ Hp) as (j & names & Hf & Ha & Hn).
  unfold DeleteModule, RemoveModuleInVault, MutateVault, GetVault, os_Open,
      json_Decode_Vault, bind, ret.
  rewrite Hf. cbn [fst snd].
  rewrite getAllModuleVersions_decode. unfold persisted. rewrite Ha, Hn.
  cbn [negb decode_ByVersions Enabled].
  apply String.eqb_neq in Hen. rewrite Hen. unfold ret.
  cbn [fst snd negb Metadatas].
  assert (Henc :
    encode (map_delete (decode j)
              (Metadatas
                 (decode_ByVersions (mi_Author (si_ModuleIdentifier identifier))
                    (mi_Name (si_ModuleIdentifier identifier)) jbv))
              (si_Version identifier)) = j).
  { unfold decode_ByVersions. cbn [Metadatas].
    destruct (jMetadatas jbv) as [m|] eqn:Em; cbn [map_delete].
    - cbn [fst snd]. rewrite encode_changed.
      apply alter_id. intros names' Hn'. apply alter_id. intros jbv' Hj'.
      assert (names' = names) as -> by congruence.
      assert (jbv' = jbv) as -> by congruence.
      destruct jbv as [e ms]. cbn in *. subst ms. unfold on_metadatas. cbn.
      rewrite delete_id by auto. reflexivity.
    - apply encode_decode. }
  unfold SetVault, json_Marshal, os_MkdirAll, os_WriteFile, bind, ret,
    deleteModuleInStore, os_RemoveAll. cbn beta iota. rewrite Henc.
  eexists. split; [reflexivity|]. cbn.
  split; [reflexivity|]. split; [reflexivity|]. split; [reflexivity|].
  split.
  - rewrite elem_of_filter, under_refl. intros [? _]. discriminate.
  - intros q. rewrite elem_of_filter. tauto.
Qed.

Lemma DeleteModule_absent_version_witness :
  exists w',
    DeleteModule Sample.online (Sample.id "3.0.0")
      (Sample.world (Document (Sample.two_versions "1.0.0"))
         (Sample.linked "1.0.0"))
    = (Returns None, w')
    /\ vault_file w' = Document (Sample.two_versions "1.0.0")
    /\ vault_writes w' = 1
    /\ links w' = Sample.linked "1.0.0"
    /\ (si_toFilePath Sample.online (Sample.id "3.0.0") ∉ store w')
    /\ (forall q, q ∈ store w' <->
          q ∈ (∅ : gset string)
          /\ under (si_toFilePath Sample.online (Sample.id "3.0.0")) q = false).
Proof.
  apply (DeleteModule_absent_version Sample.online (Sample.id "3.0.0")
           (Sample.world (Document (Sample.two_versions "1.0.0"))
              (Sample.linked "1.0.0"))
           {| jEnabled := "1.0.0";
              jMetadatas := Some {[ "1.0.0" := Sample.record;
                                    "2.0.0" := Sample.record ]} |}).
  - vm_compute. reflexivity.
  - intros m [= <-]. vm_compute. reflexivity.
  - simpl. discriminate.
Defined.

(** X19. Removing the enabled version, on every vault that has one:
    success, the record gone, and [Enabled] still naming the version, so
    that I1 is lost. *)
Lemma DeleteModule_enabled_version (env : Env) identifier w jbv :
  persisted (vault_file w) (si_ModuleIdentifier identifier) = Some jbv ->
  jEnabled jbv = si_Version identifier ->
  si_Version identifier <> "" ->
  let r := DeleteModule env identifier w in
  r.1 = Returns None
  /\ jEnabled <$> persisted (vault_file r.2) (si_ModuleIdentifier identifier)
     = Some (si_Version identifier)
  /\ persisted_record (vault_file r.2) identifier = None
  /\ ~ I1 (vault_file r.2).
Proof.
  intros Hp Hen Hne.
  destruct (persisted_Document _ _ _ Hp) as (j & names & Hf & Ha & Hn).
  destruct (RemoveModuleInVault_present env identifier w j names jbv Hf Ha Hn)
    as (Hr & Hv & _).
  assert (Hfinal :
    (DeleteModule env identifier w).1 = Returns None
    /\ vault_file (DeleteModule env identifier w).2
       = Document (alter (alter (on_metadatas (delete (si_Version identifier)))
                            (mi_Name (si_ModuleIdentifier identifier)))
                     (mi_Author (si_ModuleIdentifier identifier)) j)).
  { unfold DeleteModule, bind, deleteModuleInStore, os_RemoveAll.
    destruct (RemoveModuleInVault env identifier w) as [o w1].
    cbn in Hr, Hv. subst o. cbn. auto. }
  destruct Hfinal as [Hres Hfile]. cbv zeta. rewrite Hfile.
  assert (Hentry :
    persisted
      (Document (alter (alter (on_metadatas (delete (si_Version identifier)))
                          (mi_Name (si_ModuleIdentifier identifier)))
                   (mi_Author (si_ModuleIdentifier identifier)) j))
      (si_ModuleIdentifier identifier)
    = Some (on_metadatas (delete (si_Version identifier)) jbv)).
  { unfold persisted. rewrite lookup_alter_eq, Ha. cbn.
    rewrite lookup_alter_eq, Hn. reflexivity. }
  split; [exact Hres|]. split; [rewrite Hentry; cbn; congruence|]. split.
  - unfold persisted_record. rewrite Hentry. cbn.
    destruct (jMetadatas jbv); cbn; [apply lookup_delete_eq | reflexivity].
  - intros HI. unfold I1 in HI.
    apply persisted_Document in Hentry as (j' & names' & [= <-] & Ha' & Hn').
    pose proof (map_Forall_lookup_1 _ _ _ _ HI Ha') as Hnames.
    pose proof (map_Forall_lookup_1 _ _ _ _ Hnames Hn') as Hbv.
    revert Hbv. unfold I1_entry, on_metadatas. cbn [jEnabled jMetadatas].
    rewrite Hen. apply String.eqb_neq in Hne. rewrite Hne. cbn [orb].
    destruct (jMetadatas jbv); cbn; [|discriminate].
    rewrite lookup_delete_eq. intros H. apply bool_decide_eq_true in H.
    destruct H. discriminate.
Qed.

(** C2, on a vault where acme/widgets has the versions 1.0.0 and 2.0.0
    and 1.0.0 is enabled: the vault satisfies I1, removing 1.0.0 succeeds,
    and the vault that was written names 1.0.0 as enabled without holding
    a record of it: I1 is lost. *)
Theorem DeleteModule_enabled_breaks_I1 :
  let w := Sample.world (Document (Sample.two_versions "1.0.0"))
             (Sample.linked "1.0.0") in
  let w' := perform_all Sample.online [Remove (Sample.id "1.0.0")] w in
  I1 (vault_file w)
  /\ (perform Sample.online (Remove (Sample.id "1.0.0")) w).1 = Returns None
  /\ jEnabled <$> persisted (vault_file w') Sample.acme_widgets = Some "1.0.0"
  /\ persisted_record (vault_file w') (Sample.id "1.0.0") = None
  /\ ~ I1 (vault_file w').
Proof.
  cbv zeta. split.
  { unfold I1, Sample.world, vault_file, Sample.two_versions.
    apply map_Forall_singleton, map_Forall_singleton. vm_compute. reflexivity. }
  split; [vm_compute; reflexivity|].
  split; [vm_compute; reflexivity|].
  split; [vm_compute; reflexivity|].
  intros H.
  destruct (vault_file (perform_all _ _ _)) as [| |j] eqn:E;
    try (vm_compute in E; discriminate).
  assert (Hp : persisted (Document j) Sample.acme_widgets
               = Some {| jEnabled := "1.0.0";
                         jMetadatas := Some {[ "2.0.0" := Sample.record ]} |}).
  { rewrite <- E. vm_compute. reflexivity. }
  apply persisted_Document in Hp as (j' & names & [= <-] & Ha & Hn).
  pose proof (map_Forall_lookup_1 _ _ _ _ H Ha) as Hnames.
  pose proof (map_Forall_lookup_1 _ _ _ _ Hnames Hn) as Hbv.
  vm_compute in Hbv. discriminate.
Qed.

(** ** The installer *)

(** Whatever happens, the download touches nothing but the store. *)
Lemma downloadModuleInStore_frame (env : Env) url sid w :
  let r := downloadModuleInStore env url sid w in
  vault_file r.2 = vault_file w
  /\ vault_writes r.2 = vault_writes w
  /\ links r.2 = links w.
Proof.
  unfold downloadModuleInStore, bind, lift, ret, regexp_MustCompile, UnTarGZ.
  destruct (parseGithubRawLink env url) as [[gp [e|]]|p]; cbn; auto.
  destruct (http_Get env _) as [e|res]; cbn; auto.
  destruct (regexp_compiles env _); cbn; auto.
  destruct (archive_UnTarGZ env _ _ _ _) as [err st]. cbn. auto.
Qed.

Lemma downloadModuleInStore_failure (env : Env) url sid w e w' :
  archive_failure env url sid w e w' ->
  downloadModuleInStore env url sid w = (Returns (Some e), w').
Proof.
  unfold downloadModuleInStore, bind, lift, ret, regexp_MustCompile, UnTarGZ.
  intros [gp e' Hp | gp e' Hp Hg | gp res e' st Hp Hg Hc Hu]; rewrite Hp; cbn.
  - reflexivity.
  - rewrite Hg. reflexivity.
  - rewrite Hg, Hc, Hu. reflexivity.
Qed.

(** The three stages are all the ways the download reports an error. *)
Lemma downloadModuleInStore_error (env : Env) url sid w e w' :
  downloadModuleInStore env url sid w = (Returns (Some e), w') ->
  archive_failure env url sid w e w'.
Proof.
  unfold downloadModuleInStore, bind, lift, ret, regexp_MustCompile, UnTarGZ.
  destruct (parseGithubRawLink env url) as [[gp [e0|]]|p] eqn:Hp; cbn.
  - intros [= <- <-]. eapply resolution_fails; eassumption.
  - destruct (http_Get env _) as [e0|res] eqn:Hg; cbn.
    + intros [= <- <-]. eapply download_fails; eassumption.
    + destruct (regexp_compiles env _) eqn:Hc; cbn; [|discriminate].
      destruct (archive_UnTarGZ env _ _ _ _) as [err st] eqn:Hu.
      intros [= -> <-]. eapply extraction_fails; eassumption.
  - discriminate.
Qed.

(** C9, as it fails: the archive request is answered [404], the body is
    extracted all the same, and the download reports success. *)
Lemma downloadModuleInStore_status_counterexample :
  let w := Sample.world (Document (Sample.two_versions "")) ∅ in
  (exists res,
     http_Get Sample.not_found
       "https://github.com/acme/widgets/archive/0123456789abcdef0123456789abcdef01234567.tar.gz"
     = inr res /\ StatusCode res = 404)
  /\ downloadModuleInStore Sample.not_found Sample.murl (Sample.id "1.0.0") w
     = (Returns None, with_store {[ "/cfg/store/acme/widgets/1.0.0" ]} w).
Proof.
  cbv zeta. split.
  - eexists. split; reflexivity.
  - vm_compute. reflexivity.
Qed.

(** C9, amended: a transport failure of the archive download is returned
    and nothing is extracted; a response, whatever its status, has its
    body handed to the extractor, whose result is the result. *)
Theorem downloadModuleInStore_ignores_status (env : Env) (metadataURL : URL)
    (sid : StoreIdentifier) (w : World) (gp : VersionedGithubPath) :
  parseGithubRawLink env metadataURL = Returns (gp, None) ->
  (forall e,
     http_Get env (getRepoArchiveLink gp) = inl e ->
     downloadModuleInStore env metadataURL sid w = (Returns (Some e), w))
  /\ (forall res,
        http_Get env (getRepoArchiveLink gp) = inr res ->
        regexp_compiles env ("^[^/]+/" ++ path gp ++ "(.*)") = true ->
        downloadModuleInStore env metadataURL sid w
        = UnTarGZ env (Body res) ("^[^/]+/" ++ path gp ++ "(.*)")
            (si_toFilePath env sid) w).
Proof.
  intros Hp. unfold downloadModuleInStore, bind, lift, regexp_MustCompile.
  rewrite Hp. cbn [fst snd]. split.
  - intros e ->. reflexivity.
  - intros res -> ->. reflexivity.
Qed.

Lemma downloadModuleInStore_ignores_status_witness :
  let w := Sample.world (Document (Sample.two_versions "")) ∅ in
  downloadModuleInStore Sample.not_found Sample.murl (Sample.id "1.0.0") w
  = UnTarGZ Sample.not_found "body" "^[^/]+/modules/foo(.*)"
      "/cfg/store/acme/widgets/1.0.0" w.
Proof.
  apply (proj2 (downloadModuleInStore_ignores_status Sample.not_found
                  Sample.murl (Sample.id "1.0.0") _
                  {| owner := "acme"; repo := "widgets";
                     version := {| __type := "commit";
                                   commit := "0123456789abcdef0123456789abcdef01234567";
                                   tag := ""; branch := "" |};
                     path := "modules/foo" |}
                  ltac:(vm_compute; reflexivity))
           {| StatusCode := 404; Body := "body" |}).
  - reflexivity.
  - reflexivity.
Defined.

(** ** Install *)

(** C6: when the resolution of the archive, its download or its extraction
    reports an error, [InstallModuleMURL] returns that error, and the
    vault file is neither changed nor written: no record of the version
    is added. *)
Theorem InstallModuleMURL_archive_failure (env : Env) (metadataURL : URL)
    (w : World) (metadata : Metadata) (sid : StoreIdentifier)
    (e : error) (w' : World) :
  fetchRemoteMetadata env metadataURL = (metadata, None) ->
  getStoreIdentifier metadata = Returns sid ->
  archive_failure env metadataURL sid w e w' ->
  InstallModuleMURL env metadataURL w = (Returns (Some e), w')
  /\ vault_file w' = vault_file w
  /\ vault_writes w' = vault_writes w
  /\ persisted_record (vault_file w') sid = persisted_record (vault_file w) sid.
Proof.
  intros Hfetch Hsid Hfail.
  pose proof (downloadModuleInStore_failure _ _ _ _ _ _ Hfail) as Hd.
  pose proof (downloadModuleInStore_frame env metadataURL sid w) as Hframe.
  rewrite Hd in Hframe. cbn in Hframe. destruct Hframe as (Hf & Hw & _).
  unfold InstallModuleMURL. rewrite Hfetch. unfold bind, lift at 1.
  rewrite Hsid, Hd. unfold ret. rewrite Hf. auto.
Qed.

Lemma InstallModuleMURL_archive_failure_witness :
  let w := Sample.world (Document (Sample.two_versions "")) ∅ in
  let w' := with_store {[ "/cfg/store/acme/widgets/1.0.0" ]} w in
  InstallModuleMURL Sample.truncated Sample.murl w
  = (Returns (Some (archive_Error "unexpected EOF")), w')
  /\ vault_file w' = vault_file w
  /\ vault_writes w' = vault_writes w
  /\ persisted_record (vault_file w') (Sample.id "1.0.0")
     = persisted_record (vault_file w) (Sample.id "1.0.0").
Proof.
  cbv zeta.
  apply (InstallModuleMURL_archive_failure Sample.truncated Sample.murl
           (Sample.world (Document (Sample.two_versions "")) ∅)
           (Sample.metadata ["acme"] "1.0.0") (Sample.id "1.0.0")).
  - reflexivity.
  - reflexivity.
  - apply (extraction_fails Sample.truncated Sample.murl (Sample.id "1.0.0") _
             {| owner := "acme"; repo := "widgets";
                version := {| __type := "commit";
                              commit := "0123456789abcdef0123456789abcdef01234567";
                              tag := ""; branch := "" |};
                path := "modules/foo" |}
             {| StatusCode := 200; Body := "body" |}).
    + vm_compute. reflexivity.
    + reflexivity.
    + reflexivity.
    + vm_compute. reflexivity.
Defined.

Lemma MutateVault_refused (env : Env) mutate w :
  (forall j, vault_file w = Document j ->
     exists v', mutate (decode j) w = (Returns (false, v'), w)) ->
  MutateVault env mutate w = (Returns (Some (refusal env (vault_file w))), w).
Proof.
  intros H. unfold MutateVault, GetVault, os_Open, json_Decode_Vault, bind,
      ret, ret, refusal, load_error.
  destruct (vault_file w) as [| |j] eqn:Hf; cbn; try reflexivity.
  destruct (H j eq_refl) as (v' & ->). reflexivity.
Qed.

Lemma setModule_empty_version v m module :
  md_Version m = "" -> setModule v m module = Returns (false, v).
Proof. unfold setModule. intros ->. reflexivity. Qed.

Lemma setModule_absent v m module mi :
  getModuleIdentifier m = Returns mi ->
  (getAllModuleVersions v mi).2 = false ->
  setModule v m module = Returns (false, v).
Proof.
  unfold setModule. intros -> H.
  destruct (Nat.eqb _ 0); [reflexivity|]. cbn.
  destruct (getAllModuleVersions v mi) as [versions ok]. cbn in H. subst ok.
  reflexivity.
Qed.

Lemma getStoreIdentifier_of_module m mi :
  getModuleIdentifier m = Returns mi ->
  getStoreIdentifier m
  = Returns {| si_ModuleIdentifier := mi; si_Version := md_Version m |}.
Proof. unfold getStoreIdentifier. intros ->. reflexivity. Qed.

Local Arguments downloadModuleInStore : simpl never.
Local Arguments AddModuleInVault : simpl never.

(** The installation, once the metadata is there and names an author. *)
Lemma InstallModuleMURL_fetched (env : Env) url w metadata mi :
  fetchRemoteMetadata env url = (metadata, None) ->
  getModuleIdentifier metadata = Returns mi ->
  InstallModuleMURL env url w
  = match downloadModuleInStore env url
            {| si_ModuleIdentifier := mi; si_Version := md_Version metadata |} w
    with
    | (Returns (Some e), w1) => (Returns (Some e), w1)
    | (Returns None, w1) =>
        AddModuleInVault env metadata
          {| Local := "/modules/" ++ mi_toPath env mi ++ "/metadata.json";
             Remote := url |} w1
    | (Panics p, w1) => (Panics p, w1)
    end.
Proof.
  intros Hfetch Hmi. unfold InstallModuleMURL. rewrite Hfetch.
  unfold bind at 1, lift at 1.
  rewrite (getStoreIdentifier_of_module _ _ Hmi). unfold bind at 1.
  destruct (downloadModuleInStore env url _ w) as [[[e|]|p] w1]; try reflexivity.
  unfold bind, lift. rewrite Hmi. reflexivity.
Qed.

(** Once the download has succeeded, a refused [setModule] is the error of
    the whole installation, and the vault file is not written. *)
Lemma InstallModuleMURL_refused (env : Env) url w metadata mi :
  fetchRemoteMetadata env url = (metadata, None) ->
  getModuleIdentifier metadata = Returns mi ->
  (forall j module, vault_file w = Document j ->
     setModule (decode j) metadata module = Returns (false, decode j)) ->
  let sid := {| si_ModuleIdentifier := mi; si_Version := md_Version metadata |} in
  let r := InstallModuleMURL env url w in
  r.1 <> Returns None
  /\ vault_file r.2 = vault_file w
  /\ vault_writes r.2 = vault_writes w
  /\ (forall w1,
        downloadModuleInStore env url sid w = (Returns None, w1) ->
        r = (Returns (Some (refusal env (vault_file w))), w1)).
Proof.
  intros Hfetch Hmi Hset sid r. subst r.
  pose proof (downloadModuleInStore_frame env url sid w) as Hframe.
  rewrite (InstallModuleMURL_fetched _ _ _ _ _ Hfetch Hmi). fold sid.
  destruct (downloadModuleInStore env url sid w) as [[[e|]|p] w1] eqn:Hd;
    cbn in Hframe; destruct Hframe as (Hf & Hw & _).
  - cbn. repeat split; try assumption; intros; congruence.
  - unfold AddModuleInVault. rewrite MutateVault_refused.
    + cbn. rewrite Hf. repeat split; try assumption; congruence.
    + intros j Hj. exists (decode j). unfold lift.
      rewrite Hset by congruence. reflexivity.
  - cbn. repeat split; try assumption; intros; congruence.
Qed.

Lemma refusal_NoFile env :
  refusal env NoFile = os_PathError "open" (vaultPath env).
Proof. reflexivity. Qed.

Lemma refusal_Document env j :
  refusal env (Document j) = errors_New "failed to mutate vault".
Proof. reflexivity. Qed.

(** C7, as it fails: with acme/widgets absent from an empty vault, and
    again with no vault file at all, the installation downloads, extracts
    and then reports an error; the vault is as it was. *)
Lemma InstallModuleMURL_absent_counterexample :
  let w := Sample.world (Document ∅) ∅ in
  let w0 := Sample.world NoFile ∅ in
  persisted (vault_file w) Sample.acme_widgets = None
  /\ (InstallModuleMURL Sample.online Sample.murl w).1
     = Returns (Some (errors_New "failed to mutate vault"))
  /\ vault_file (InstallModuleMURL Sample.online Sample.murl w).2 = Document ∅
  /\ (InstallModuleMURL Sample.online Sample.murl w0).1
     = Returns (Some (os_PathError "open" "/cfg/modules/vault.json"))
  /\ vault_file (InstallModuleMURL Sample.online Sample.murl w0).2 = NoFile.
Proof. cbv zeta. repeat split; vm_compute; reflexivity. Qed.

(** C7, amended: the installation of a module that is absent from the
    vault, or that finds no vault file, never returns success and never
    writes the vault file; when the download and the extraction succeed
    its result is the refusal of [MutateVault]. *)
Theorem InstallModuleMURL_absent_module (env : Env) (metadataURL : URL)
    (w : World) (metadata : Metadata) (mi : ModuleIdentifier) :
  fetchRemoteMetadata env metadataURL = (metadata, None) ->
  getModuleIdentifier metadata = Returns mi ->
  persisted (vault_file w) mi = None ->
  let sid := {| si_ModuleIdentifier := mi; si_Version := md_Version metadata |} in
  let r := InstallModuleMURL env metadataURL w in
  r.1 <> Returns None
  /\ vault_file r.2 = vault_file w
  /\ vault_writes r.2 = vault_writes w
  /\ (forall w1,
        downloadModuleInStore env metadataURL sid w = (Returns None, w1) ->
        r = (Returns (Some (refusal env (vault_file w))), w1)).
Proof.
  intros Hfetch Hmi Habsent.
  apply InstallModuleMURL_refused; try assumption.
  intros j module Hj. apply (setModule_absent _ _ _ mi Hmi).
  rewrite getAllModuleVersions_decode, <- Hj, Habsent. reflexivity.
Qed.

Lemma InstallModuleMURL_absent_module_witness :
  let w := Sample.world (Document ∅) ∅ in
  let r := InstallModuleMURL Sample.online Sample.murl w in
  r.1 <> Returns None
  /\ vault_file r.2 = vault_file w
  /\ vault_writes r.2 = vault_writes w
  /\ (forall w1,
        downloadModuleInStore Sample.online Sample.murl (Sample.id "1.0.0") w
        = (Returns None, w1) ->
        r = (Returns (Some (refusal Sample.online (vault_file w))), w1)).
Proof.
  apply (InstallModuleMURL_absent_module Sample.online Sample.murl
           (Sample.world (Document ∅) ∅)
           (Sample.metadata ["acme"] "1.0.0") Sample.acme_widgets).
  - reflexivity.
  - reflexivity.
  - reflexivity.
Defined.

(** C8, as it fails: a document without authors makes the installation
    panic; a document with an empty version makes it report an error only
    after the archive was downloaded and extracted into the store. *)
Lemma InstallModuleMURL_metadata_counterexample :
  let w := Sample.world (Document (Sample.two_versions "")) ∅ in
  InstallModuleMURL Sample.no_author Sample.murl w
  = (Panics (IndexOutOfRange 0 0), w)
  /\ InstallModuleMURL Sample.no_version Sample.murl w
     = (Returns (Some (errors_New "failed to mutate vault")),
        with_store {[ "/cfg/store/acme/widgets" ]} w).
Proof. cbv zeta. split; vm_compute; reflexivity. Qed.

(** C8, amended: the metadata is not validated.  Without authors the
    installation panics at [getAuthor], before any download.  With an
    author and an empty version it never succeeds and never writes the
    vault file, and when the download and the extraction succeed its
    result is the refusal of [MutateVault]. *)
Theorem InstallModuleMURL_unvalidated_metadata (env : Env) (metadataURL : URL)
    (w : World) (metadata : Metadata) :
  fetchRemoteMetadata env metadataURL = (metadata, None) ->
  (md_Authors metadata = [] ->
   InstallModuleMURL env metadataURL w = (Panics (IndexOutOfRange 0 0), w))
  /\ (forall a rest,
        md_Authors metadata = a :: rest ->
        md_Version metadata = "" ->
        let sid := {| si_ModuleIdentifier :=
                        {| mi_Author := a; mi_Name := md_Name metadata |};
                      si_Version := "" |} in
        let r := InstallModuleMURL env metadataURL w in
        r.1 <> Returns None
        /\ vault_file r.2 = vault_file w
        /\ vault_writes r.2 = vault_writes w
        /\ (forall w1,
              downloadModuleInStore env metadataURL sid w = (Returns None, w1) ->
              r = (Returns (Some (refusal env (vault_file w))), w1))).
Proof.
  intros Hfetch. split.
  - intros Hauthors. unfold InstallModuleMURL. rewrite Hfetch.
    unfold bind, lift, getStoreIdentifier, getModuleIdentifier, getAuthor.
    rewrite Hauthors. reflexivity.
  - intros a rest Hauthors Hversion.
    assert (Hmi : getModuleIdentifier metadata
                  = Returns {| mi_Author := a; mi_Name := md_Name metadata |}).
    { unfold getModuleIdentifier, getAuthor. rewrite Hauthors. reflexivity. }
    pose proof (InstallModuleMURL_refused env metadataURL w metadata _
                  Hfetch Hmi) as H.
    rewrite Hversion in H. apply H.
    intros j module _. apply setModule_empty_version. exact Hversion.
Qed.

Lemma InstallModuleMURL_unvalidated_metadata_witness :
  let w := Sample.world (Document (Sample.two_versions "")) ∅ in
  InstallModuleMURL Sample.no_author Sample.murl w
  = (Panics (IndexOutOfRange 0 0), w)
  /\ (InstallModuleMURL Sample.no_version Sample.murl w).1 <> Returns None.
Proof.
  split.
  - apply (proj1 (InstallModuleMURL_unvalidated_metadata Sample.no_author
                    Sample.murl _ (Sample.metadata [] "1.0.0") eq_refl)).
    reflexivity.
  - apply (proj2 (InstallModuleMURL_unvalidated_metadata Sample.no_version
                    Sample.murl _ (Sample.metadata ["acme"] "") eq_refl)
             "acme" [] eq_refl eq_refl).
Defined.

(** [setModule] on a vault that was just decoded: a refusal, a panic, or
    the record put into the map of the module. *)
Lemma setModule_decode (j : JVault) m x :
  setModule (decode j) m x = Returns (false, decode j)
  \/ (exists p, setModule (decode j) m x = Panics p)
  \/ (exists mi jbv v',
        getModuleIdentifier m = Returns mi
        /\ md_Version m <> ""
        /\ persisted (Document j) mi = Some jbv
        /\ is_Some (jMetadatas jbv)
        /\ setModule (decode j) m x = Returns (true, v')
        /\ encode v'
           = alter (alter (on_metadatas (insert (md_Version m) x)) (mi_Name mi))
               (mi_Author mi) j).
Proof.
  unfold setModule.
  destruct (Nat.eqb (String.length (md_Version m)) 0) eqn:Hv; [left; reflexivity|].
  destruct (getModuleIdentifier m) as [mi|p] eqn:Hmi; cbn [obind];
    [|right; left; eauto].
  rewrite getAllModuleVersions_decode.
  destruct (persisted (Document j) mi) as [jbv|] eqn:Hp; cbn [negb];
    [|left; reflexivity].
  unfold decode_ByVersions. cbn [Metadatas].
  destruct (jMetadatas jbv) as [ms|] eqn:Em; cbn [map_set obind];
    [|right; left; eauto].
  right. right. eexists mi, jbv, _.
  split; [reflexivity|]. split.
  { intros E. rewrite E in Hv. discriminate. }
  split; [exact Hp|]. split; [rewrite Em; eauto|].
  split; [reflexivity|]. cbn [fst snd]. apply encode_changed.
Qed.

Lemma AddModuleInVault_vault_file (env : Env) m x w :
  let r := AddModuleInVault env m x w in
  (vault_file r.2 = vault_file w /\ r.1 <> Returns None)
  \/ exists j mi jbv,
       vault_file w = Document j
       /\ getModuleIdentifier m = Returns mi
       /\ md_Version m <> ""
       /\ persisted (Document j) mi = Some jbv
       /\ is_Some (jMetadatas jbv)
       /\ r = (Returns None,
               write_vault_file
                 (alter (alter (on_metadatas (insert (md_Version m) x))
                           (mi_Name mi)) (mi_Author mi) j) w).
Proof.
  unfold AddModuleInVault, MutateVault, GetVault, os_Open,
      json_Decode_Vault, SetVault, json_Marshal, os_MkdirAll, os_WriteFile,
    bind, lift, ret.
  destruct (vault_file w) as [| |j] eqn:Hf; cbn [fst snd].
  - left. split; [exact Hf | discriminate].
  - left. split; [exact Hf | discriminate].
  - destruct (setModule_decode j m x)
      as [-> | [[p ->] | (mi & jbv & v' & Hmi & Hv & Hp & Hm & -> & Henc)]];
      cbn [fst snd negb].
    + left. split; [exact Hf | discriminate].
    + left. split; [exact Hf | discriminate].
    + right. exists j, mi, jbv. rewrite Henc. auto 10.
Qed.

(** X20. Install, on a vault that knows the module and holds a map for
    it: once the download has succeeded the record is written under the
    version of the metadata, with the local path of the module (which
    does not name the version) and the link it came from, and [Enabled]
    is written back as it was read. *)
Lemma InstallModuleMURL_present (env : Env) url w metadata mi jbv w1 :
  fetchRemoteMetadata env url = (metadata, None) ->
  getModuleIdentifier metadata = Returns mi ->
  md_Version metadata <> "" ->
  persisted (vault_file w) mi = Some jbv ->
  is_Some (jMetadatas jbv) ->
  downloadModuleInStore env url
    {| si_ModuleIdentifier := mi; si_Version := md_Version metadata |} w
  = (Returns None, w1) ->
  let sid := {| si_ModuleIdentifier := mi; si_Version := md_Version metadata |} in
  let module := {| Local := "/modules/" ++ mi_toPath env mi ++ "/metadata.json";
                   Remote := url |} in
  let r := InstallModuleMURL env url w in
  r.1 = Returns None
  /\ persisted_record (vault_file r.2) sid = Some module
  /\ jEnabled <$> persisted (vault_file r.2) mi = Some (jEnabled jbv)
  /\ vault_writes r.2 = S (vault_writes w).
Proof.
  intros Hfetch Hmi Hv Hp Hm Hd sid module r. subst r.
  rewrite (InstallModuleMURL_fetched _ _ _ _ _ Hfetch Hmi). rewrite Hd.
  pose proof (downloadModuleInStore_frame env url sid w) as Hframe.
  unfold sid in Hframe. rewrite Hd in Hframe. cbn in Hframe.
  destruct Hframe as (Hf & Hw & _).
  destruct (AddModuleInVault_vault_file env metadata module w1)
    as [[Hsame Hne] | (j & mi' & jbv' & Hj & Hmi' & _ & Hp' & _ & Hr)].
  - exfalso.
    destruct (persisted_Document _ _ _ Hp) as (j & names & Hj & Ha & Hn).
    revert Hne. unfold AddModuleInVault, MutateVault, GetVault, os_Open,
        json_Decode_Vault, bind, ret, lift.
    rewrite Hf, Hj. cbn [fst snd].
    destruct (setModule_decode j metadata module)
      as [E | [[p E] | (mi' & jbv' & v' & _ & _ & _ & _ & E & _)]];
      rewrite E; cbn; try (intros Hne; apply Hne; reflexivity).
    + exfalso. revert E. unfold setModule.
      destruct (Nat.eqb _ 0) eqn:Hz.
      { apply Nat.eqb_eq in Hz. destruct (md_Version metadata); [congruence|].
        discriminate. }
      rewrite Hmi. cbn [obind]. rewrite getAllModuleVersions_decode.
      unfold persisted. rewrite Ha, Hn. cbn [negb].
      unfold decode_ByVersions. cbn [Metadatas].
      destruct Hm as [ms ->]. cbn. discriminate.
    + exfalso. revert E. unfold setModule.
      destruct (Nat.eqb _ 0) eqn:Hz; [discriminate|].
      rewrite Hmi. cbn [obind]. rewrite getAllModuleVersions_decode.
      unfold persisted. rewrite Ha, Hn. cbn [negb].
      unfold decode_ByVersions. cbn [Metadatas].
      destruct Hm as [ms ->]. cbn. discriminate.
  - assert (mi' = mi) as -> by congruence.
    fold module. rewrite Hr. cbn [fst snd write_vault_file vault_file vault_writes].
    rewrite <- Hf, Hj in Hp. assert (jbv' = jbv) as -> by congruence.
    destruct (persisted_Document _ _ _ Hp') as (j' & names & [= <-] & Ha & Hn).
    split; [reflexivity|].
    unfold persisted_record, persisted.
        cbn [si_ModuleIdentifier si_Version sid].
    rewrite !lookup_alter_eq, Ha. cbn. rewrite !lookup_alter_eq, Hn. cbn.
    destruct Hm as [ms ->]. cbn. rewrite lookup_insert_eq.
    repeat split. congruence.
Qed.

Lemma InstallModuleMURL_vault_file (env : Env) url w :
  let r := InstallModuleMURL env url w in
  vault_file r.2 = vault_file w
  \/ exists j mi v x,
       vault_file w = Document j
       /\ vault_file r.2
          = Document (alter (alter (on_metadatas (insert v x)) (mi_Name mi))
                        (mi_Author mi) j).
Proof.
  cbv zeta.
  destruct (fetchRemoteMetadata env url) as [metadata [err|]] eqn:Hfetch.
  { left. unfold InstallModuleMURL. rewrite Hfetch. reflexivity. }
  destruct (getModuleIdentifier metadata) as [mi|p] eqn:Hmi.
  2:{ left. unfold InstallModuleMURL, getStoreIdentifier, bind, lift.
      rewrite Hfetch, Hmi. reflexivity. }
  rewrite (InstallModuleMURL_fetched _ _ _ _ _ Hfetch Hmi).
  pose proof (downloadModuleInStore_frame env url
                {| si_ModuleIdentifier := mi;
                   si_Version := md_Version metadata |} w) as Hframe.
  destruct (downloadModuleInStore env url _ w) as [[[e|]|p] w1];
    cbn in Hframe; destruct Hframe as (Hf & _ & _);
    try (left; exact Hf).
  match goal with
  | |- context [AddModuleInVault env metadata ?x w1] =>
      destruct (AddModuleInVault_vault_file env metadata x w1)
        as [[Hsame _] | (j & mi' & jbv & Hj & _ & _ & _ & _ & Hr)]
  end.
  - left. congruence.
  - right. rewrite Hr. exists j, mi'. eexists _, _.
    split; [congruence | reflexivity].
Qed.

(** ** Invariant I1 and the operations *)

Lemma I1_alter (j : JVault) a n f :
  I1 (Document j) ->
  (forall bv,
     persisted (Document j) {| mi_Author := a; mi_Name := n |} = Some bv ->
     I1_entry bv = true -> I1_entry (f bv) = true) ->
  I1 (Document (alter (alter f n) a j)).
Proof.
  intros HI Hf. unfold I1 in *. apply map_Forall_lookup. intros a' names' Ha'.
  apply map_Forall_lookup. intros n' bv' Hn'.
  apply lookup_alter_Some in Ha' as [(-> & names & Ha & ->) | (Hne & Ha)].
  - pose proof (map_Forall_lookup_1 _ _ _ _ HI Ha) as Hnames.
    apply lookup_alter_Some in Hn' as [(-> & bv & Hn & ->) | (Hne & Hn)].
    + apply Hf.
      * unfold persisted. cbn. rewrite Ha. exact Hn.
      * exact (map_Forall_lookup_1 _ _ _ _ Hnames Hn).
    + exact (map_Forall_lookup_1 _ _ _ _ Hnames Hn).
  - pose proof (map_Forall_lookup_1 _ _ _ _ HI Ha) as Hnames.
    exact (map_Forall_lookup_1 _ _ _ _ Hnames Hn').
Qed.

Lemma I1_entry_insert v x bv :
  I1_entry bv = true -> I1_entry (on_metadatas (insert v x) bv) = true.
Proof.
  unfold I1_entry, on_metadatas. destruct bv as [e [m|]];
    cbn [jEnabled jMetadatas fmap option_fmap option_map];
    destruct (String.eqb e ""); cbn [orb]; try reflexivity; try discriminate.
  intros H. apply bool_decide_eq_true in H. apply bool_decide_eq_true.
  apply lookup_insert_is_Some'. auto.
Qed.

Lemma I1_entry_delete v bv :
  (jEnabled bv = v -> v = "") ->
  I1_entry bv = true -> I1_entry (on_metadatas (delete v) bv) = true.
Proof.
  unfold I1_entry, on_metadatas. destruct bv as [e [m|]];
    cbn [jEnabled jMetadatas fmap option_fmap option_map]; intros Hv;
    destruct (String.eqb e "") eqn:E; cbn [orb];
    try reflexivity; try discriminate.
  intros H. apply bool_decide_eq_true in H. apply bool_decide_eq_true.
  rewrite lookup_delete_ne; [exact H|].
  intros <-. apply String.eqb_neq in E. apply E. apply Hv. reflexivity.
Qed.

(** I1 is kept by Install and by Toggle, and by Remove unless it removes
    the enabled version. *)
Lemma perform_preserves_I1 (env : Env) (o : operation) (w : World) :
  I1 (vault_file w) ->
  (forall identifier jbv,
     o = Remove identifier ->
     persisted (vault_file w) (si_ModuleIdentifier identifier) = Some jbv ->
     jEnabled jbv = si_Version identifier -> si_Version identifier = "") ->
  I1 (vault_file (perform env o w).2).
Proof.
  intros HI Hremove. destruct o as [url | identifier enabled | identifier];
    cbn [perform].
  - destruct (InstallModuleMURL_vault_file env url w)
      as [-> | (j & mi & v & x & Hj & ->)]; [exact HI|].
    rewrite Hj in HI. apply I1_alter; [exact HI|].
    intros bv _. apply I1_entry_insert.
  - rewrite ToggleModuleInVault_vault_file. exact HI.
  - destruct (DeleteModule_vault_file env identifier w)
      as [-> | (j & jbv & Hj & Hp & ->)]; [exact HI|].
    rewrite Hj in HI. apply I1_alter; [exact HI|].
    intros bv Hbv. apply I1_entry_delete.
    apply (Hremove identifier bv eq_refl).
    rewrite Hj. destruct identifier as [[a n] v]. exact Hbv.
Qed.

(** X25. A run of installs and toggles, in any number and order, keeps
    I1: only a removal can break it. *)
Lemma perform_all_preserves_I1 (env : Env) (os : list operation) :
  Forall (fun o => forall identifier, o <> Remove identifier) os ->
  forall w, I1 (vault_file w) -> I1 (vault_file (perform_all env os w)).
Proof.
  induction 1 as [|o os Ho _ IH]; intros w HI; cbn [perform_all]; [exact HI|].
  apply IH. apply perform_preserves_I1; [exact HI|].
  intros identifier jbv ->. destruct (Ho identifier eq_refl).
Qed.

(** ** [Enabled] in the vault file *)

Lemma persisted_alter_Enabled (j : JVault) a n f mi :
  jEnabled <$> persisted (Document (alter (alter (on_metadatas f) n) a j)) mi
  = jEnabled <$> persisted (Document j) mi.
Proof.
  unfold persisted.
  destruct (decide (a = mi_Author mi)) as [->|Ha].
  - rewrite lookup_alter_eq. destruct (j !! mi_Author mi) as [names|]; cbn;
      [|reflexivity].
    destruct (decide (n = mi_Name mi)) as [->|Hn].
    + rewrite lookup_alter_eq. destruct (names !! mi_Name mi); reflexivity.
    + rewrite lookup_alter_ne by assumption. reflexivity.
  - rewrite lookup_alter_ne by assumption. reflexivity.
Qed.

(** No operation changes the [Enabled] of any module in the vault file. *)
Lemma perform_Enabled_unchanged (env : Env) (o : operation) (w : World) mi :
  jEnabled <$> persisted (vault_file (perform env o w).2) mi
  = jEnabled <$> persisted (vault_file w) mi.
Proof.
  destruct o as [url | identifier enabled | identifier]; cbn [perform].
  - destruct (InstallModuleMURL_vault_file env url w)
      as [-> | (j & mi' & v & x & -> & ->)]; [reflexivity|].
    apply persisted_alter_Enabled.
  - rewrite ToggleModuleInVault_vault_file. reflexivity.
  - destruct (DeleteModule_vault_file env identifier w)
      as [-> | (j & jbv & Hj & _ & ->)]; [reflexivity|].
    rewrite Hj. apply persisted_alter_Enabled.
Qed.

(** X24. No run of installs, toggles and removals changes the [Enabled]
    that the vault file has for a module, or adds one: whatever is
    enabled or disabled, the file keeps the [Enabled] it had. *)
Lemma perform_all_Enabled_unchanged (env : Env) (os : list operation) :
  forall w mi,
    jEnabled <$> persisted (vault_file (perform_all env os w)) mi
    = jEnabled <$> persisted (vault_file w) mi.
Proof.
  induction os as [|o os IH]; intros w mi; cbn [perform_all]; [reflexivity|].
  rewrite IH. apply perform_Enabled_unchanged.
Qed.

(** * Further properties *)

(** ** More on byte strings and the matcher *)

Lemma append_assoc_s (s t u : string) : (s ++ t) ++ u = s ++ (t ++ u).
Proof. induction s; rewrite ?append_cons, ?append_nil; congruence. Qed.

Lemma no_byte_app c u v : no_byte c (u ++ String c v) -> False.
Proof.
  induction u as [|a u IH]; rewrite ?append_cons, ?append_nil; simpl.
  - intros [H _]. congruence.
  - intros [_ H]. exact (IH H).
Qed.

Lemma has_infix_cons p a s :
  has_infix p (String a s) = false ->
  has_prefix p (String a s) = false /\ has_infix p s = false.
Proof. cbn [has_infix]. intros H. apply orb_false_iff in H. exact H. Qed.

Lemma has_infix_prefix p s : has_infix p s = false -> has_prefix p s = false.
Proof.
  destruct s; cbn [has_infix]; intros H; apply orb_false_iff in H; apply H.
Qed.

(** A literal that is not a prefix of the text does not match there. *)
Lemma run_Lit_none p : forall pos s cs k,
  has_prefix p s = false -> run (Lit p) pos s cs k = None.
Proof.
  induction p as [|a p IH]; intros pos s cs k; [discriminate|].
  destruct s as [|b s]; simpl; [reflexivity|].
  intros H. unfold byte_eqb in *. rewrite (Ascii.eqb_sym b a).
  destruct (Ascii.eqb a b); [apply IH; exact H | reflexivity].
Qed.

(** A pattern that begins with a literal matches nowhere in a text that
    does not contain the literal. *)
Lemma search_Lit_none p r : forall s pos,
  has_infix p s = false -> search (Seq (Lit p) r) pos s = None.
Proof.
  induction s as [|a s IH]; intros pos H; cbn [search]; unfold match_at;
    rewrite run_Seq, run_Lit_none by (apply has_infix_prefix; exact H).
  - reflexivity.
  - apply IH. apply has_infix_cons in H. apply H.
Qed.

Lemma matches_Alt_inv r1 r2 pos s pos' s' :
  matches (Alt r1 r2) pos s pos' s' ->
  matches r1 pos s pos' s' \/ matches r2 pos s pos' s'.
Proof. inversion 1; subst; auto. Qed.

Lemma matches_Empty_inv pos s pos' s' :
  matches Empty pos s pos' s' -> pos' = pos /\ s' = s.
Proof. inversion 1; subst; auto. Qed.

Lemma matches_star_Group_NotByte g i c pos s pos' s' :
  matches (Star g (Group i (NotByte c))) pos s pos' s' ->
  exists w, s = w ++ s' /\ no_byte c w.
Proof.
  remember (Star g (Group i (NotByte c))) as r eqn:Hr. intros H.
  induction H; try discriminate; injection Hr as -> ->.
  - exists "". split; [reflexivity | exact I].
  - apply matches_Group_inv, matches_NotByte_inv in H as (a & Ha & -> & ->).
    destruct (IHmatches2 eq_refl) as (w & -> & Hw).
    exists (String a w). split; [reflexivity | split; assumption].
Qed.

(** What the end of [githubRawRe] accepts: a non-empty text without a
    slash, or such a text after one slash. *)
Lemma githubRawRe_basename_accepts pos s pos' s' :
  matches githubRawRe_basename pos s pos' s' ->
  exists w, (s = w \/ s = String slash w) /\ no_byte slash w /\ w <> "".
Proof.
  intros H. unfold githubRawRe_basename, Quest, Plus in H.
  apply matches_Seq_inv in H as (p1 & s1 & Hq & H).
  apply matches_Seq_inv in H as (p2 & s2 & Hp & He).
  apply matches_EndText_inv in He as (-> & _ & _).
  apply matches_Seq_inv in Hp as (p3 & s3 & H1 & Hs).
  apply matches_Group_inv, matches_NotByte_inv in H1 as (a & Ha & -> & ->).
  apply matches_star_Group_NotByte in Hs as (w & -> & Hw).
  rewrite append_empty_r in Hq.
  exists (String a w). split; [|split; [split; assumption | discriminate]].
  apply matches_Alt_inv in Hq as [Hq | Hq].
  - apply matches_Byte_inv in Hq as (-> & _). right. reflexivity.
  - apply matches_Empty_inv in Hq as (_ & Hq). left. congruence.
Qed.

(** It accepts no text with a slash after its first byte. *)
Lemma githubRawRe_basename_none a t file pos cs k :
  run githubRawRe_basename pos (String a (t ++ String slash file)) cs k = None.
Proof.
  destruct (run githubRawRe_basename _ _ _ _) as [res|] eqn:E; [|reflexivity].
  exfalso. apply run_sound in E as (pos' & s' & cs' & Hm & _ & _).
  apply githubRawRe_basename_accepts in Hm as (w & [Hs | Hs] & Hw & _).
  - subst w. destruct Hw as [_ Hw]. exact (no_byte_app _ _ _ Hw).
  - injection Hs as _ <-. exact (no_byte_app _ _ _ Hw).
Qed.

(** A lazy run of [.] over [w] stops where the continuation first has an
    answer: at the end of [w] when it has none before. *)
Lemma star_loop_AnyByte_lazy_first k rest cs res :
  forall w fuel pos,
    String.length w <= fuel -> no_byte newline w ->
    (forall u a v, w = u ++ String a v ->
       k (pos + String.length u) (String a v ++ rest) cs = None) ->
    k (pos + String.length w) rest cs = Some res ->
    star_loop (run AnyByte) false k fuel pos (w ++ rest) cs = Some res.
Proof.
  induction w as [|a w IH]; intros fuel pos Hfuel Hw Hnone Hk.
  - rewrite append_nil. simpl in Hk. rewrite Nat.add_0_r in Hk.
    destruct fuel; simpl; [exact Hk|]. rewrite Hk. reflexivity.
  - simpl in Hfuel. destruct fuel as [|fuel]; [lia|]. destruct Hw as [Ha Hw].
    pose proof (Hnone "" a w eq_refl) as H0.
    simpl in H0. rewrite Nat.add_0_r in H0.
    rewrite append_cons in *. simpl. rewrite H0.
    apply byte_eqb_neq in Ha. rewrite Ha.
    assert (Hlt : Nat.ltb pos (S pos) = true) by (apply Nat.ltb_lt; lia).
    rewrite Hlt. apply IH; [lia | exact Hw | |].
    + intros u b v ->.
      specialize (Hnone (String a u) b v eq_refl). simpl in Hnone.
      rewrite <- Hnone. f_equal. lia.
    + rewrite <- Hk. f_equal. simpl. lia.
Qed.

(** The directory group of [githubRawRe] is the text up to the last
    slash: the lazy [.] goes on until what is left is the base name. *)
Lemma githubRawRe_tail_lazy d file p cs k res :
  no_byte newline d ->
  run githubRawRe_basename (p + String.length d) (String slash file)
    ((4, d) :: cs) k = Some res ->
  run githubRawRe_tail p (d ++ String slash file) cs k = Some res.
Proof.
  intros Hd Hb.
  change githubRawRe_tail
    with (Seq (Group 4 (Star false AnyByte)) githubRawRe_basename).
  rewrite run_Seq, run_Group, run_Star.
  apply star_loop_AnyByte_lazy_first;
    [rewrite length_append; lia | exact Hd | |].
  - intros u a v ->. rewrite append_cons, append_assoc_s.
    rewrite append_cons. apply githubRawRe_basename_none.
  - replace (p + String.length d - p) with (String.length d) by lia.
    rewrite take_s_append. exact Hb.
Qed.

(** On a raw link whose file lies in the directory [d], the submatches 1
    to 4 are the owner, the repository, the reference and [d]. *)
Lemma githubRawRe_finds_directory owner repo ref d file :
  no_byte slash owner -> owner <> "" ->
  no_byte slash repo -> repo <> "" ->
  no_byte slash ref -> ref <> "" ->
  no_byte newline d -> no_byte slash file -> file <> "" ->
  exists submatches,
    FindStringSubmatch 5 githubRawRe
      (raw_link owner repo ref (d ++ "/") file) = Some submatches
    /\ length submatches = 6
    /\ nth 1 submatches "" = owner
    /\ nth 2 submatches "" = repo
    /\ nth 3 submatches "" = ref
    /\ nth 4 submatches "" = d.
Proof.
  intros Ho Hone Hr Hrne Hf Hfne Hd Hfile Hfilene.
  replace (raw_link owner repo ref (d ++ "/") file)
    with ("https://raw.githubusercontent.com/"
          ++ owner ++ String slash (repo ++ String slash
               (ref ++ String slash (d ++ String slash file)))).
  2:{ unfold raw_link. rewrite append_assoc_s. reflexivity. }
  set (url := "https://raw.githubusercontent.com/" ++ _).
  set (k := fun (pos' : nat) (_ : string) (cs' : captures) =>
              Some ((0, take_s (pos' - 0) url) :: cs')).
  destruct (githubRawRe_head owner repo ref (d ++ String slash file) k
              Ho Hone Hr Hrne Hf Hfne) as [p Hhead].
  set (cs := [(3, ref); (2, repo); (1, owner)]) in *.
  assert (Hsome : is_Some
    (run githubRawRe_basename (p + String.length d) (String slash file)
       ((4, d) :: cs) k)).
  { unfold githubRawRe_basename, Quest, Plus.
    rewrite run_Seq, run_Alt, run_Byte.
    destruct file as [|a f]; [congruence|]. destruct Hfile as [Ha Hfile].
    rewrite !run_Seq, run_Group, run_NotByte by exact Ha. rewrite run_Star.
    match goal with
    | |- is_Some (match ?x with _ => _ end) =>
        assert (Hx : is_Some x); [|destruct Hx as [res ->]; eauto]
    end.
    rewrite <- (append_empty_r f).
    apply star_loop_Group_NotByte;
      [exact I | | rewrite append_empty_r; lia | exact Hfile].
    intros pos' cs'. rewrite run_EndText. unfold k. eauto. }
  destruct Hsome as [res Hres].
  pose proof (githubRawRe_tail_lazy d file p cs k res Hd Hres) as Htail.
  specialize (Hhead res Htail).
  apply run_sound in Hres as (pos' & s' & cs' & _ & Hframe & Hk).
  unfold k in Hk. injection Hk as <-.
  unfold FindStringSubmatch.
  rewrite (search_first _ _ ((0, take_s (pos' - 0) url) :: cs'))
    by exact Hhead.
  eexists. split; [reflexivity|].
  cbn [map seq nth capture Nat.eqb length].
  rewrite !Hframe by reflexivity. repeat split; reflexivity.
Qed.

(** ** The resolver on a link into a directory *)

(** The resolver's answer for a raw link whose file lies in the directory
    [d], case by case. *)
Lemma parseGithubRawLink_directory (env : Env)
    (owner repo ref d file : string) :
  no_byte slash owner -> owner <> "" ->
  no_byte slash repo -> repo <> "" ->
  no_byte slash ref -> ref <> "" ->
  no_byte newline d -> no_byte slash file -> file <> "" ->
  parseGithubRawLink env (raw_link owner repo ref (d ++ "/") file)
  = match ListBranches env owner repo with
    | inl err => Returns (zero_VersionedGithubPath, Some err)
    | inr branchNames =>
        if Nat.eqb (String.length ref) 40 then
          Returns ({| owner := owner; repo := repo;
                      version := {| __type := "commit"; commit := ref;
                                    tag := ""; branch := "" |};
                      path := d |}, None)
        else if existsb (String.eqb ref) branchNames then
          Returns ({| owner := owner; repo := repo;
                      version := {| __type := "branch"; commit := "";
                                    tag := ""; branch := ref |};
                      path := d |}, None)
        else
          match url_QueryUnescape env ref with
          | inl err => Returns (zero_VersionedGithubPath, Some err)
          | inr tag =>
              Returns ({| owner := owner; repo := repo;
                          version := {| __type := "tag"; commit := "";
                                        tag := tag; branch := "" |};
                          path := d |}, None)
          end
    end.
Proof.
  intros Ho Hone Hr Hrne Hf Hfne Hd Hfile Hfilene.
  destruct (githubRawRe_finds_directory owner repo ref d file)
    as (submatches & Hm & Hlen & H1 & H2 & H3 & H4); try assumption.
  unfold parseGithubRawLink. rewrite Hm.
  rewrite !index_in_range by lia. cbn [obind].
  rewrite H1, H2, H3, H4. reflexivity.
Qed.

Lemma existsb_eqb_In (x : string) (xs : list string) :
  existsb (String.eqb x) xs = true <-> In x xs.
Proof.
  rewrite existsb_exists. split.
  - intros (y & Hy & E). apply String.eqb_eq in E. subst y. exact Hy.
  - intros H. exists x. split; [exact H | apply String.eqb_refl].
Qed.

(** X4. A reference that is a branch of the repository, and is not forty
    bytes long, resolves to that branch; the path is the directory of the
    link without its closing slash. *)
Theorem parseGithubRawLink_branch (env : Env)
    (owner repo ref d file : string) (branchNames : list string) :
  no_byte slash owner -> owner <> "" ->
  no_byte slash repo -> repo <> "" ->
  no_byte slash ref -> ref <> "" ->
  no_byte newline d -> no_byte slash file -> file <> "" ->
  ListBranches env owner repo = inr branchNames ->
  String.length ref <> 40 ->
  In ref branchNames ->
  parseGithubRawLink env (raw_link owner repo ref (d ++ "/") file)
  = Returns ({| owner := owner; repo := repo;
                version := {| __type := "branch"; commit := "";
                              tag := ""; branch := ref |};
                path := d |}, None).
Proof.
  intros Ho Hone Hr Hrne Hf Hfne Hd Hfile Hfilene Hl Hlen Hin.
  rewrite parseGithubRawLink_directory by assumption. rewrite Hl.
  apply Nat.eqb_neq in Hlen. rewrite Hlen.
  apply existsb_eqb_In in Hin. rewrite Hin. reflexivity.
Qed.

Lemma parseGithubRawLink_branch_witness :
  parseGithubRawLink Sample.online Cases.at_main
  = Returns ({| owner := "acme"; repo := "widgets";
                version := {| __type := "branch"; commit := "";
                              tag := ""; branch := "main" |};
                path := "modules/foo" |}, None).
Proof.
  apply (parseGithubRawLink_branch Sample.online "acme" "widgets" "main"
           "modules/foo" "metadata.json" ["main"]).
  all: simpl; repeat split; try discriminate; try lia; auto.
Defined.

(** X5. A reference that is neither forty bytes long nor a branch is taken
    for a tag: the tag is the reference with its percent escapes undone,
    and an escape that cannot be undone is the error of the resolver. *)
Theorem parseGithubRawLink_tag (env : Env)
    (owner repo ref d file : string) (branchNames : list string) :
  no_byte slash owner -> owner <> "" ->
  no_byte slash repo -> repo <> "" ->
  no_byte slash ref -> ref <> "" ->
  no_byte newline d -> no_byte slash file -> file <> "" ->
  ListBranches env owner repo = inr branchNames ->
  String.length ref <> 40 ->
  ~ In ref branchNames ->
  parseGithubRawLink env (raw_link owner repo ref (d ++ "/") file)
  = match url_QueryUnescape env ref with
    | inl err => Returns (zero_VersionedGithubPath, Some err)
    | inr tag =>
        Returns ({| owner := owner; repo := repo;
                    version := {| __type := "tag"; commit := "";
                                  tag := tag; branch := "" |};
                    path := d |}, None)
    end.
Proof.
  intros Ho Hone Hr Hrne Hf Hfne Hd Hfile Hfilene Hl Hlen Hin.
  rewrite parseGithubRawLink_directory by assumption. rewrite Hl.
  apply Nat.eqb_neq in Hlen. rewrite Hlen.
  destruct (existsb (String.eqb ref) branchNames) eqn:E; [|reflexivity].
  apply existsb_eqb_In in E. contradiction.
Qed.

Lemma parseGithubRawLink_tag_witness :
  parseGithubRawLink Sample.online Cases.at_tag
  = Returns ({| owner := "acme"; repo := "widgets";
                version := {| __type := "tag"; commit := "";
                              tag := "v1.2.0"; branch := "" |};
                path := "modules/foo" |}, None).
Proof.
  apply (parseGithubRawLink_tag Sample.online "acme" "widgets" "v1.2.0"
           "modules/foo" "metadata.json" ["main"]).
  all: simpl; repeat split; try discriminate; try lia.
  intros [H | []]. discriminate H.
Defined.

(** X6. A text in which [https://raw] does not occur is no raw link: the
    resolver answers its own error, whatever the network would say. *)
Theorem parseGithubRawLink_unparsable (env : Env) (metadataURL : URL) :
  has_infix "https://raw" metadataURL = false ->
  parseGithubRawLink env metadataURL
  = Returns (zero_VersionedGithubPath,
             Some (errors_New "URL cannot be parsed")).
Proof.
  intros H. unfold parseGithubRawLink, FindStringSubmatch, githubRawRe.
  rewrite search_Lit_none by exact H. reflexivity.
Qed.

Lemma parseGithubRawLink_unparsable_witness :
  parseGithubRawLink Sample.online
    "https://github.com/acme/widgets/blob/main/metadata.json"
  = Returns (zero_VersionedGithubPath,
             Some (errors_New "URL cannot be parsed")).
Proof.
  apply (parseGithubRawLink_unparsable Sample.online
           "https://github.com/acme/widgets/blob/main/metadata.json").
  reflexivity.
Defined.

(** X7. For a link at a branch the installer asks for the archive of
    [refs/heads/<branch>] of the repository, and hands its body to the
    extractor with the pattern made of the directory; a directory that
    does not make a valid pattern is a run-time panic, after the archive
    was fetched. *)
Theorem downloadModuleInStore_branch (env : Env)
    (owner repo ref d file : string) (branchNames : list string)
    (sid : StoreIdentifier) (res : Response) (w : World) :
  no_byte slash owner -> owner <> "" ->
  no_byte slash repo -> repo <> "" ->
  no_byte slash ref -> ref <> "" ->
  no_byte newline d -> no_byte slash file -> file <> "" ->
  ListBranches env owner repo = inr branchNames ->
  String.length ref <> 40 ->
  In ref branchNames ->
  http_Get env ("https://github.com/" ++ owner ++ "/" ++ repo
                  ++ "/archive/refs/heads/" ++ ref ++ ".tar.gz") = inr res ->
  downloadModuleInStore env (raw_link owner repo ref (d ++ "/") file) sid w
  = if regexp_compiles env ("^[^/]+/" ++ d ++ "(.*)") then
      UnTarGZ env (Body res) ("^[^/]+/" ++ d ++ "(.*)")
        (si_toFilePath env sid) w
    else (Panics (RegexpCompile ("^[^/]+/" ++ d ++ "(.*)")), w).
Proof.
  intros Ho Hone Hr Hrne Hf Hfne Hd Hfile Hfilene Hl Hlen Hin Hget.
  unfold downloadModuleInStore, bind, lift.
  rewrite parseGithubRawLink_directory by assumption. rewrite Hl.
  apply Nat.eqb_neq in Hlen. rewrite Hlen.
  apply existsb_eqb_In in Hin. rewrite Hin.
  cbn [fst snd path].
  replace (getRepoArchiveLink _)
    with ("https://github.com/" ++ owner ++ "/" ++ repo
            ++ "/archive/refs/heads/" ++ ref ++ ".tar.gz").
  2:{ unfold getRepoArchiveLink. cbn.
      rewrite !append_assoc_s, !append_cons, !append_nil. reflexivity. }
  rewrite Hget. unfold regexp_MustCompile.
  destruct (regexp_compiles env _); reflexivity.
Qed.

Lemma downloadModuleInStore_branch_witness :
  let w := Sample.world (Document (Sample.two_versions "")) ∅ in
  downloadModuleInStore Sample.online Cases.at_main (Sample.id "1.0.0") w
  = UnTarGZ Sample.online "body" "^[^/]+/modules/foo(.*)"
      "/cfg/store/acme/widgets/1.0.0" w.
Proof.
  apply (downloadModuleInStore_branch Sample.online "acme" "widgets" "main"
           "modules/foo" "metadata.json" ["main"] (Sample.id "1.0.0")
           {| StatusCode := 200; Body := "body" |}).
  all: simpl; repeat split; try discriminate; try lia; auto.
Defined.

(** ** The protocol handler *)

(** A greedy run of [.] takes all of [w] when [w] is free of line breaks
    and what follows is the end of the text or a line break. *)
Lemma star_loop_AnyByte_greedy k res rest cs :
  stops newline rest ->
  forall w fuel pos,
    String.length w <= fuel -> no_byte newline w ->
    k (pos + String.length w) rest cs = Some res ->
    star_loop (run AnyByte) true k fuel pos (w ++ rest) cs = Some res.
Proof.
  intros Hstop. induction w as [|a w IH]; intros fuel pos Hfuel Hw Hk.
  - rewrite append_nil. simpl in Hk. rewrite Nat.add_0_r in Hk.
    destruct fuel; simpl; [exact Hk|].
    destruct rest as [|b rest]; simpl; [exact Hk|].
    simpl in Hstop. subst b. rewrite byte_eqb_refl. exact Hk.
  - rewrite append_cons. simpl in Hfuel.
    destruct fuel as [|fuel]; [lia|]. destruct Hw as [Ha Hw].
    simpl. apply byte_eqb_neq in Ha. rewrite Ha.
    assert (Hlt : Nat.ltb pos (S pos) = true) by (apply Nat.ltb_lt; lia).
    rewrite Hlt. rewrite IH; [reflexivity | lia | exact Hw |].
    rewrite <- Hk. f_equal. simpl. lia.
Qed.

(** On [bespoke:<action>:<args>] the pattern answers the action and the
    arguments; the arguments may hold colons and end at the first line
    break. *)
Lemma protocolRe_finds action args rest :
  no_byte Cmd.colon action -> action <> "" ->
  no_byte newline args -> stops newline rest ->
  FindStringSubmatch 3 Cmd.protocolRe
    ("bespoke:" ++ action ++ String Cmd.colon (args ++ rest))
  = Some ["bespoke:" ++ action ++ String Cmd.colon args;
          action; String Cmd.colon args; args].
Proof.
  intros Ha Hane Hargs Hrest. unfold FindStringSubmatch.
  rewrite (search_first _ _
             [(0, "bespoke:" ++ action ++ String Cmd.colon args);
              (2, String Cmd.colon args); (3, args); (1, action)]);
    [reflexivity|].
  unfold match_at, Cmd.protocolRe.
  rewrite run_Seq, run_Lit, run_Seq.
  apply run_group_plus_NotByte; [reflexivity | assumption..|].
  unfold Quest. rewrite run_Alt, run_Group, run_Seq, run_Byte, run_Group.
  rewrite run_Star.
  rewrite (star_loop_AnyByte_greedy _
             [(0, "bespoke:" ++ action ++ String Cmd.colon args);
              (2, String Cmd.colon args); (3, args); (1, action)]);
    [reflexivity | exact Hrest | rewrite length_append; lia | exact Hargs |].
  set (p := 0 + String.length "bespoke:" + String.length action).
  replace (S p + String.length args - S p) with (String.length args) by lia.
  replace (S p + String.length args - p) with (S (String.length args)) by lia.
  replace (S p + String.length args - 0)
    with (String.length ("bespoke:" ++ action ++ String Cmd.colon args)).
  2:{ unfold p. rewrite !length_append. simpl. lia. }
  cbn [take_s]. rewrite take_s_append.
  replace ("bespoke:" ++ action ++ String Cmd.colon (args ++ rest))
    with (("bespoke:" ++ action ++ String Cmd.colon args) ++ rest).
  2:{ rewrite !append_assoc_s, append_cons. reflexivity. }
  rewrite take_s_append. reflexivity.
Qed.

(** On [bespoke:<action>] the submatch of the arguments is empty. *)
Lemma protocolRe_finds_action action :
  no_byte Cmd.colon action -> action <> "" ->
  FindStringSubmatch 3 Cmd.protocolRe ("bespoke:" ++ action)
  = Some ["bespoke:" ++ action; action; ""; ""].
Proof.
  intros Ha Hane. unfold FindStringSubmatch.
  rewrite (search_first _ _ [(0, "bespoke:" ++ action); (1, action)]);
    [reflexivity|].
  unfold match_at, Cmd.protocolRe.
  rewrite run_Seq, run_Lit, run_Seq.
  rewrite <- (append_empty_r action) at 1.
  apply run_group_plus_NotByte; [exact I | assumption..|].
  unfold Quest. rewrite run_Alt, run_Group, run_Seq. cbn [run].
  do 3 f_equal.
  replace (0 + String.length "bespoke:" + String.length action - 0)
    with (String.length ("bespoke:" ++ action))
    by (rewrite length_append; simpl; lia).
  apply take_s_all.
Qed.

Section ProtocolProperties.
Context (add remove : string -> M (option error)).
Context (toggle : string -> bool -> M (option error)).
Context (unsupported : error).

Lemma HandleProtocol_found message whole action group arguments :
  FindStringSubmatch 3 Cmd.protocolRe message
  = Some [whole; action; group; arguments] ->
  Cmd.HandleProtocol add remove toggle unsupported message
  = if String.eqb action "add" then add arguments
    else if String.eqb action "remove" then remove arguments
    else if String.eqb action "enable" then toggle arguments true
    else if String.eqb action "disable" then toggle arguments false
    else ret (Some unsupported).
Proof.
  intros H. unfold Cmd.HandleProtocol. rewrite H.
  unfold bind, lift, index. cbn -[String.eqb].
  destruct (String.eqb action "add"); [reflexivity|].
  destruct (String.eqb action "remove"); [reflexivity|].
  destruct (String.eqb action "enable"); [reflexivity|].
  destruct (String.eqb action "disable"); reflexivity.
Qed.

(** X26. A message [bespoke:<action>:<arguments>] is handed to the function
    of its action with the arguments as they stand: they may hold colons,
    and they end at the first line break.  An action that is none of the
    four is answered with the error of an unsupported operation. *)
Theorem HandleProtocol_dispatch (arguments rest : string) :
  no_byte newline arguments -> stops newline rest ->
  Cmd.HandleProtocol add remove toggle unsupported
    ("bespoke:add:" ++ arguments ++ rest) = add arguments
  /\ Cmd.HandleProtocol add remove toggle unsupported
       ("bespoke:remove:" ++ arguments ++ rest) = remove arguments
  /\ Cmd.HandleProtocol add remove toggle unsupported
       ("bespoke:enable:" ++ arguments ++ rest) = toggle arguments true
  /\ Cmd.HandleProtocol add remove toggle unsupported
       ("bespoke:disable:" ++ arguments ++ rest) = toggle arguments false
  /\ (forall action,
        no_byte Cmd.colon action -> action <> "" ->
        action <> "add" -> action <> "remove" ->
        action <> "enable" -> action <> "disable" ->
        Cmd.HandleProtocol add remove toggle unsupported
          ("bespoke:" ++ action ++ String Cmd.colon (arguments ++ rest))
        = ret (Some unsupported)).
Proof.
  intros Hargs Hrest.
  assert (H : forall action,
    no_byte Cmd.colon action -> action <> "" ->
    Cmd.HandleProtocol add remove toggle unsupported
      ("bespoke:" ++ action ++ String Cmd.colon (arguments ++ rest))
    = if String.eqb action "add" then add arguments
      else if String.eqb action "remove" then remove arguments
      else if String.eqb action "enable" then toggle arguments true
      else if String.eqb action "disable" then toggle arguments false
      else ret (Some unsupported)).
  { intros action Ha Hane. eapply HandleProtocol_found.
    apply protocolRe_finds; assumption. }
  repeat split.
  - apply (H "add"); [simpl; repeat split|]; discriminate.
  - apply (H "remove"); [simpl; repeat split|]; discriminate.
  - apply (H "enable"); [simpl; repeat split|]; discriminate.
  - apply (H "disable"); [simpl; repeat split|]; discriminate.
  - intros action Ha Hane H1 H2 H3 H4. rewrite H by assumption.
    apply String.eqb_neq in H1, H2, H3, H4. rewrite H1, H2, H3, H4.
    reflexivity.
Qed.

(** X27. A message [bespoke:<action>] with nothing after the action is
    handled as the message with an empty argument part. *)
Theorem HandleProtocol_no_arguments (action : string) :
  no_byte Cmd.colon action -> action <> "" ->
  Cmd.HandleProtocol add remove toggle unsupported ("bespoke:" ++ action)
  = Cmd.HandleProtocol add remove toggle unsupported
      ("bespoke:" ++ action ++ ":").
Proof.
  intros Ha Hane.
  pose proof (HandleProtocol_found _ _ _ _ _
                (protocolRe_finds_action action Ha Hane)) as H1.
  pose proof (HandleProtocol_found _ _ _ _ _
                (protocolRe_finds action "" "" Ha Hane I I)) as H2.
  rewrite append_nil in H2. rewrite H1. symmetry. exact H2.
Qed.

(** X28. A message in which [bespoke:] does not occur is malformed: the
    error is returned, no function of package [module] is called and the
    file system is left alone. *)
Theorem HandleProtocol_malformed (message : string) (w : World) :
  has_infix "bespoke:" message = false ->
  Cmd.HandleProtocol add remove toggle unsupported message w
  = (Returns (Some (errors_New "malformed uri")), w).
Proof.
  intros H. unfold Cmd.HandleProtocol, FindStringSubmatch, Cmd.protocolRe.
  rewrite search_Lit_none by exact H. reflexivity.
Qed.
End ProtocolProperties.

Lemma HandleProtocol_dispatch_witness :
  Cmd.HandleProtocol Cases.add Cases.remove Cases.toggle Cases.unsupported
    "bespoke:enable:acme/widgets/1.0.0"
  = Cases.toggle "acme/widgets/1.0.0" true.
Proof.
  apply (HandleProtocol_dispatch Cases.add Cases.remove Cases.toggle
           Cases.unsupported "acme/widgets/1.0.0" "").
  all: simpl; repeat split; discriminate.
Defined.

Lemma HandleProtocol_no_arguments_witness :
  Cmd.HandleProtocol Cases.add Cases.remove Cases.toggle Cases.unsupported
    "bespoke:remove"
  = Cmd.HandleProtocol Cases.add Cases.remove Cases.toggle Cases.unsupported
      "bespoke:remove:".
Proof.
  apply (HandleProtocol_no_arguments Cases.add Cases.remove Cases.toggle
           Cases.unsupported "remove").
  all: simpl; repeat split; discriminate.
Defined.

Lemma HandleProtocol_malformed_witness :
  Cmd.HandleProtocol Cases.add Cases.remove Cases.toggle Cases.unsupported
    "spicetify:enable:acme/widgets/1.0.0" (Sample.world NoFile ∅)
  = (Returns (Some (errors_New "malformed uri")), Sample.world NoFile ∅).
Proof.
  apply (HandleProtocol_malformed Cases.add Cases.remove Cases.toggle
           Cases.unsupported "spicetify:enable:acme/widgets/1.0.0").
  reflexivity.
Defined.

(** ** Identifiers from the command line *)

(** On [<author>/<name>/<version>] the pattern answers the whole text,
    then [<author>/<name>], then the version. *)
Lemma storeIdentifierRe_finds a n v :
  no_byte slash a -> a <> "" -> no_byte slash n -> n <> "" ->
  no_byte slash v ->
  FindStringSubmatch 2 storeIdentifierRe
    (a ++ String slash (n ++ String slash v))
  = Some [a ++ String slash (n ++ String slash v); a ++ String slash n; v].
Proof.
  intros Ha Hane Hn Hnne Hv. unfold FindStringSubmatch.
  rewrite (search_first _ _
             [(0, a ++ String slash (n ++ String slash v)); (2, v);
              (1, a ++ String slash n)]); [reflexivity|].
  unfold match_at, storeIdentifierRe.
  rewrite run_Seq, run_BeginText, run_Seq, run_Group, run_Seq.
  apply run_plus_NotByte_greedy; [reflexivity | assumption..|].
  rewrite run_Seq, run_Byte.
  apply run_plus_NotByte_greedy; [reflexivity | assumption..|].
  rewrite run_Seq, run_Byte, run_Seq, run_Group.
  rewrite <- (append_empty_r v) at 1.
  apply run_star_NotByte_greedy; [exact I | assumption |].
  rewrite run_EndText.
  set (pn := S (0 + String.length a) + String.length n).
  replace (S pn + String.length v - S pn) with (String.length v) by lia.
  replace (pn - 0) with (String.length (a ++ String slash n))
    by (unfold pn; rewrite length_append; simpl; lia).
  replace (S pn + String.length v - 0)
    with (String.length (a ++ String slash (n ++ String slash v)))
    by (unfold pn; rewrite !length_append; simpl; rewrite length_append;
        simpl; lia).
  rewrite !take_s_all.
  replace (a ++ String slash (n ++ String slash v))
    with ((a ++ String slash n) ++ String slash v) at 2
    by (rewrite append_assoc_s, append_cons; reflexivity).
  rewrite take_s_append. reflexivity.
Qed.

(** X1. A text of the shape [<author>/<name>/<version>] is matched by the
    pattern of store identifiers, and still [NewStoreIdentifier] does not
    return: it hands the whole match, not the first group, to
    [NewModuleIdentifier], which panics on a text with two slashes. *)
Theorem NewStoreIdentifier_well_shaped_panics (a n v : string) :
  no_byte slash a -> a <> "" -> no_byte slash n -> n <> "" ->
  no_byte slash v ->
  let s := a ++ String slash (n ++ String slash v) in
  FindStringSubmatch 2 storeIdentifierRe s
  = Some [s; a ++ String slash n; v]
  /\ NewModuleIdentifier s = Panics (IndexOutOfRange 0 0)
  /\ NewStoreIdentifier s = Panics (IndexOutOfRange 0 0).
Proof.
  intros Ha Hane Hn Hnne Hv s.
  assert (Hm : NewModuleIdentifier s = Panics (IndexOutOfRange 0 0)).
  { apply NewModuleIdentifier_malformed. unfold s, is_module_shape.
    rewrite !segments_app by assumption.
    rewrite segments_no_slash by assumption. reflexivity. }
  pose proof (storeIdentifierRe_finds a n v Ha Hane Hn Hnne Hv) as Hf.
  split; [exact Hf | split; [exact Hm|]].
  unfold NewStoreIdentifier. fold s in Hf. rewrite Hf.
  cbn [default id index nth_error obind]. rewrite Hm. reflexivity.
Qed.

Lemma NewStoreIdentifier_well_shaped_panics_witness :
  FindStringSubmatch 2 storeIdentifierRe "acme/widgets/1.0.0"
  = Some ["acme/widgets/1.0.0"; "acme/widgets"; "1.0.0"]
  /\ NewModuleIdentifier "acme/widgets/1.0.0" = Panics (IndexOutOfRange 0 0)
  /\ NewStoreIdentifier "acme/widgets/1.0.0" = Panics (IndexOutOfRange 0 0).
Proof.
  apply (NewStoreIdentifier_well_shaped_panics "acme" "widgets" "1.0.0").
  all: simpl; repeat split; discriminate.
Defined.

Lemma NewModuleIdentifier_well_shaped_witness :
  NewModuleIdentifier "acme/widgets"
  = Returns {| mi_Author := "acme/widgets"; mi_Name := "acme" |}.
Proof.
  apply (NewModuleIdentifier_well_shaped "acme" "widgets").
  all: simpl; repeat split; discriminate.
Defined.

(** X3. The commands [rem], [enable] and [disable] of [pkg] end in a
    run-time panic whatever their argument is, before the vault, the links
    or the store are touched. *)
Theorem pkg_commands_panic (env : Env) (arg : string) (w : World) :
  Cmd.pkgDeleteCmd_Run env [arg] w = (Panics (IndexOutOfRange 0 0), w)
  /\ Cmd.pkgEnableCmd_Run env [arg] w = (Panics (IndexOutOfRange 0 0), w)
  /\ Cmd.pkgDisableCmd_Run env [arg] w = (Panics (IndexOutOfRange 0 0), w).
Proof.
  unfold Cmd.pkgDeleteCmd_Run, Cmd.pkgEnableCmd_Run, Cmd.pkgDisableCmd_Run,
    bind, lift.
  cbn [index nth_error]. rewrite NewStoreIdentifier_panics.
  repeat split; reflexivity.
Qed.

(** ** The vault: load, look up, update, save *)

Lemma deref_decode (j : JVault) a n :
  deref (decode j) (a, n)
  = match persisted (Document j) {| mi_Author := a; mi_Name := n |} with
    | Some jbv => jMetadatas jbv
    | None => None
    end.
Proof.
  unfold deref, persisted. cbn [fst snd mi_Author mi_Name].
  rewrite objects_decode. destruct (j !! a) as [names|]; cbn; [|reflexivity].
  rewrite lookup_omap. destruct (names !! n); reflexivity.
Qed.

(** X8. Saving the vault that was just loaded writes the document that was
    read: decoding and encoding lose nothing, also when a version mapping
    is null or a module has no version. *)
Theorem GetVault_SetVault_round_trip (env : Env) (j : JVault) (w : World) :
  vault_file w = Document j ->
  (let* r := GetVault env in SetVault env r.1) w
  = (Returns None, write_vault_file j w).
Proof.
  intros Hf. unfold GetVault, os_Open, json_Decode_Vault, bind, ret.
  rewrite Hf. cbn [fst snd].
  rewrite SetVault_writes, encode_decode. reflexivity.
Qed.

Lemma GetVault_SetVault_round_trip_witness :
  (let* r := GetVault Sample.online in SetVault Sample.online r.1)
    (Sample.world (Document Cases.nil_map) ∅)
  = (Returns None,
     write_vault_file Cases.nil_map (Sample.world (Document Cases.nil_map) ∅)).
Proof.
  apply (GetVault_SetVault_round_trip Sample.online Cases.nil_map).
  reflexivity.
Defined.


Lemma deref_alter_eq (v : Vault) f a n :
  deref {| Modules := Modules v;
           objects := alter (alter f n) a (objects v) |} (a, n)
  = f <$> deref v (a, n).
Proof.
  unfold deref. cbn [fst snd objects]. rewrite lookup_alter_eq.
  destruct (objects v !! a) as [names|]; cbn; [|reflexivity].
  rewrite lookup_alter_eq. reflexivity.
Qed.

Lemma deref_alter_ne (v : Vault) f a n a' n' :
  (a', n') <> (a, n) ->
  deref {| Modules := Modules v;
           objects := alter (alter f n) a (objects v) |} (a', n')
  = deref v (a', n').
Proof.
  intros Hne. unfold deref. cbn [fst snd objects].
  destruct (decide (a' = a)) as [->|Ha].
  - rewrite lookup_alter_eq.
    destruct (objects v !! a) as [names|]; cbn; [|reflexivity].
    rewrite lookup_alter_ne by congruence. reflexivity.
  - rewrite lookup_alter_ne by congruence. reflexivity.
Qed.

(** X9. On a loaded vault that knows the module with a version mapping,
    [setModule] with a non-empty version accepts, and [getModule] then
    finds the record that was set; the record of every other module or
    version is found, or not found, as before. *)
Theorem setModule_getModule (j : JVault) (m : Metadata) (x : MetadataURL)
    (mi : ModuleIdentifier) (jbv : JByVersions) :
  getModuleIdentifier m = Returns mi ->
  md_Version m <> "" ->
  persisted (Document j) mi = Some jbv ->
  is_Some (jMetadatas jbv) ->
  exists v',
    setModule (decode j) m x = Returns (true, v')
    /\ getModule v' m = Returns (x, true)
    /\ (forall m' mi',
          getModuleIdentifier m' = Returns mi' ->
          mi' <> mi \/ md_Version m' <> md_Version m ->
          getModule v' m' = getModule (decode j) m').
Proof.
  intros Hmi Hver Hp [ms Hms]. destruct mi as [a n].
  exists {| Modules := Modules (decode j);
            objects := alter (alter (insert (md_Version m) x) n) a
                         (objects (decode j)) |}.
  assert (Hlen : Nat.eqb (String.length (md_Version m)) 0 = false)
    by (destruct (md_Version m); [congruence | reflexivity]).
  split; [|split].
  - unfold setModule. rewrite Hlen, Hmi. cbn [obind].
    rewrite getAllModuleVersions_decode, Hp. cbn [negb].
    unfold decode_ByVersions. rewrite Hms. reflexivity.
  - unfold getModule. rewrite Hmi. cbn [obind].
    unfold getAllModuleVersions at 1. cbn [Modules].
    fold (getAllModuleVersions (decode j) {| mi_Author := a; mi_Name := n |}).
    rewrite getAllModuleVersions_decode, Hp. cbn [negb].
    unfold decode_ByVersions. rewrite Hms. cbn [Metadatas mi_Author mi_Name].
    unfold map_get. rewrite deref_alter_eq, deref_decode, Hp, Hms. cbn.
    rewrite lookup_insert_eq. reflexivity.
  - intros m' [a' n'] Hmi' Hne. unfold getModule. rewrite Hmi'. cbn [obind].
    unfold getAllModuleVersions at 1. cbn [Modules].
    fold (getAllModuleVersions (decode j)
            {| mi_Author := a'; mi_Name := n' |}).
    rewrite getAllModuleVersions_decode.
    destruct (persisted (Document j) {| mi_Author := a'; mi_Name := n' |})
      as [jbv'|] eqn:Hp'; cbn [negb]; [|reflexivity].
    f_equal. unfold decode_ByVersions. cbn [Metadatas mi_Author mi_Name].
    destruct (jMetadatas jbv') as [ms'|] eqn:Hms'; [|reflexivity].
    unfold map_get.
    destruct (decide ((a', n') = (a, n))) as [[= -> ->]|Hpair].
    + rewrite deref_alter_eq, deref_decode, Hp, Hms. cbn.
      destruct Hne as [Hne|Hne]; [congruence|].
      rewrite lookup_insert_ne by congruence. reflexivity.
    + rewrite deref_alter_ne by exact Hpair. reflexivity.
Qed.

Lemma setModule_getModule_witness :
  exists v',
    setModule (decode (Sample.two_versions ""))
      (Sample.metadata ["acme"] "3.0.0") Sample.record = Returns (true, v')
    /\ getModule v' (Sample.metadata ["acme"] "3.0.0")
       = Returns (Sample.record, true)
    /\ (forall m' mi',
          getModuleIdentifier m' = Returns mi' ->
          mi' <> Sample.acme_widgets
          \/ md_Version m' <> md_Version (Sample.metadata ["acme"] "3.0.0") ->
          getModule v' m' = getModule (decode (Sample.two_versions "")) m').
Proof.
  apply (setModule_getModule (Sample.two_versions "")
           (Sample.metadata ["acme"] "3.0.0") Sample.record
           Sample.acme_widgets
           {| jEnabled := "";
              jMetadatas := Some {[ "1.0.0" := Sample.record;
                                    "2.0.0" := Sample.record ]} |}).
  - reflexivity.
  - discriminate.
  - vm_compute. reflexivity.
  - simpl. eauto.
Defined.

(** X10. On a loaded vault that satisfies I1, a module with a non-empty
    [Enabled] has an enabled record: [getEnabledModule] finds the record
    the vault file keeps for that version. *)
Theorem getEnabledModule_I1 (j : JVault) (mi : ModuleIdentifier)
    (jbv : JByVersions) :
  I1 (Document j) ->
  persisted (Document j) mi = Some jbv ->
  jEnabled jbv <> "" ->
  exists x,
    getEnabledModule (decode j) mi = (x, true)
    /\ persisted_record (Document j)
         {| si_ModuleIdentifier := mi; si_Version := jEnabled jbv |} = Some x.
Proof.
  intros HI Hp Hen. destruct mi as [a n].
  destruct (persisted_Document _ _ _ Hp) as (j' & names & [= <-] & Ha & Hn).
  pose proof (map_Forall_lookup_1 _ _ _ _ HI Ha) as Hnames.
  pose proof (map_Forall_lookup_1 _ _ _ _ Hnames Hn) as Hbv.
  cbn beta in Hbv. unfold I1_entry in Hbv.
  apply String.eqb_neq in Hen. rewrite Hen in Hbv. cbn [orb] in Hbv.
  destruct (jMetadatas jbv) as [ms|] eqn:Hms; [|discriminate].
  apply bool_decide_eq_true in Hbv as [x Hx].
  exists x. split.
  - unfold getEnabledModule. rewrite getAllModuleVersions_decode, Hp.
    cbn [negb]. unfold decode_ByVersions. rewrite Hms.
    cbn [Metadatas Enabled mi_Author mi_Name]. unfold map_get.
    rewrite deref_decode, Hp, Hms, Hx. reflexivity.
  - unfold persisted_record. cbn [si_ModuleIdentifier si_Version].
    rewrite Hp, Hms. exact Hx.
Qed.

Lemma getEnabledModule_I1_witness :
  exists x,
    getEnabledModule (decode (Sample.two_versions "1.0.0"))
      Sample.acme_widgets = (x, true)
    /\ persisted_record (Document (Sample.two_versions "1.0.0"))
         (Sample.id "1.0.0") = Some x.
Proof.
  apply (getEnabledModule_I1 (Sample.two_versions "1.0.0")
           Sample.acme_widgets
           {| jEnabled := "1.0.0";
              jMetadatas := Some {[ "1.0.0" := Sample.record;
                                    "2.0.0" := Sample.record ]} |}).
  - unfold I1, Sample.two_versions.
    apply map_Forall_singleton, map_Forall_singleton. vm_compute. reflexivity.
  - vm_compute. reflexivity.
  - discriminate.
Defined.

(** ** Toggle *)

(** X12. Whatever its arguments and its outcome, [ToggleModuleInVault]
    leaves the document of the vault file and the store as they are, and
    touches no link but the one at the path of the module. *)
Theorem ToggleModuleInVault_footprint (env : Env)
    (identifier : StoreIdentifier) (enabled : bool) (w : World) :
  let r := ToggleModuleInVault env identifier enabled w in
  vault_file r.2 = vault_file w
  /\ store r.2 = store w
  /\ (forall p,
        p <> mi_toFilePath env (si_ModuleIdentifier identifier) ->
        links r.2 !! p = links w !! p).
Proof.
  cbv zeta. split; [apply ToggleModuleInVault_vault_file|].
  unfold ToggleModuleInVault, GetVault, os_Open, json_Decode_Vault, bind, ret.
  destruct (vault_file w) as [| |j] eqn:Hf; cbn [fst snd]; [auto..|].
  rewrite getAllModuleVersions_decode.
  destruct (persisted _ _) as [jbv|]; cbn [negb]; [|auto].
  unfold createSymlink, destroySymlink, os_Symlink, os_Remove, SetVault,
    json_Marshal, os_MkdirAll, os_WriteFile, bind, ret.
  destruct enabled; [|destruct (String.eqb _ _); [|auto]];
    destruct (links w !! _) eqn:E; cbn; split; try reflexivity;
    intros p Hp; rewrite ?lookup_insert_ne, ?lookup_delete_ne by congruence;
    reflexivity.
Qed.

(** X13. On a vault that does not know the module, or cannot be read,
    [ToggleModuleInVault] returns an error and changes nothing: the error
    of the load, or the one that names the identifier. *)
Theorem ToggleModuleInVault_unknown_module (env : Env)
    (identifier : StoreIdentifier) (enabled : bool) (w : World) :
  persisted (vault_file w) (si_ModuleIdentifier identifier) = None ->
  ToggleModuleInVault env identifier enabled w
  = (Returns (Some (default
                      (errors_New ("no modules with identifier "
                                     ++ si_toPath env identifier))
                      (load_error env (vault_file w)))), w).
Proof.
  intros Hp.
  unfold ToggleModuleInVault, GetVault, os_Open, json_Decode_Vault, bind, ret.
  destruct (vault_file w) as [| |j] eqn:Hf; cbn [fst snd]; [reflexivity..|].
  rewrite getAllModuleVersions_decode, Hp. reflexivity.
Qed.

Lemma ToggleModuleInVault_unknown_module_witness :
  ToggleModuleInVault Sample.online (Sample.id "1.0.0") true
    (Sample.world (Document ∅) ∅)
  = (Returns (Some (errors_New
                      "no modules with identifier acme/widgets/1.0.0")),
     Sample.world (Document ∅) ∅).
Proof.
  apply (ToggleModuleInVault_unknown_module Sample.online (Sample.id "1.0.0")
           true (Sample.world (Document ∅) ∅)).
  reflexivity.
Defined.

(** X14. Disabling a version that is not the one the vault file has as
    [Enabled] does nothing at all: no link is removed and the vault file
    is not written. *)
Theorem ToggleModuleInVault_disable_other (env : Env)
    (identifier : StoreIdentifier) (w : World) (jbv : JByVersions) :
  persisted (vault_file w) (si_ModuleIdentifier identifier) = Some jbv ->
  jEnabled jbv <> si_Version identifier ->
  ToggleModuleInVault env identifier false w = (Returns None, w).
Proof.
  intros Hp Hen.
  destruct (persisted_Document _ _ _ Hp) as (j & names & Hf & Ha & Hn).
  unfold ToggleModuleInVault, GetVault, os_Open, json_Decode_Vault, bind, ret.
  rewrite Hf in Hp |- *. cbn [fst snd].
  rewrite getAllModuleVersions_decode, Hp.
  cbn [negb decode_ByVersions Enabled].
  apply String.eqb_neq in Hen. rewrite Hen. reflexivity.
Qed.

Lemma ToggleModuleInVault_disable_other_witness :
  ToggleModuleInVault Sample.online (Sample.id "1.0.0") false
    (Sample.world (Document (Sample.two_versions "")) (Sample.linked "1.0.0"))
  = (Returns None,
     Sample.world (Document (Sample.two_versions "")) (Sample.linked "1.0.0")).
Proof.
  apply (ToggleModuleInVault_disable_other Sample.online (Sample.id "1.0.0")
           (Sample.world (Document (Sample.two_versions ""))
              (Sample.linked "1.0.0"))
           {| jEnabled := "";
              jMetadatas := Some {[ "1.0.0" := Sample.record;
                                    "2.0.0" := Sample.record ]} |}).
  - vm_compute. reflexivity.
  - discriminate.
Defined.


Lemma ToggleModuleInVault_disable_link_witness :
  let w := Sample.world (Document (Sample.two_versions "1.0.0"))
             (Sample.linked "1.0.0") in
  let r := ToggleModuleInVault Sample.online (Sample.id "1.0.0") false w in
  r.1 = Returns None
  /\ links r.2 !! mi_toFilePath Sample.online Sample.acme_widgets = None.
Proof.
  apply (ToggleModuleInVault_disable_link Sample.online (Sample.id "1.0.0")
           (Sample.world (Document (Sample.two_versions "1.0.0"))
              (Sample.linked "1.0.0"))
           {| jEnabled := "1.0.0";
              jMetadatas := Some {[ "1.0.0" := Sample.record;
                                    "2.0.0" := Sample.record ]} |}).
  - vm_compute. reflexivity.
  - reflexivity.
Defined.

(** ** Remove *)

Lemma persisted_alter (j : JVault) a n g mi :
  persisted (Document (alter (alter g n) a j)) mi
  = if decide (mi = {| mi_Author := a; mi_Name := n |})
    then g <$> persisted (Document j) mi
    else persisted (Document j) mi.
Proof.
  destruct mi as [a' n']. unfold persisted. cbn [mi_Author mi_Name].
  destruct (decide (_ = _)) as [[= -> ->]|Hne].
  - rewrite lookup_alter_eq. destruct (j !! a) as [names|]; cbn; [|reflexivity].
    rewrite lookup_alter_eq. reflexivity.
  - destruct (decide (a' = a)) as [->|Ha].
    + rewrite lookup_alter_eq.
      destruct (j !! a) as [names|]; cbn; [|reflexivity].
      rewrite lookup_alter_ne by congruence. reflexivity.
    + rewrite lookup_alter_ne by congruence. reflexivity.
Qed.

(** The record of a version after a change of one version mapping. *)
Lemma persisted_record_alter (j : JVault) a n f sid :
  persisted_record (Document (alter (alter (on_metadatas f) n) a j)) sid
  = if decide (si_ModuleIdentifier sid = {| mi_Author := a; mi_Name := n |})
    then match persisted (Document j) (si_ModuleIdentifier sid) with
         | Some jbv =>
             match jMetadatas jbv with
             | Some m => f m !! si_Version sid
             | None => None
             end
         | None => None
         end
    else persisted_record (Document j) sid.
Proof.
  unfold persisted_record. rewrite persisted_alter.
  destruct (decide (_ = _)); [|reflexivity].
  destruct (persisted (Document j) _) as [[en [m|]]|]; reflexivity.
Qed.

(** X17. Removing a version of a module the vault does not know, or from
    a vault that cannot be read, is refused, and nothing is changed: what
    lies at the store path of the version stays there. *)
Theorem DeleteModule_unknown_module (env : Env)
    (identifier : StoreIdentifier) (w : World) :
  persisted (vault_file w) (si_ModuleIdentifier identifier) = None ->
  DeleteModule env identifier w
  = (Returns (Some (refusal env (vault_file w))), w).
Proof.
  intros Hp. unfold DeleteModule, RemoveModuleInVault, bind.
  rewrite MutateVault_refused; [reflexivity|].
  intros j Hf. exists (decode j).
  rewrite getAllModuleVersions_decode, <- Hf, Hp. reflexivity.
Qed.

Lemma DeleteModule_unknown_module_witness :
  let w := with_store {[ "/cfg/store/acme/widgets/1.0.0" ]}
             (Sample.world (Document ∅) ∅) in
  DeleteModule Sample.online (Sample.id "1.0.0") w
  = (Returns (Some (refusal Sample.online (vault_file w))), w).
Proof.
  apply (DeleteModule_unknown_module Sample.online (Sample.id "1.0.0")).
  reflexivity.
Defined.

(** What [DeleteModule] leaves on a vault that knows the module. *)
Lemma DeleteModule_present (env : Env) identifier w j jbv :
  vault_file w = Document j ->
  persisted (Document j) (si_ModuleIdentifier identifier) = Some jbv ->
  DeleteModule env identifier w
  = (Returns None,
     {| vault_file :=
          Document (alter (alter (on_metadatas (delete (si_Version identifier)))
                             (mi_Name (si_ModuleIdentifier identifier)))
                      (mi_Author (si_ModuleIdentifier identifier)) j);
        vault_writes := S (vault_writes w);
        links :=
          if String.eqb (jEnabled jbv) (si_Version identifier)
          then delete (mi_toFilePath env (si_ModuleIdentifier identifier))
                 (links w)
          else links w;
        store := filter (fun q => under (si_toFilePath env identifier) q = false)
                   (store w) |}).
Proof.
  intros Hf Hp.
  destruct (persisted_Document _ _ _ Hp) as (j' & names & [= <-] & Ha & Hn).
  unfold DeleteModule, RemoveModuleInVault, MutateVault, GetVault, os_Open,
    json_Decode_Vault, bind, ret. rewrite Hf.
  cbn [fst snd]. rewrite getAllModuleVersions_decode, Hp. cbn [negb].
  unfold destroySymlink, os_Remove, SetVault, json_Marshal, os_MkdirAll,
    os_WriteFile, deleteModuleInStore, os_RemoveAll, bind, ret.
  cbn [decode_ByVersions Enabled].
  destruct (String.eqb _ _); [destruct (links w !! _) eqn:E|];
    cbn [fst snd negb with_Enabled Metadatas];
    rewrite (encode_map_delete j _ _ names jbv) by assumption;
    rewrite ?(delete_id _ _ E); reflexivity.
Qed.

(** X18. Removing a version of a module the vault knows succeeds: the
    record of the version is gone from the vault file, every other record
    is as it was, nothing is left at or below the store path of the
    version while the rest of the store stays, and the link of the module
    is removed exactly when the version was the enabled one. *)
Theorem DeleteModule_present_version (env : Env)
    (identifier : StoreIdentifier) (w : World) (jbv : JByVersions) :
  persisted (vault_file w) (si_ModuleIdentifier identifier) = Some jbv ->
  let r := DeleteModule env identifier w in
  r.1 = Returns None
  /\ persisted_record (vault_file r.2) identifier = None
  /\ (forall sid, sid <> identifier ->
        persisted_record (vault_file r.2) sid
        = persisted_record (vault_file w) sid)
  /\ (forall q, q ∈ store r.2 <->
                q ∈ store w /\ under (si_toFilePath env identifier) q = false)
  /\ links r.2
     = if String.eqb (jEnabled jbv) (si_Version identifier)
       then delete (mi_toFilePath env (si_ModuleIdentifier identifier))
              (links w)
       else links w.
Proof.
  intros Hp. cbv zeta.
  destruct (persisted_Document _ _ _ Hp) as (j & names & Hf & Ha & Hn).
  rewrite Hf in Hp. rewrite (DeleteModule_present env identifier w j jbv Hf Hp).
  cbn [fst snd vault_file store links]. rewrite Hf.
  destruct identifier as [[a n] v]. cbn [si_ModuleIdentifier si_Version
    mi_Author mi_Name] in *.
  split; [reflexivity|]. split; [|split; [|split; [|reflexivity]]].
  - rewrite persisted_record_alter. cbn [si_ModuleIdentifier si_Version].
    rewrite decide_True by reflexivity. rewrite Hp.
    destruct (jMetadatas jbv); [apply lookup_delete_eq | reflexivity].
  - intros [[a' n'] v'] Hne. rewrite persisted_record_alter.
    cbn [si_ModuleIdentifier si_Version].
    destruct (decide (_ = _)) as [[= -> ->]|]; [|reflexivity].
    unfold persisted_record. cbn [si_ModuleIdentifier si_Version].
    rewrite Hp. destruct (jMetadatas jbv); [|reflexivity].
    apply lookup_delete_ne. congruence.
  - intros q. rewrite elem_of_filter. tauto.
Qed.

Lemma DeleteModule_present_version_witness :
  let w := with_store {[ "/cfg/store/acme/widgets/1.0.0";
                         "/cfg/store/acme/widgets/2.0.0" ]}
             (Sample.world (Document (Sample.two_versions "2.0.0"))
                (Sample.linked "2.0.0")) in
  let r := DeleteModule Sample.online (Sample.id "1.0.0") w in
  r.1 = Returns None
  /\ persisted_record (vault_file r.2) (Sample.id "1.0.0") = None
  /\ (forall sid, sid <> Sample.id "1.0.0" ->
        persisted_record (vault_file r.2) sid
        = persisted_record (vault_file w) sid)
  /\ (forall q, q ∈ store r.2 <->
                q ∈ store w
                /\ under (si_toFilePath Sample.online (Sample.id "1.0.0")) q
                   = false)
  /\ links r.2 = links w.
Proof.
  apply (DeleteModule_present_version Sample.online (Sample.id "1.0.0")
           (with_store {[ "/cfg/store/acme/widgets/1.0.0";
                          "/cfg/store/acme/widgets/2.0.0" ]}
              (Sample.world (Document (Sample.two_versions "2.0.0"))
                 (Sample.linked "2.0.0")))
           {| jEnabled := "2.0.0";
              jMetadatas := Some {[ "1.0.0" := Sample.record;
                                    "2.0.0" := Sample.record ]} |}).
  vm_compute. reflexivity.
Defined.

Lemma DeleteModule_enabled_version_witness :
  let w := Sample.world (Document (Sample.two_versions "1.0.0"))
             (Sample.linked "1.0.0") in
  let r := DeleteModule Sample.online (Sample.id "1.0.0") w in
  r.1 = Returns None
  /\ jEnabled <$> persisted (vault_file r.2) Sample.acme_widgets
     = Some "1.0.0"
  /\ persisted_record (vault_file r.2) (Sample.id "1.0.0") = None
  /\ ~ I1 (vault_file r.2).
Proof.
  apply (DeleteModule_enabled_version Sample.online (Sample.id "1.0.0")
           (Sample.world (Document (Sample.two_versions "1.0.0"))
              (Sample.linked "1.0.0"))
           {| jEnabled := "1.0.0";
              jMetadatas := Some {[ "1.0.0" := Sample.record;
                                    "2.0.0" := Sample.record ]} |}).
  - vm_compute. reflexivity.
  - reflexivity.
  - discriminate.
Defined.

(** ** Install *)

Lemma InstallModuleMURL_present_witness :
  let w := Sample.world (Document (Sample.two_versions "")) ∅ in
  let r := InstallModuleMURL Cases.offers_3 Sample.murl w in
  r.1 = Returns None
  /\ persisted_record (vault_file r.2) (Sample.id "3.0.0")
     = Some {| Local := "/modules/acme/widgets/metadata.json";
               Remote := Sample.murl |}
  /\ jEnabled <$> persisted (vault_file r.2) Sample.acme_widgets = Some ""
  /\ vault_writes r.2 = S (vault_writes w).
Proof.
  apply (InstallModuleMURL_present Cases.offers_3 Sample.murl
           (Sample.world (Document (Sample.two_versions "")) ∅)
           (Sample.metadata ["acme"] "3.0.0") Sample.acme_widgets
           {| jEnabled := "";
              jMetadatas := Some {[ "1.0.0" := Sample.record;
                                    "2.0.0" := Sample.record ]} |}
           (with_store {[ "/cfg/store/acme/widgets/3.0.0" ]}
              (Sample.world (Document (Sample.two_versions "")) ∅))).
  - reflexivity.
  - reflexivity.
  - discriminate.
  - vm_compute. reflexivity.
  - simpl. eauto.
  - vm_compute. reflexivity.
Defined.

(** X21. A module whose version mapping is null in the vault file cannot
    be installed: once the archive is in the store, the assignment to the
    nil map is a run-time panic, and the vault file is not written. *)
Theorem InstallModuleMURL_nil_map_panics (env : Env) (metadataURL : URL)
    (w w1 : World) (metadata : Metadata) (mi : ModuleIdentifier)
    (jbv : JByVersions) :
  fetchRemoteMetadata env metadataURL = (metadata, None) ->
  getModuleIdentifier metadata = Returns mi ->
  md_Version metadata <> "" ->
  persisted (vault_file w) mi = Some jbv ->
  jMetadatas jbv = None ->
  downloadModuleInStore env metadataURL
    {| si_ModuleIdentifier := mi; si_Version := md_Version metadata |} w
  = (Returns None, w1) ->
  InstallModuleMURL env metadataURL w = (Panics NilMapAssignment, w1)
  /\ vault_file w1 = vault_file w
  /\ vault_writes w1 = vault_writes w.
Proof.
  intros Hfetch Hmi Hv Hp Hms Hd.
  pose proof (downloadModuleInStore_frame env metadataURL
                {| si_ModuleIdentifier := mi;
                   si_Version := md_Version metadata |} w) as Hframe.
  rewrite Hd in Hframe. cbn in Hframe. destruct Hframe as (Hf & Hw & _).
  split; [|split; assumption].
  rewrite (InstallModuleMURL_fetched _ _ _ _ _ Hfetch Hmi), Hd.
  destruct (persisted_Document _ _ _ Hp) as (j & names & Hj & Ha & Hn).
  unfold AddModuleInVault, MutateVault, GetVault, os_Open, json_Decode_Vault,
    bind, ret, lift.
  rewrite Hf, Hj. cbn [fst snd].
  assert (Hlen : Nat.eqb (String.length (md_Version metadata)) 0 = false)
    by (destruct (md_Version metadata); [congruence | reflexivity]).
  unfold setModule. rewrite Hlen, Hmi. cbn [obind].
  rewrite getAllModuleVersions_decode. rewrite Hj in Hp. rewrite Hp.
  cbn [negb]. unfold decode_ByVersions. rewrite Hms. reflexivity.
Qed.

Lemma InstallModuleMURL_nil_map_panics_witness :
  let w := Sample.world (Document Cases.nil_map) ∅ in
  let w1 := with_store {[ "/cfg/store/acme/widgets/1.0.0" ]} w in
  InstallModuleMURL Sample.online Sample.murl w = (Panics NilMapAssignment, w1)
  /\ vault_file w1 = vault_file w
  /\ vault_writes w1 = vault_writes w.
Proof.
  apply (InstallModuleMURL_nil_map_panics Sample.online Sample.murl
           (Sample.world (Document Cases.nil_map) ∅)
           (with_store {[ "/cfg/store/acme/widgets/1.0.0" ]}
              (Sample.world (Document Cases.nil_map) ∅))
           (Sample.metadata ["acme"] "1.0.0") Sample.acme_widgets
           {| jEnabled := ""; jMetadatas := None |}).
  - reflexivity.
  - reflexivity.
  - discriminate.
  - vm_compute. reflexivity.
  - reflexivity.
  - vm_compute. reflexivity.
Defined.

(** X22. When the metadata document cannot be fetched, or what came back
    cannot be decoded, the install returns that error before anything is
    resolved, downloaded or written. *)
Theorem InstallModuleMURL_fetch_failure (env : Env) (metadataURL : URL)
    (w : World) (e : error) :
  http_Get env metadataURL = inl e
  \/ (exists res, http_Get env metadataURL = inr res
                  /\ json_Decode_Metadata env (Body res) = inl e) ->
  InstallModuleMURL env metadataURL w = (Returns (Some e), w).
Proof.
  intros H. unfold InstallModuleMURL, fetchRemoteMetadata, parseMetadata.
  destruct H as [-> | (res & -> & ->)]; reflexivity.
Qed.

Lemma InstallModuleMURL_fetch_failure_witness :
  InstallModuleMURL Cases.unreachable Sample.murl
    (Sample.world (Document (Sample.two_versions "")) ∅)
  = (Returns (Some (net_Error "dial tcp")),
     Sample.world (Document (Sample.two_versions "")) ∅).
Proof.
  apply (InstallModuleMURL_fetch_failure Cases.unreachable Sample.murl).
  left. reflexivity.
Defined.

Lemma AddModuleInVault_links (env : Env) m x w :
  links (AddModuleInVault env m x w).2 = links w.
Proof.
  unfold AddModuleInVault, MutateVault, GetVault, os_Open, json_Decode_Vault,
    SetVault, json_Marshal, os_MkdirAll, os_WriteFile, bind, ret, lift.
  destruct (vault_file w) as [| |j]; cbn [fst snd]; try reflexivity.
  destruct (setModule (decode j) m x) as [[[] v']|p]; reflexivity.
Qed.

(** X23. Whatever the link, the network and the vault, an install leaves
    every symbolic link as it is: installing a version enables nothing. *)
Theorem InstallModuleMURL_links_untouched (env : Env) (metadataURL : URL)
    (w : World) :
  links (InstallModuleMURL env metadataURL w).2 = links w.
Proof.
  unfold InstallModuleMURL.
  destruct (fetchRemoteMetadata env metadataURL) as [metadata [e|]];
    [reflexivity|].
  unfold bind, lift.
  destruct (getStoreIdentifier metadata) as [sid|p]; [|reflexivity].
  pose proof (downloadModuleInStore_frame env metadataURL sid w) as Hframe.
  destruct (downloadModuleInStore env metadataURL sid w) as [o w1].
  cbn in Hframe. destruct Hframe as (_ & _ & Hl).
  destruct o as [[e|]|p]; cbn [fst snd]; try exact Hl.
  destruct (getModuleIdentifier metadata) as [mi|p]; [|exact Hl].
  rewrite AddModuleInVault_links. exact Hl.
Qed.

(** ** Runs of operations *)

Lemma perform_all_preserves_I1_witness :
  I1 (vault_file
        (perform_all Sample.online
           [Install Sample.murl; Toggle (Sample.id "2.0.0") true;
            Toggle (Sample.id "2.0.0") false]
           (Sample.world (Document (Sample.two_versions "")) ∅))).
Proof.
  apply (perform_all_preserves_I1 Sample.online
           [Install Sample.murl; Toggle (Sample.id "2.0.0") true;
            Toggle (Sample.id "2.0.0") false]).
  - repeat constructor; intros identifier; discriminate.
  - unfold I1, Sample.world, vault_file, Sample.two_versions.
    apply map_Forall_singleton, map_Forall_singleton. vm_compute. reflexivity.
Defined.

(** ** The later variant of Toggle *)





